(** * schema-utils-js: extension injection, validation and the parse pipeline

    A shallow embedding of [src/validate-open-rpc-document.ts], a file that
    holds three modules one after the other: [validate-open-rpc-document.ts]
    with [applyExtensionsToMetaSchema] and [cleanMetaSchemaForValidation]
    (lines 1-95), an earlier version of the same module that applies no
    extensions (lines 95-163), and [parse-open-rpc-document.ts] (lines
    164-257).

    - Part 1 models the JavaScript values the code handles (JSON data) and the
      handful of language operations it uses on them: property read,
      property assignment, [delete], [Array.prototype.push] and
      [Array.prototype.forEach].
    - Part 2 embeds [applyExtensionsToMetaSchema],
      [cleanMetaSchemaForValidation], [validateOpenRPCDocument] and
      [parseOpenRPCDocument].  The working meta-schema is a local object of the
      call: its in-place updates are written as functional updates of the
      value bound to the local name.
    - Module [Earlier] embeds [validateOpenRPCDocument] as the earlier version
      of the module has it, with what it prints.
    - Part 3 (module [Store]) embeds the validation path a second time over an
      explicit object store, with locations and aliasing, for the statements
      about what a call may write to.

    The collaborators (Ajv, [JSON], [is-url], [fs-extra],
    [json-schema-ref-parser], [./get-open-rpc-document]) are parameters. *)

From Stdlib Require Import Strings.String Strings.Ascii Lists.List Arith.PeanoNat Lia Bool.Bool.
From stdpp Require Import base option list strings.
Import ListNotations.
Local Open Scope string_scope.
Local Open Scope list_scope.

(* ===================================================================== *)
(** * Part 1: values *)
(* ===================================================================== *)

(** JSON data as JavaScript sees it.  An object is the list of its own
    properties in insertion order (the order [JSON.stringify] and the
    validation engine observe).  A number is carried by the text that
    [Number.prototype.toString] gives it: the code under study never does
    arithmetic, it only uses values as property keys and inside messages.
    [JUndef] is [undefined], the value of an absent property. *)
#[warnings="-register-all"]
Inductive json : Type :=
| JUndef
| JNull
| JBool (b : bool)
| JNum (repr : string)
| JStr (s : string)
| JArr (es : list json)
| JObj (fs : list (string * json)).

(** ** Own properties of an object *)

Section Props.
Context {V : Type}.

Fixpoint obj_get (k : string) (fs : list (string * V)) : option V :=
  match fs with
  | [] => None
  | (k', v) :: fs' => if String.eqb k k' then Some v else obj_get k fs'
  end.

(** The property [k] is rebound to [v] where it stands; nothing is added
    when [k] is not a property. *)
Fixpoint obj_replace (k : string) (v : V) (fs : list (string * V)) : list (string * V) :=
  match fs with
  | [] => []
  | (k', v') :: fs' =>
      if String.eqb k k' then (k', v) :: fs' else (k', v') :: obj_replace k v fs'
  end.

(** [o[k] = v]: an existing property keeps its place, a new one goes last. *)
Fixpoint obj_set (k : string) (v : V) (fs : list (string * V)) : list (string * V) :=
  match fs with
  | [] => [(k, v)]
  | (k', v') :: fs' =>
      if String.eqb k k' then (k', v) :: fs' else (k', v') :: obj_set k v fs'
  end.

(** [delete o[k]]. *)
Fixpoint obj_delete (k : string) (fs : list (string * V)) : list (string * V) :=
  match fs with
  | [] => []
  | (k', v') :: fs' =>
      if String.eqb k k' then obj_delete k fs' else (k', v') :: obj_delete k fs'
  end.
End Props.

(** ** ToString, as used for computed property keys and template literals *)

Fixpoint to_string (v : json) : string :=
  match v with
  | JUndef => "undefined"
  | JNull => "null"
  | JBool true => "true"
  | JBool false => "false"
  | JNum repr => repr
  | JStr s => s
  | JObj _ => "[object Object]"
  | JArr es =>
      (* Array.prototype.join(","): null and undefined elements print empty *)
      (fix join (l : list json) : string :=
         match l with
         | [] => EmptyString
         | x :: l' =>
             let item := match x with JUndef | JNull => EmptyString | _ => to_string x end in
             match l' with
             | [] => item
             | _ :: _ => item +:+ "," +:+ join l'
             end
         end) es
  end.

(** ** Errors and outcomes *)

(** One reported violation, Ajv's [ErrorObject]. *)
Record ErrorObject : Type := {
  keyword : string;
  dataPath : string;      (* instance path *)
  schemaPath : string;
  params : json;
  err_message : string
}.

(** [class OpenRPCDocumentValidationError implements Error]: the two public
    fields of an instance. *)
Record OpenRPCDocumentValidationError : Type := {
  name : string;
  message : string
}.

(** What a [throw] (or a rejected promise) carries. *)
Inductive thrown : Type :=
| TypeError                                  (* raised by the runtime *)
| Error (message : string)                   (* new Error(message) *)
| ValidationError (e : OpenRPCDocumentValidationError)
| DereferencingError (message : string)      (* OpenRPCDocumentDereferencingError *)
| Rejection (message : string).              (* an error of a collaborator *)

(** A step either completes, throws, or leaves the fragment of JavaScript
    modelled here ([Unmodelled]: a key that resolves through a prototype, a
    named property on an array or on a primitive).  Nothing is stated about
    runs that end in [Unmodelled]. *)
Inductive outcome (A : Type) : Type :=
| Ok (a : A)
| Throw (e : thrown)
| Unmodelled.
Arguments Ok {A} a.
Arguments Throw {A} e.
Arguments Unmodelled {A}.

Definition bind {A B : Type} (m : outcome A) (f : A -> outcome B) : outcome B :=
  match m with
  | Ok a => f a
  | Throw e => Throw e
  | Unmodelled => Unmodelled
  end.

Declare Scope js_scope.
Delimit Scope js_scope with js.
Notation "'let*' x ':=' m 'in' k" := (bind m (fun x => k))
  (at level 10, x name, m at level 100, k at level 200) : js_scope.
Local Open Scope js_scope.

(** ** Language operations *)

Definition is_undefined (v : json) : bool :=
  match v with JUndef => true | _ => false end.

(** [v === true] *)
Definition strict_eq_true (v : json) : bool :=
  match v with JBool true => true | _ => false end.

(** The members every object inherits from [Object.prototype]. *)
Definition Object_prototype_member (k : string) : bool :=
  existsb (String.eqb k)
    [ "constructor"; "__proto__"; "hasOwnProperty"; "isPrototypeOf";
      "propertyIsEnumerable"; "toLocaleString"; "toString"; "valueOf";
      "__defineGetter__"; "__defineSetter__"; "__lookupGetter__"; "__lookupSetter__" ].

(** [v.k] for a key [k] written in the source.  The source's literal keys
    ("x-extensions", "name", "schema", "restricted", "required",
    "definitions", "properties", "JSONSchema", "$id", "$schema") are neither
    indices nor members of any prototype, so on an array or a primitive the
    read gives [undefined]. *)
Definition get_field (v : json) (k : string) : outcome json :=
  match v with
  | JUndef | JNull => Throw TypeError
  | JObj fs => Ok (default JUndef (obj_get k fs))
  | _ => Ok JUndef
  end.

(** [v[k]] for a key computed at run time. *)
Definition get_computed (v : json) (k : string) : outcome json :=
  match v with
  | JUndef | JNull => Throw TypeError
  | JObj fs =>
      if Object_prototype_member k then Unmodelled
      else Ok (default JUndef (obj_get k fs))
  | _ => Unmodelled
  end.

(** [o[k] = v] for a computed key: the object after the assignment. *)
Definition assign_computed (o : json) (k : string) (v : json) : outcome json :=
  match o with
  | JUndef | JNull => Throw TypeError
  | JObj fs =>
      if String.eqb k "__proto__" then Unmodelled
      else Ok (JObj (obj_set k v fs))
  | _ => Unmodelled
  end.

(** [delete o.k] for a literal key: the object after the deletion.  On an
    array or a primitive there is no such own property and nothing happens. *)
Definition delete_field (o : json) (k : string) : outcome json :=
  match o with
  | JUndef | JNull => Throw TypeError
  | JObj fs => Ok (JObj (obj_delete k fs))
  | _ => Ok o
  end.

(** [a.push(x)]: the array after the call.  JSON data other than an array
    has no callable [push]. *)
Definition push (a : json) (x : json) : outcome json :=
  match a with
  | JArr es => Ok (JArr (es ++ [x]))
  | _ => Throw TypeError
  end.

(** The elements [a.forEach] visits.  JSON data other than an array has no
    callable [forEach]. *)
Definition elements (a : json) : outcome (list json) :=
  match a with
  | JArr es => Ok es
  | _ => Throw TypeError
  end.

(** [xs.forEach(body)] with the state the callback updates threaded through;
    a throw in the callback ends the loop. *)
Fixpoint forEach {S : Type} (body : S -> json -> outcome S) (s : S) (xs : list json)
  : outcome S :=
  match xs with
  | [] => Ok s
  | x :: xs' => let* s' := body s x in forEach body s' xs'
  end.

(** The parent [o] once its property [k], an object mutated in place, holds
    [v]. *)
Definition with_field (o : json) (k : string) (v : json) : json :=
  match o with
  | JObj fs => JObj (obj_replace k v fs)
  | _ => o
  end.

(* ===================================================================== *)
(** * Part 2: the program *)
(* ===================================================================== *)

(** The line feed of ["\n"]. *)
Definition nl : string := String (ascii_of_nat 10) EmptyString.

(** [validateOpenRPCDocument] returns [true] or an error object. *)
Inductive validation_result : Type :=
| Valid                                             (* true *)
| Invalid (e : OpenRPCDocumentValidationError).

(** Calls that leave the module, in the order they are made. *)
Inductive call : Type :=
| CallAjvValidate (schema document : json)          (* ajv.validate *)
| CallFetchUrl (url : string)                       (* fetchUrlSchemaFile *)
| CallPathExists (path : string)                    (* pathExists *)
| CallReadFile (path : string)                      (* readSchemaFromFile *)
| CallDereference (document : json).                (* refParser.dereference *)

(** A computation that records its outside calls. *)
Definition io (A : Type) : Type := list call * outcome A.

Definition io_ret {A : Type} (a : A) : io A := ([], Ok a).

Definition io_lift {A : Type} (m : outcome A) : io A := ([], m).

Definition io_call {A : Type} (c : call) (answer : outcome A) : io A := ([c], answer).

Definition io_bind {A B : Type} (m : io A) (f : A -> io B) : io B :=
  match m with
  | (l, Ok a) => let (l', r) := f a in (l ++ l', r)
  | (l, Throw e) => (l, Throw e)
  | (l, Unmodelled) => (l, Unmodelled)
  end.

Notation "'do*' x ':=' m 'in' k" := (io_bind m (fun x => k))
  (at level 10, x name, m at level 100, k at level 200) : js_scope.

Section Program.

(** What [getMetaSchemaWithExtensionSchema()] returns: the module
    [./get-meta-schema-with-extension] is not part of the sources at hand.
    The value stands for an object graph in which no object is reached along
    two paths, as in JSON data. *)
Variable getMetaSchemaWithExtensionSchema : json.

(** [JSON.stringify(errors, undefined, "  ")]. *)
Variable JSON_stringify : list ErrorObject -> string.

(** [ajv.validate(schema, document)] on a new [Ajv]: the value of
    [ajv.errors] afterwards, [None] for [null]. *)
Variable ajv_validate : json -> json -> outcome (option (list ErrorObject)).

(** [JSON.parse], [None] when it throws. *)
Variable JSON_parse : string -> option json.

(** The collaborators of [parseOpenRPCDocument]. *)
Variable isUrl : string -> bool.
Variable fetchUrlSchemaFile : string -> outcome json.
Variable pathExists : string -> bool.
Variable readSchemaFromFile : string -> outcome json.
(** [refParser.dereference]: the resolved document, or the message of the
    error it rejects with. *)
Variable dereference : json -> string + json.

(** ** validate-open-rpc-document.ts *)

(** Lines 14-27: the constructor, and the initializer of [name]. *)
Definition new_OpenRPCDocumentValidationError (errors : list ErrorObject)
  : OpenRPCDocumentValidationError :=
  {| name := "OpenRPCDocumentDereferencingError";
     message :=
       "Error validating OpenRPC Document against @open-rpc/meta-schema." +:+ nl +:+
       "The errors found are as follows:" +:+ nl +:+
       JSON_stringify errors |}.

Definition invalid_key_message (metaSchemaKey propKey : json) : string :=
  "Invalid meta schema key: " +:+ to_string metaSchemaKey +:+
  " for openrpc extension " +:+ to_string propKey.

(** Lines 76-82: the callback of [extension['restricted'].forEach], on the
    object bound to [defs].  [push] and the assignment update objects that
    [defs] holds; the result is [defs] with these objects as they are
    afterwards.  The schema stored under [properties] is the document's own
    object; nothing here writes to it. *)
Definition restricted_callback (extension propKey schema : json)
    (defs : json) (metaSchemaKey : json) : outcome json :=
  let key := to_string metaSchemaKey in
  let* d := get_computed defs key in
  if is_undefined d then
    Throw (Error (invalid_key_message metaSchemaKey propKey))
  else
    let* required := get_field extension "required" in
    let* d1 :=
      (if strict_eq_true required then
         match d with
         | JUndef | JNull => Ok d              (* defs[key]?. short-circuits *)
         | _ =>
             let* r := get_field d "required" in
             let* r' := push r propKey in
             Ok (with_field d "required" r')
         end
       else Ok d) in
    let* p := get_field d1 "properties" in
    let* p' := assign_computed p (to_string propKey) schema in
    Ok (with_field defs key (with_field d1 "properties" p')).

(** Lines 72-83: the callback of [document["x-extensions"].forEach]. *)
Definition extension_callback (defs : json) (extension : json) : outcome json :=
  let* propKey := get_field extension "name" in
  let* schema := get_field extension "schema" in
  let* restricted := get_field extension "restricted" in
  let* keys := elements restricted in
  forEach (restricted_callback extension propKey schema) defs keys.

(** Lines 68-86. *)
Definition applyExtensionsToMetaSchema (document : json) : outcome json :=
  let extendedMetaSchema := getMetaSchemaWithExtensionSchema in
  let* defs := get_field extendedMetaSchema "definitions" in
  let* xs := get_field document "x-extensions" in
  if is_undefined xs then Ok extendedMetaSchema
  else
    let* extensions := elements xs in
    let* defs' := forEach extension_callback defs extensions in
    Ok (with_field extendedMetaSchema "definitions" defs').

(** [delete metaSchema.definitions.JSONSchema.k] *)
Definition delete_in_JSONSchema (metaSchema : json) (k : string) : outcome json :=
  let* defs := get_field metaSchema "definitions" in
  let* j := get_field defs "JSONSchema" in
  let* j' := delete_field j k in
  Ok (with_field metaSchema "definitions" (with_field defs "JSONSchema" j')).

(** Lines 88-95. *)
Definition cleanMetaSchemaForValidation (metaSchema : json) : outcome json :=
  let* m1 := delete_in_JSONSchema metaSchema "$id" in
  let* m2 := delete_in_JSONSchema m1 "$schema" in
  let* m3 := delete_field m2 "$schema" in
  let* m4 := delete_field m3 "$id" in
  Ok m4.

(** Lines 53-58: the schema [validateOpenRPCDocument] hands to the engine.
    The four [delete] statements are written out in the function, as in the
    source. *)
Definition validation_schema (document : json) : outcome json :=
  let* metaSchemaCopy := applyExtensionsToMetaSchema document in
  let* m1 := delete_in_JSONSchema metaSchemaCopy "$id" in
  let* m2 := delete_in_JSONSchema m1 "$schema" in
  let* m3 := delete_field m2 "$schema" in
  let* m4 := delete_field m3 "$id" in
  Ok m4.

(** Lines 49-66. *)
Definition validateOpenRPCDocument (document : json) : io validation_result :=
  do* metaSchemaCopy := io_lift (validation_schema document) in
  do* errors := io_call (CallAjvValidate metaSchemaCopy document)
                        (ajv_validate metaSchemaCopy document) in
  match errors with
  | Some errs => io_ret (Invalid (new_OpenRPCDocumentValidationError errs))
  | None => io_ret Valid
  end.

(** ** parse-open-rpc-document.ts *)

(** Lines 179-181. *)
Definition isJson (jsonString : string) : bool :=
  match JSON_parse jsonString with Some _ => true | None => false end.

(** Lines 186-194, on the message of the error caught. *)
Definition new_OpenRPCDocumentDereferencingError (e_message : string) : thrown :=
  DereferencingError
    ("The json schema provided cannot be dereferenced. Received Error: " +:+ nl +:+
     " " +:+ e_message).

(** Lines 231-244, the first half of [parseOpenRPCDocument]: from the
    argument to [parsedSchema].  An argument left out is [undefined]. *)
Definition acquire (schema : json) : io json :=
  let schema := match schema with JUndef => JStr "./openrpc.json" | _ => schema end in
  match schema with
  | JStr s =>
      if isJson s then
        match JSON_parse s with
        | Some d => io_ret d
        | None => io_lift (Throw (Rejection "SyntaxError"))
        end
      else if isUrl s then
        io_call (CallFetchUrl s) (fetchUrlSchemaFile s)
      else
        do* isCorrectPath := io_call (CallPathExists s) (Ok (pathExists s)) in
        io_call (CallReadFile s) (readSchemaFromFile s)
  | _ => io_ret schema
  end.

(** Lines 230-257. *)
Definition parseOpenRPCDocument (schema : json) : io json :=
  do* parsedSchema := acquire schema in
  do* isValid := validateOpenRPCDocument parsedSchema in
  match isValid with
  | Valid =>
      match dereference parsedSchema with
      | inr resolved => io_call (CallDereference parsedSchema) (Ok resolved)
      | inl e_message =>
          io_call (CallDereference parsedSchema)
                  (Throw (new_OpenRPCDocumentDereferencingError e_message))
      end
  | Invalid e => io_lift (Throw (ValidationError e))
  end.

End Program.

(* ===================================================================== *)
(** * The earlier version of the validation module *)
(* ===================================================================== *)

(** Lines 95-163 of the file: the same module before extensions were applied
    to the meta-schema.  The class [OpenRPCDocumentValidationError] is the
    same, word for word; [validateOpenRPCDocument] takes its schema from
    [getMetaSchemaExtended()] and prints the document and the violations
    before it returns an error. *)
Module Earlier.

(** What the function sends out, in the order it does. *)
Inductive effect : Type :=
| AjvValidate (schema document : json)              (* ajv.validate *)
| ConsoleLog (document : json)                      (* console.log(document) *)
| ConsoleInfo (errors : list ErrorObject).          (* console.info(ajv.errors) *)

Section Program.

(** What [getMetaSchemaExtended()] returns: the module
    [./append-extension-schema] is not part of the sources at hand. *)
Variable getMetaSchemaExtended : json.

Variable JSON_stringify : list ErrorObject -> string.

Variable ajv_validate : json -> json -> outcome (option (list ErrorObject)).

(** Lines 143-163. *)
Definition validateOpenRPCDocument (document : json)
  : list effect * outcome validation_result :=
  let metaSchemaCopy := getMetaSchemaExtended in
  match
    (let* m1 := delete_in_JSONSchema metaSchemaCopy "$id" in
     let* m2 := delete_in_JSONSchema m1 "$schema" in
     let* m3 := delete_field m2 "$schema" in
     let* m4 := delete_field m3 "$id" in
     Ok m4)
  with
  | Ok schema =>
      match ajv_validate schema document with
      | Ok (Some errs) =>
          ([AjvValidate schema document; ConsoleLog document; ConsoleInfo errs],
           Ok (Invalid (new_OpenRPCDocumentValidationError JSON_stringify errs)))
      | Ok None => ([AjvValidate schema document], Ok Valid)
      | Throw e => ([AjvValidate schema document], Throw e)
      | Unmodelled => ([AjvValidate schema document], Unmodelled)
      end
  | Throw e => ([], Throw e)
  | Unmodelled => ([], Unmodelled)
  end.

End Program.

(** The calls of the engine among the effects. *)
Definition engine_calls (l : list effect) : list call :=
  flat_map (fun x => match x with
                     | AjvValidate schema document => [CallAjvValidate schema document]
                     | _ => []
                     end) l.

End Earlier.

(* ===================================================================== *)
(** * Notions used in the statements *)
(* ===================================================================== *)

(** [delete o.k] on a value that is neither [undefined] nor [null]. *)
Definition without (k : string) (o : json) : json :=
  match o with
  | JObj fs => JObj (obj_delete k fs)
  | _ => o
  end.

Definition nullish (v : json) : bool :=
  match v with JUndef | JNull => true | _ => false end.

(** The meta-schemas on which the sanitizer runs to completion: an object
    whose [definitions] is an object whose [JSONSchema] is neither
    [undefined] nor [null]. *)
Definition sanitizable (m : json) (fs ds : list (string * json)) (j : json) : Prop :=
  m = JObj fs /\ obj_get "definitions" fs = Some (JObj ds) /\
  obj_get "JSONSchema" ds = Some j /\ nullish j = false.

(** The sanitizer in closed form. *)
Definition sanitized (fs ds : list (string * json)) (j : json) : json :=
  let j' := without "$schema" (without "$id" j) in
  JObj (obj_delete "$id" (obj_delete "$schema"
          (obj_replace "definitions" (JObj (obj_replace "JSONSchema" j' ds)) fs))).

(** Reading a document without the possibility of a throw: [field v k] is
    [v.k] wherever that read completes. *)
Definition field (v : json) (k : string) : json :=
  match v with
  | JObj fs => default JUndef (obj_get k fs)
  | _ => JUndef
  end.

(** The [required] entry of definition [K], and property [p] of its
    [properties], in the definitions object [defs]. *)
Definition required_at (K : string) (defs : json) : json :=
  field (field defs K) "required".

Definition property_at (K p : string) (defs : json) : option json :=
  match field (field defs K) "properties" with
  | JObj ps => obj_get p ps
  | _ => None
  end.

(** What a document asks for, read off its declarations. *)
Definition restricted_keys (extension : json) : list json :=
  match field extension "restricted" with JArr ks => ks | _ => [] end.

Definition names (K : string) (metaSchemaKey : json) : bool :=
  String.eqb (to_string metaSchemaKey) K.

(** The names declaration [extension] pushes on [required] of definition [K]:
    one per restricted entry that names [K], when [required] is [true]. *)
Definition pushes (K : string) (extension : json) : list json :=
  if strict_eq_true (field extension "required")
  then map (fun _ => field extension "name") (List.filter (names K) (restricted_keys extension))
  else [].

(** Declaration [extension] assigns property [p] of definition [K]. *)
Definition injects (K p : string) (extension : json) : bool :=
  existsb (names K) (restricted_keys extension) &&
  String.eqb (to_string (field extension "name")) p.

(** The schema of the last declaration that assigns property [p] of [K]. *)
Definition last_injected (K p : string) (extensions : list json) : option json :=
  fold_left (fun acc e => if injects K p e then Some (field e "schema") else acc)
            extensions None.

(** [a] with [xs] pushed on it, when [a] is an array. *)
Definition pushed (xs : list json) (a : json) : json :=
  match a with
  | JArr es => JArr (es ++ xs)
  | _ => a
  end.

(** Definition [d] can take an injection: it has a [properties] object and,
    for a required extension, a [required] array. *)
Definition target_ok (required : bool) (d : json) : bool :=
  match field d "properties" with
  | JObj _ =>
      if required then match field d "required" with JArr _ => true | _ => false end
      else true
  | _ => false
  end.


(** The declarations a document carries: the elements of its
    [x-extensions]. *)
Definition declarations (document : json) : list json :=
  match field document "x-extensions" with JArr es => es | _ => [] end.

(** Declaration [extension] is restricted to definition [K]. *)
Definition targets (K : string) (extension : json) : bool :=
  existsb (names K) (restricted_keys extension).

(** Declaration [extension] writes to plain objects under a plain key: its
    name is not "__proto__", the one key under which the assignment of line
    81 stores no property, and every definition of [defs] it is restricted to
    has an object under [properties]. *)
Definition plain (defs : json) (extension : json) : bool :=
  negb (String.eqb (to_string (field extension "name")) "__proto__") &&
  forallb (fun k => target_ok false (field defs (to_string k))) (restricted_keys extension).

(** A declaration that restricts nothing: an object whose [restricted] is
    the empty array. *)
Definition idle (extension : json) : bool :=
  match field extension "restricted" with JArr [] => true | _ => false end.

(** Processing has come to entry [k] of the [restricted] sequence of
    declaration [E], every earlier entry having been applied without an
    exception, and the definitions object is then [defs]. *)
Definition reaches (base document E k defs : json) : Prop :=
  exists pre post kpre kpost defs1,
    nullish base = false /\
    field document "x-extensions" = JArr (pre ++ E :: post) /\
    forEach extension_callback (field base "definitions") pre = Ok defs1 /\
    nullish E = false /\
    field E "restricted" = JArr (kpre ++ k :: kpost) /\
    forEach (restricted_callback E (field E "name") (field E "schema")) defs1 kpre
      = Ok defs.

(* ===================================================================== *)
(** * Part 3: the validation path over an object store *)
(* ===================================================================== *)

(** In JavaScript an object is reached through a reference, and two names may
    hold the same reference.  Here objects and arrays live in a store, values
    hold locations, and [push], assignment and [delete] write to the store,
    so that it can be asked which objects a call of [validateOpenRPCDocument]
    writes to. *)
Module Store.

Definition loc : Type := nat.

Inductive value : Type :=
| VUndef
| VNull
| VBool (b : bool)
| VNum (repr : string)
| VStr (s : string)
| VRef (l : loc).

Inductive cell : Type :=
| CObj (fs : list (string * value))
| CArr (es : list value).

(** The store: location [l] is the [l]-th cell; a new object takes the next
    location. *)
Abbreviation heap := (list cell).

(** The values a cell holds. *)
Definition cell_values (c : cell) : list value :=
  match c with
  | CObj fs => map snd fs
  | CArr es => es
  end.

(** A step reads and writes the store; what it wrote stays written when it
    throws. *)
Definition M (A : Type) : Type := heap -> heap * outcome A.

Definition ret {A : Type} (a : A) : M A := fun h => (h, Ok a).

Definition throw {A : Type} (e : thrown) : M A := fun h => (h, Throw e).

Definition mbind {A B : Type} (m : M A) (f : A -> M B) : M B :=
  fun h =>
    match m h with
    | (h', Ok a) => f a h'
    | (h', Throw e) => (h', Throw e)
    | (h', Unmodelled) => (h', Unmodelled)
    end.

Declare Scope store_scope.
Delimit Scope store_scope with store.
Notation "'let*' x ':=' m 'in' k" := (mbind m (fun x => k))
  (at level 10, x name, m at level 100, k at level 200) : store_scope.
Local Open Scope store_scope.

Definition is_undefined (v : value) : bool :=
  match v with VUndef => true | _ => false end.

Definition nullish (v : value) : bool :=
  match v with VUndef | VNull => true | _ => false end.

Definition strict_eq_true (v : value) : bool :=
  match v with VBool true => true | _ => false end.

(** ToString.  [fuel] bounds the nesting of arrays inside arrays; the store
    has no more levels of nesting than cells, unless an array contains itself,
    a case left out of the model. *)
Fixpoint to_string_fuel (fuel : nat) (h : heap) (v : value) : string :=
  match v with
  | VUndef => "undefined"
  | VNull => "null"
  | VBool true => "true"
  | VBool false => "false"
  | VNum repr => repr
  | VStr s => s
  | VRef l =>
      match h !! l with
      | Some (CArr es) =>
          match fuel with
          | O => EmptyString
          | S fuel' =>
              String.concat ","
                (map (fun x => match x with
                               | VUndef | VNull => EmptyString
                               | _ => to_string_fuel fuel' h x
                               end) es)
          end
      | _ => "[object Object]"
      end
  end.

Definition to_string (v : value) : M string :=
  fun h => (h, Ok (to_string_fuel (length h) h v)).

(** [v.k] for a key written in the source. *)
Definition get_field (v : value) (k : string) : M value :=
  fun h =>
    match v with
    | VUndef | VNull => (h, Throw TypeError)
    | VRef l =>
        match h !! l with
        | Some (CObj fs) => (h, Ok (default VUndef (obj_get k fs)))
        | _ => (h, Ok VUndef)
        end
    | _ => (h, Ok VUndef)
    end.

(** [v[k]] for a key computed at run time. *)
Definition get_computed (v : value) (k : string) : M value :=
  fun h =>
    match v with
    | VUndef | VNull => (h, Throw TypeError)
    | VRef l =>
        match h !! l with
        | Some (CObj fs) =>
            if Object_prototype_member k then (h, Unmodelled)
            else (h, Ok (default VUndef (obj_get k fs)))
        | _ => (h, Unmodelled)
        end
    | _ => (h, Unmodelled)
    end.

(** [o[k] = v] for a computed key. *)
Definition assign_computed (o : value) (k : string) (v : value) : M unit :=
  fun h =>
    match o with
    | VUndef | VNull => (h, Throw TypeError)
    | VRef l =>
        match h !! l with
        | Some (CObj fs) =>
            if String.eqb k "__proto__" then (h, Unmodelled)
            else (<[l := CObj (obj_set k v fs)]> h, Ok tt)
        | _ => (h, Unmodelled)
        end
    | _ => (h, Unmodelled)
    end.

(** [delete o.k] for a key written in the source. *)
Definition delete_field (o : value) (k : string) : M unit :=
  fun h =>
    match o with
    | VUndef | VNull => (h, Throw TypeError)
    | VRef l =>
        match h !! l with
        | Some (CObj fs) => (<[l := CObj (obj_delete k fs)]> h, Ok tt)
        | _ => (h, Ok tt)
        end
    | _ => (h, Ok tt)
    end.

(** [a.push(x)] *)
Definition push (a : value) (x : value) : M unit :=
  fun h =>
    match a with
    | VRef l =>
        match h !! l with
        | Some (CArr es) => (<[l := CArr (es ++ [x])]> h, Ok tt)
        | _ => (h, Throw TypeError)
        end
    | _ => (h, Throw TypeError)
    end.

(** The iterations of [forEach] from index [i] on, [count] of them: each
    reads its element from the array as it is by then, and passes over an
    index the array no longer has. *)
Fixpoint forEach_from (body : value -> M unit) (l : loc) (i count : nat) : M unit :=
  match count with
  | O => ret tt
  | S count' =>
      fun h =>
        match h !! l with
        | Some (CArr es) =>
            match es !! i with
            | Some x => (let* _ := body x in forEach_from body l (S i) count') h
            | None => forEach_from body l (S i) count' h
            end
        | _ => forEach_from body l (S i) count' h
        end
  end.

(** [a.forEach(body)]: the length is read once, before the first iteration. *)
Definition forEach (a : value) (body : value -> M unit) : M unit :=
  fun h =>
    match a with
    | VRef l =>
        match h !! l with
        | Some (CArr es) => forEach_from body l 0 (length es) h
        | _ => (h, Throw TypeError)
        end
    | _ => (h, Throw TypeError)
    end.

(** A new object graph for the JSON text [t]: the parts first, then the
    object that holds them.  The result is the store and the value of [t]. *)
Fixpoint alloc_tree (t : json) (h : heap) : heap * value :=
  match t with
  | JUndef => (h, VUndef)
  | JNull => (h, VNull)
  | JBool b => (h, VBool b)
  | JNum repr => (h, VNum repr)
  | JStr s => (h, VStr s)
  | JArr es =>
      let (h1, vs) :=
        (fix alloc_list (l : list json) (h : heap) : heap * list value :=
           match l with
           | [] => (h, [])
           | x :: l' =>
               let (h1, v) := alloc_tree x h in
               let (h2, vs) := alloc_list l' h1 in
               (h2, v :: vs)
           end) es h in
      (h1 ++ [CArr vs], VRef (length h1))
  | JObj fs =>
      let (h1, vs) :=
        (fix alloc_fields (l : list (string * json)) (h : heap)
           : heap * list (string * value) :=
           match l with
           | [] => (h, [])
           | (k, x) :: l' =>
               let (h1, v) := alloc_tree x h in
               let (h2, vs) := alloc_fields l' h1 in
               (h2, (k, v) :: vs)
           end) fs h in
      (h1 ++ [CObj vs], VRef (length h1))
  end.

(** The two loops of [alloc_tree], by name. *)
Fixpoint alloc_list (l : list json) (h : heap) : heap * list value :=
  match l with
  | [] => (h, [])
  | x :: l' =>
      let (h1, v) := alloc_tree x h in
      let (h2, vs) := alloc_list l' h1 in
      (h2, v :: vs)
  end.

Fixpoint alloc_fields (l : list (string * json)) (h : heap) : heap * list (string * value) :=
  match l with
  | [] => (h, [])
  | (k, x) :: l' =>
      let (h1, v) := alloc_tree x h in
      let (h2, vs) := alloc_fields l' h1 in
      (h2, (k, v) :: vs)
  end.

Section Program.

(** The JSON text of [@open-rpc/meta-schema]. *)
Variable metaSchema : json.

(** [ajv.validate(schema, document)] on a new [Ajv]: it reads the two object
    graphs and leaves [ajv.errors]. *)
Variable ajv_validate : heap -> value -> value -> outcome (option (list ErrorObject)).

Variable JSON_stringify : list ErrorObject -> string.

(** Modelled from the spec: [getMetaSchemaWithExtensionSchema], whose module
    [./get-meta-schema-with-extension] is missing from the sources.  The
    specification has the working copy of the base meta-schema "produced
    fresh for each validation", by "a fresh deep copy before injection": each
    call builds a new object graph for the base meta-schema. *)
Definition getMetaSchemaWithExtensionSchema : M value :=
  fun h => let (h', v) := alloc_tree metaSchema h in (h', Ok v).

Definition restricted_callback (defs extension propKey schema : value)
    (metaSchemaKey : value) : M unit :=
  let* key := to_string metaSchemaKey in
  let* d := get_computed defs key in
  if is_undefined d then
    let* k := to_string metaSchemaKey in
    let* p := to_string propKey in
    throw (Error ("Invalid meta schema key: " +:+ k +:+ " for openrpc extension " +:+ p))
  else
    let* required := get_field extension "required" in
    let* _ :=
      (if strict_eq_true required then
         let* key := to_string metaSchemaKey in
         let* d := get_computed defs key in
         if nullish d then ret tt                  (* defs[key]?. short-circuits *)
         else
           let* r := get_field d "required" in
           push r propKey
       else ret tt) in
    let* key := to_string metaSchemaKey in
    let* d := get_computed defs key in
    let* p := get_field d "properties" in
    let* pk := to_string propKey in
    assign_computed p pk schema.

Definition extension_callback (defs : value) (extension : value) : M unit :=
  let* propKey := get_field extension "name" in
  let* schema := get_field extension "schema" in
  let* restricted := get_field extension "restricted" in
  forEach restricted (restricted_callback defs extension propKey schema).

Definition applyExtensionsToMetaSchema (document : value) : M value :=
  let* extendedMetaSchema := getMetaSchemaWithExtensionSchema in
  let* defs := get_field extendedMetaSchema "definitions" in
  let* xs := get_field document "x-extensions" in
  if is_undefined xs then ret extendedMetaSchema
  else
    let* _ := forEach xs (extension_callback defs) in
    ret extendedMetaSchema.

(** [delete metaSchema.definitions.JSONSchema.k] *)
Definition delete_in_JSONSchema (metaSchema : value) (k : string) : M unit :=
  let* defs := get_field metaSchema "definitions" in
  let* j := get_field defs "JSONSchema" in
  delete_field j k.

Definition validateOpenRPCDocument (document : value) : M validation_result :=
  let* metaSchemaCopy := applyExtensionsToMetaSchema document in
  let* _ := delete_in_JSONSchema metaSchemaCopy "$id" in
  let* _ := delete_in_JSONSchema metaSchemaCopy "$schema" in
  let* _ := delete_field metaSchemaCopy "$schema" in
  let* _ := delete_field metaSchemaCopy "$id" in
  let* errors := (fun h => (h, ajv_validate h metaSchemaCopy document)) in
  match errors with
  | Some errs => ret (Invalid (new_OpenRPCDocumentValidationError JSON_stringify errs))
  | None => ret Valid
  end.

End Program.

(** ** Notions for stating what a call writes to *)

(** Cell [p] of [h] holds a reference to [l]. *)
Definition stores (h : heap) (p l : loc) : Prop :=
  exists c, h !! p = Some c /\ In (VRef l) (cell_values c).

(** [l] is [k] references away from [root] in [h]. *)
Fixpoint at_depth (h : heap) (root : value) (k : nat) (l : loc) : Prop :=
  match k with
  | O => root = VRef l
  | S k' => exists p, at_depth h root k' p /\ stores h p l
  end.

(** [v], when a reference, is [k] references away from [root]. *)
Definition deep (h : heap) (root : value) (k : nat) (v : value) : Prop :=
  forall l, v = VRef l -> at_depth h root k l.

(** [h'] extends [h] by a forest with the given roots: the new cells refer
    only to new cells below themselves, no new cell is referred to twice, and
    the roots are new cells that no new cell refers to. *)
Definition alloc_ok (h h' : heap) (roots : list value) : Prop :=
  (exists ext, h' = h ++ ext) /\
  (forall l c x, length h <= l -> h' !! l = Some c -> In (VRef x) (cell_values c) ->
                 length h <= x /\ x < l) /\
  (forall l l' c c' x, length h <= l -> length h <= l' ->
                       h' !! l = Some c -> h' !! l' = Some c' ->
                       In (VRef x) (cell_values c) -> In (VRef x) (cell_values c') ->
                       l = l') /\
  (forall r, In (VRef r) roots ->
             length h <= r /\ r < length h' /\
             forall l c, length h <= l -> h' !! l = Some c -> ~ In (VRef r) (cell_values c)).

(** The JSON text an object graph spells out, read [fuel] levels deep. *)
Fixpoint readback (fuel : nat) (h : heap) (v : value) : json :=
  match v with
  | VUndef => JUndef
  | VNull => JNull
  | VBool b => JBool b
  | VNum repr => JNum repr
  | VStr s => JStr s
  | VRef l =>
      match fuel with
      | O => JUndef
      | S fuel' =>
          match h !! l with
          | Some (CObj fs) => JObj (map (fun kv => (fst kv, readback fuel' h (snd kv))) fs)
          | Some (CArr es) => JArr (map (readback fuel' h) es)
          | None => JUndef
          end
      end
  end.

(** The levels of nesting of a JSON text. *)
Fixpoint json_height (t : json) : nat :=
  match t with
  | JArr es => S (list_max (map json_height es))
  | JObj fs => S (list_max (map (fun kv => json_height (snd kv)) fs))
  | _ => 0
  end.

(** What a run over the store amounts to in JSON text: the outcome, with the
    object graph of the result read [fuel] levels deep. *)
Definition observe (fuel : nat) (run : heap * outcome value) : outcome json :=
  match run with
  | (h, Ok v) => Ok (readback fuel h v)
  | (_, Throw e) => Throw e
  | (_, Unmodelled) => Unmodelled
  end.

(** A run of [m] on the document [t], laid out in an empty store. *)
Definition on_document (t : json) (m : value -> M value) : heap * outcome value :=
  let (h, d) := alloc_tree t [] in m d h.

(** Started in a store that satisfies [I], the step [m] ends in a store that
    satisfies [I], and with a result that satisfies [Q] when it completes. *)
Definition triple {A : Type} (I : heap -> Prop) (m : M A) (Q : A -> Prop) : Prop :=
  forall h h' r, I h -> m h = (h', r) -> I h' /\ forall a, r = Ok a -> Q a.

(** The same with one condition at the start and another at the end. *)
Definition hoare {A : Type} (P : heap -> Prop) (m : M A) (P' : heap -> Prop)
    (Q : A -> Prop) : Prop :=
  forall h h' r, P h -> m h = (h', r) -> P' h' /\ forall a, r = Ok a -> Q a.

(** The store [h] still has, as they were in [h1], every cell below [n0] and
    every cell less than [D] references away from [root]. *)
Definition kept (n0 : nat) (h1 : heap) (root : value) (D : nat) (h : heap) : Prop :=
  length h = length h1 /\
  forall l, (l < n0 \/ exists k, k < D /\ at_depth h1 root k l) -> h !! l = h1 !! l.

End Store.

(* ===================================================================== *)
(** * Concrete data used by the examples *)
(* ===================================================================== *)

Module Sample.

(** A cut-down meta-schema with the shape of [@open-rpc/meta-schema]: a root
    with identity fields and a [definitions] mapping in which [JSONSchema]
    carries identity fields of its own (and, like the real one, neither
    [required] nor [properties]). *)
Definition metaSchema : json :=
  JObj [ ("$schema", JStr "https://meta.json-schema.tools/");
         ("$id", JStr "https://meta.open-rpc.org/");
         ("title", JStr "openrpcDocument");
         ("type", JStr "object");
         ("required", JArr [JStr "info"; JStr "methods"; JStr "openrpc"]);
         ("definitions",
           JObj [ ("MethodObject",
                    JObj [ ("type", JStr "object");
                           ("required", JArr [JStr "name"; JStr "params"]);
                           ("properties",
                             JObj [ ("name", JObj [("type", JStr "string")]) ]) ]);
                  ("JSONSchema",
                    JObj [ ("$id", JStr "https://meta.json-schema.tools/");
                           ("$schema", JStr "https://meta.json-schema.tools/");
                           ("title", JStr "JSONSchema") ]) ]) ].

Definition extension (name : string) (schema : json) (restricted : list string)
    (required : bool) : json :=
  JObj [ ("name", JStr name);
         ("schema", schema);
         ("restricted", JArr (map JStr restricted));
         ("required", JBool required) ].

Definition document (extensions : list json) : json :=
  JObj [ ("openrpc", JStr "1.2.6");
         ("info", JObj [("title", JStr "t"); ("version", JStr "1")]);
         ("methods", JArr []);
         ("x-extensions", JArr extensions) ].

Definition fragment : json := JObj [("type", JStr "boolean")].
Definition other_fragment : json := JObj [("type", JStr "string")].

Definition x_foo : json := extension "x-foo" fragment ["MethodObject"] true.

(** Collaborators for the examples: the serializer tells an empty list from
    the others, the engine asks for a top-level [info], text starting with
    an opening brace parses (to an empty document), text starting with [h]
    is a URL, the dereferencer fails on a document that has a [$ref]. *)
Definition JSON_stringify (errors : list ErrorObject) : string :=
  match errors with [] => "[]" | _ => "[...]" end.

Definition missing_info : ErrorObject :=
  {| keyword := "required"; dataPath := EmptyString; schemaPath := "#/required";
     params := JObj [("missingProperty", JStr "info")];
     err_message := "should have required property 'info'" |}.

Definition ajv_validate (schema document : json) : outcome (option (list ErrorObject)) :=
  match document with
  | JObj fs => match obj_get "info" fs with
               | Some _ => Ok None
               | None => Ok (Some [missing_info])
               end
  | _ => Ok (Some [missing_info])
  end.

Definition JSON_parse (text : string) : option json :=
  match text with
  | String "{"%char _ => Some (JObj [])
  | _ => None
  end.

Definition isUrl (text : string) : bool :=
  match text with
  | String "h"%char _ => true
  | _ => false
  end.

(** The engine over the store: it finds nothing to report. *)
Definition store_ajv_validate (h : Store.heap) (schema document : Store.value)
  : outcome (option (list ErrorObject)) := Ok None.

Definition fetchUrlSchemaFile (url : string) : outcome json := Ok (document []).
Definition pathExists (path : string) : bool := true.
Definition readSchemaFromFile (path : string) : outcome json := Ok (document []).

Definition dereference (d : json) : string + json :=
  match d with
  | JObj fs => match obj_get "$ref" fs with
               | Some _ => inl "Error resolving $ref pointer"
               | None => inr d
               end
  | _ => inr d
  end.

End Sample.

(* ===================================================================== *)
(** * Facts about own properties *)
(* ===================================================================== *)

Section PropsFacts.
Context {V : Type}.
Implicit Types (k : string) (v : V) (fs : list (string * V)).

Lemma obj_get_replace_eq k v fs :
  obj_get k (obj_replace k v fs) = match obj_get k fs with Some _ => Some v | None => None end.
Proof.
  induction fs as [|[k' v'] fs IH]; simpl; [reflexivity|].
  destruct (String.eqb k k') eqn:E; simpl; rewrite E; auto.
Qed.

Lemma obj_get_replace_ne k k' v fs :
  k <> k' -> obj_get k' (obj_replace k v fs) = obj_get k' fs.
Proof.
  intros Hne. induction fs as [|[k0 v0] fs IH]; simpl; [reflexivity|].
  destruct (String.eqb k k0) eqn:E; simpl.
  - apply String.eqb_eq in E. subst k0.
    destruct (String.eqb k' k) eqn:E'; [|reflexivity].
    apply String.eqb_eq in E'. congruence.
  - rewrite IH. reflexivity.
Qed.

Lemma obj_replace_same k v fs :
  obj_get k fs = Some v -> obj_replace k v fs = fs.
Proof.
  induction fs as [|[k' v'] fs IH]; simpl; [reflexivity|].
  destruct (String.eqb k k') eqn:E; intros H.
  - congruence.
  - rewrite IH; auto.
Qed.

Lemma obj_get_set_eq k v fs : obj_get k (obj_set k v fs) = Some v.
Proof.
  induction fs as [|[k' v'] fs IH]; simpl.
  - rewrite String.eqb_refl. reflexivity.
  - destruct (String.eqb k k') eqn:E; simpl; rewrite E; auto.
Qed.

Lemma obj_get_set_ne k k' v fs :
  k <> k' -> obj_get k' (obj_set k v fs) = obj_get k' fs.
Proof.
  intros Hne. induction fs as [|[k0 v0] fs IH]; simpl.
  - destruct (String.eqb k' k) eqn:E; [|reflexivity].
    apply String.eqb_eq in E. congruence.
  - destruct (String.eqb k k0) eqn:E; simpl.
    + apply String.eqb_eq in E. subst k0.
      destruct (String.eqb k' k) eqn:E'; [|reflexivity].
      apply String.eqb_eq in E'. congruence.
    + rewrite IH. reflexivity.
Qed.

Lemma obj_get_delete_eq k fs : obj_get k (obj_delete k fs) = None.
Proof.
  induction fs as [|[k' v'] fs IH]; simpl; [reflexivity|].
  destruct (String.eqb k k') eqn:E; simpl; [|rewrite E]; auto.
Qed.

Lemma obj_get_delete_ne k k' fs :
  k <> k' -> obj_get k' (obj_delete k fs) = obj_get k' fs.
Proof.
  intros Hne. induction fs as [|[k0 v0] fs IH]; simpl; [reflexivity|].
  destruct (String.eqb k k0) eqn:E; simpl.
  - apply String.eqb_eq in E. subst k0.
    destruct (String.eqb k' k) eqn:E'; [|exact IH].
    apply String.eqb_eq in E'. congruence.
  - rewrite IH. reflexivity.
Qed.

Lemma obj_delete_absent k fs : obj_get k fs = None -> obj_delete k fs = fs.
Proof.
  induction fs as [|[k' v'] fs IH]; simpl; [reflexivity|].
  destruct (String.eqb k k') eqn:E; intros H; [discriminate|].
  rewrite IH; auto.
Qed.
End PropsFacts.

(** ** Outcomes *)

Lemma bind_Ok_inv {A B : Type} (m : outcome A) (f : A -> outcome B) (b : B) :
  bind m f = Ok b -> exists a, m = Ok a /\ f a = Ok b.
Proof. destruct m; simpl; intros H; try discriminate. eauto. Qed.

(* ===================================================================== *)
(** * Sanitization *)
(* ===================================================================== *)

Lemma delete_field_without (o : json) (k : string) :
  nullish o = false -> delete_field o k = Ok (without k o).
Proof. destruct o; simpl; intros H; congruence. Qed.

Lemma nullish_without (k : string) (o : json) : nullish (without k o) = nullish o.
Proof. destruct o; reflexivity. Qed.

Lemma delete_field_Ok (o : json) (k : string) (o' : json) :
  delete_field o k = Ok o' -> nullish o = false /\ o' = without k o.
Proof. destruct o; simpl; intros H; inversion H; auto. Qed.

Lemma delete_in_JSONSchema_Ok (m : json) (k : string) (m' : json) :
  delete_in_JSONSchema m k = Ok m' ->
  exists fs ds j, sanitizable m fs ds j /\
    m' = JObj (obj_replace "definitions" (JObj (obj_replace "JSONSchema" (without k j) ds)) fs).
Proof.
  unfold delete_in_JSONSchema. intros H.
  apply bind_Ok_inv in H as (defs & Hd & H).
  apply bind_Ok_inv in H as (j & Hj & H).
  apply bind_Ok_inv in H as (j' & Hdel & H).
  inversion H; subst m'; clear H.
  apply delete_field_Ok in Hdel as [Hn ->].
  destruct defs as [| | | | | |ds]; simpl in Hj; inversion Hj; subst j; try discriminate.
  destruct (obj_get "JSONSchema" ds) as [j|] eqn:Ej; simpl in Hn; [|discriminate].
  destruct m as [| | | | | |fs]; simpl in Hd; inversion Hd as [Hd'].
  destruct (obj_get "definitions" fs) as [d|] eqn:Ed; simpl in Hd'; [|discriminate].
  subst d. exists fs, ds, j. simpl. repeat split; auto.
Qed.

Lemma delete_in_JSONSchema_sanitizable (m : json) (k : string) fs ds j :
  sanitizable m fs ds j ->
  delete_in_JSONSchema m k =
    Ok (JObj (obj_replace "definitions" (JObj (obj_replace "JSONSchema" (without k j) ds)) fs)).
Proof.
  intros (-> & Hd & Hj & Hn). unfold delete_in_JSONSchema. simpl.
  rewrite Hd. simpl. rewrite Hj. simpl.
  rewrite (delete_field_without _ _ Hn). reflexivity.
Qed.

Lemma sanitizable_step (m : json) fs ds j (j' : json) :
  sanitizable m fs ds j -> nullish j' = false ->
  sanitizable
    (JObj (obj_replace "definitions" (JObj (obj_replace "JSONSchema" j' ds)) fs))
    (obj_replace "definitions" (JObj (obj_replace "JSONSchema" j' ds)) fs)
    (obj_replace "JSONSchema" j' ds) j'.
Proof.
  intros (-> & Hd & Hj & Hn) Hn'. repeat split; auto.
  - rewrite obj_get_replace_eq, Hd. reflexivity.
  - rewrite obj_get_replace_eq, Hj. reflexivity.
Qed.

Lemma obj_replace_replace {V : Type} (k : string) (v v' : V) (fs : list (string * V)) :
  obj_replace k v' (obj_replace k v fs) = obj_replace k v' fs.
Proof.
  induction fs as [|[k0 v0] fs IH]; simpl; [reflexivity|].
  destruct (String.eqb k k0) eqn:E; simpl; rewrite E; [reflexivity|].
  rewrite IH. reflexivity.
Qed.

Lemma clean_sanitizable (m : json) fs ds j :
  sanitizable m fs ds j -> cleanMetaSchemaForValidation m = Ok (sanitized fs ds j).
Proof.
  intros Hs. unfold cleanMetaSchemaForValidation.
  rewrite (delete_in_JSONSchema_sanitizable _ "$id" _ _ _ Hs). simpl.
  assert (Hn : nullish (without "$id" j) = false).
  { rewrite nullish_without. apply Hs. }
  rewrite (delete_in_JSONSchema_sanitizable _ "$schema" _ _ _
             (sanitizable_step _ _ _ _ _ Hs Hn)).
  simpl. rewrite !obj_replace_replace. reflexivity.
Qed.

Lemma clean_Ok (m m' : json) :
  cleanMetaSchemaForValidation m = Ok m' ->
  exists fs ds j, sanitizable m fs ds j /\ m' = sanitized fs ds j.
Proof.
  intros H. pose proof H as H0. unfold cleanMetaSchemaForValidation in H0.
  apply bind_Ok_inv in H0 as (m1 & H1 & _).
  apply delete_in_JSONSchema_Ok in H1 as (fs & ds & j & Hs & _).
  exists fs, ds, j. split; [exact Hs|].
  rewrite (clean_sanitizable _ _ _ _ Hs) in H. inversion H. reflexivity.
Qed.

Lemma sanitized_sanitizable fs ds j :
  obj_get "definitions" fs = Some (JObj ds) ->
  obj_get "JSONSchema" ds = Some j -> nullish j = false ->
  exists fs', sanitized fs ds j = JObj fs' /\
    sanitizable (sanitized fs ds j) fs'
      (obj_replace "JSONSchema" (without "$schema" (without "$id" j)) ds)
      (without "$schema" (without "$id" j)) /\
    obj_get "$id" fs' = None /\ obj_get "$schema" fs' = None.
Proof.
  intros Hd Hj Hn. eexists. split; [reflexivity|]. split; [|split].
  - repeat split.
    + rewrite !obj_get_delete_ne by discriminate.
      rewrite obj_get_replace_eq, Hd. reflexivity.
    + rewrite obj_get_replace_eq, Hj. reflexivity.
    + rewrite !nullish_without. exact Hn.
  - apply obj_get_delete_eq.
  - rewrite obj_get_delete_ne by discriminate. apply obj_get_delete_eq.
Qed.

Lemma without_twice (j : json) :
  without "$schema" (without "$id" (without "$schema" (without "$id" j)))
  = without "$schema" (without "$id" j).
Proof.
  destruct j; simpl; try reflexivity.
  rewrite (obj_delete_absent "$id" (obj_delete "$schema" _)).
  - rewrite (obj_delete_absent "$schema"); [reflexivity|]. apply obj_get_delete_eq.
  - rewrite obj_get_delete_ne by discriminate. apply obj_get_delete_eq.
Qed.

(** A sanitized meta-schema is a fixed point of the sanitizer. *)
Lemma clean_fixed (m m' : json) :
  cleanMetaSchemaForValidation m = Ok m' -> cleanMetaSchemaForValidation m' = Ok m'.
Proof.
  intros H. apply clean_Ok in H as (fs & ds & j & (-> & Hd & Hj & Hn) & ->).
  destruct (sanitized_sanitizable fs ds j Hd Hj Hn) as (fs' & E & Hs & Hid & Hsch).
  rewrite (clean_sanitizable _ _ _ _ Hs).
  f_equal. unfold sanitized at 1. rewrite without_twice.
  destruct Hs as (E' & Hd' & Hj' & _).
  rewrite obj_replace_replace.
  rewrite (obj_replace_same "definitions" _ fs') by exact Hd'.
  rewrite (obj_delete_absent "$schema" fs') by exact Hsch.
  rewrite (obj_delete_absent "$id" fs') by exact Hid.
  symmetry. exact E.
Qed.

Lemma field_without_ne (k f : string) (j : json) :
  k <> f -> field (without k j) f = field j f.
Proof.
  intros H. destruct j; try reflexivity. simpl. rewrite obj_get_delete_ne; auto.
Qed.

Lemma sanitized_definitions (fs ds : list (string * json)) (j : json) :
  obj_get "definitions" fs = Some (JObj ds) ->
  field (sanitized fs ds j) "definitions"
  = JObj (obj_replace "JSONSchema" (without "$schema" (without "$id" j)) ds).
Proof.
  intros Hd. unfold sanitized. simpl.
  rewrite !obj_get_delete_ne by discriminate.
  rewrite obj_get_replace_eq, Hd. reflexivity.
Qed.

(** What a completed run of the sanitizer leaves alone. *)
Lemma clean_frame (m m' : json) :
  cleanMetaSchemaForValidation m = Ok m' ->
  (forall k, k <> "$id" -> k <> "$schema" -> k <> "definitions" -> field m' k = field m k) /\
  (forall K, K <> "JSONSchema" ->
             field (field m' "definitions") K = field (field m "definitions") K) /\
  (forall f, f <> "$id" -> f <> "$schema" ->
             field (field (field m' "definitions") "JSONSchema") f
             = field (field (field m "definitions") "JSONSchema") f).
Proof.
  intros H. apply clean_Ok in H as (fs & ds & j & (-> & Hd & Hj & Hn) & ->).
  split; [|split].
  - intros k Hid Hsch Hdefs. unfold sanitized. simpl.
    rewrite !obj_get_delete_ne by congruence.
    rewrite obj_get_replace_ne by congruence. reflexivity.
  - intros K HK. rewrite (sanitized_definitions _ _ _ Hd). simpl. rewrite Hd. simpl.
    rewrite obj_get_replace_ne by congruence. reflexivity.
  - intros f Hid Hsch. rewrite (sanitized_definitions _ _ _ Hd). simpl. rewrite Hd. simpl.
    rewrite obj_get_replace_eq, Hj. simpl.
    rewrite !field_without_ne by congruence. reflexivity.
Qed.

(* ===================================================================== *)
(** * Extension injection *)
(* ===================================================================== *)

Lemma get_field_field (v : json) (k : string) (r : json) :
  get_field v k = Ok r -> r = field v k /\ nullish v = false.
Proof. destruct v; simpl; intros H; inversion H; auto. Qed.

Lemma get_field_nonnullish (v : json) (k : string) :
  nullish v = false -> get_field v k = Ok (field v k).
Proof. destruct v; simpl; intros H; congruence. Qed.

Lemma get_computed_Ok (v : json) (k : string) (r : json) :
  get_computed v k = Ok r ->
  exists fs, v = JObj fs /\ Object_prototype_member k = false /\ r = field v k.
Proof.
  destruct v; simpl; intros H; try discriminate.
  destruct (Object_prototype_member k); [discriminate|].
  inversion H. eauto.
Qed.

Lemma field_defined (v : json) (k : string) :
  field v k <> JUndef -> exists fs, v = JObj fs /\ obj_get k fs = Some (field v k).
Proof.
  destruct v; simpl; intros H; try congruence.
  exists fs. split; [reflexivity|].
  destruct (obj_get k fs); simpl in *; congruence.
Qed.

Lemma field_with_field_eq (o : json) (k : string) (v : json) :
  field o k <> JUndef -> field (with_field o k v) k = v.
Proof.
  intros H. destruct (field_defined _ _ H) as (fs & -> & E). simpl.
  rewrite obj_get_replace_eq, E. reflexivity.
Qed.

Lemma field_with_field_ne (o : json) (k k' : string) (v : json) :
  k <> k' -> field (with_field o k v) k' = field o k'.
Proof.
  intros H. destruct o; simpl; try reflexivity.
  rewrite obj_get_replace_ne; auto.
Qed.

(** What a completed run of the inner callback did. *)
Lemma restricted_callback_Ok (extension propKey schema defs k defs' : json) :
  restricted_callback extension propKey schema defs k = Ok defs' ->
  let key := to_string k in
  let d := field defs key in
  let d1 := if strict_eq_true (field extension "required")
            then with_field d "required" (pushed [propKey] (field d "required"))
            else d in
  exists ps,
    d <> JUndef /\
    (strict_eq_true (field extension "required") = true ->
     exists rs, field d "required" = JArr rs) /\
    field d1 "properties" = JObj ps /\
    defs' = with_field defs key
              (with_field d1 "properties" (JObj (obj_set (to_string propKey) schema ps))).
Proof.
  unfold restricted_callback. intros H. cbv zeta.
  apply bind_Ok_inv in H as (d & Hd & H).
  apply get_computed_Ok in Hd as (ds & -> & Hm & ->).
  set (d := field (JObj ds) (to_string k)) in *.
  destruct (is_undefined d) eqn:Eu; [discriminate|].
  assert (Hdu : d <> JUndef) by (intros E; rewrite E in Eu; discriminate).
  apply bind_Ok_inv in H as (req & Hreq & H).
  apply get_field_field in Hreq as [-> _].
  apply bind_Ok_inv in H as (d1 & Hd1 & H).
  apply bind_Ok_inv in H as (p & Hp & H).
  apply get_field_field in Hp as [-> Hn1].
  apply bind_Ok_inv in H as (p' & Hp' & H).
  inversion H; subst defs'; clear H.
  assert (Hps : exists ps, field d1 "properties" = JObj ps /\
                           p' = JObj (obj_set (to_string propKey) schema ps)).
  { destruct (field d1 "properties"); simpl in Hp'; try discriminate.
    destruct (String.eqb (to_string propKey) "__proto__"); [discriminate|].
    inversion Hp'. eauto. }
  destruct Hps as (ps & Eps & ->).
  destruct (strict_eq_true (field extension "required")) eqn:Ereq.
  - destruct d eqn:Ed; try congruence;
      try (simpl in Hd1; inversion Hd1; subst d1; simpl in Hn1; discriminate);
      try (simpl in Hd1; discriminate).
    rewrite <- Ed in *.
    apply bind_Ok_inv in Hd1 as (r & Hr & Hd1).
    apply get_field_field in Hr as [-> _].
    apply bind_Ok_inv in Hd1 as (r' & Hr' & Hd1).
    inversion Hd1; subst d1; clear Hd1.
    destruct (field d "required") eqn:Er; simpl in Hr'; try discriminate.
    inversion Hr'; subst r'. simpl in Eps |- *.
    exists ps. repeat split; eauto.
  - inversion Hd1; subst d1. exists ps. repeat split; auto. discriminate.
Qed.

Lemma pushed_nil (a : json) : pushed [] a = a.
Proof. destruct a; simpl; try reflexivity. rewrite app_nil_r. reflexivity. Qed.

Lemma pushed_app (xs ys : list json) (a : json) :
  pushed ys (pushed xs a) = pushed (xs ++ ys) a.
Proof. destruct a; simpl; try reflexivity. rewrite app_assoc. reflexivity. Qed.

Lemma names_spec (K : string) (k : json) : names K k = true <-> to_string k = K.
Proof. unfold names. apply String.eqb_eq. Qed.

(** One run of the inner callback, seen from definition [K]. *)
Lemma restricted_callback_other (extension propKey schema defs k defs' : json) (K : string) :
  restricted_callback extension propKey schema defs k = Ok defs' ->
  names K k = false -> field defs' K = field defs K.
Proof.
  intros H HK. apply restricted_callback_Ok in H as (ps & _ & _ & _ & ->).
  apply field_with_field_ne. intros E. apply names_spec in E. congruence.
Qed.

Lemma restricted_callback_required (extension propKey schema defs k defs' : json) (K : string) :
  restricted_callback extension propKey schema defs k = Ok defs' ->
  required_at K defs' =
    pushed (if strict_eq_true (field extension "required") && names K k
            then [propKey] else [])
           (required_at K defs).
Proof.
  intros H. unfold required_at.
  destruct (names K k) eqn:HK.
  2:{ rewrite (restricted_callback_other _ _ _ _ _ _ _ H HK).
      rewrite andb_false_r, pushed_nil. reflexivity. }
  apply names_spec in HK. subst K.
  apply restricted_callback_Ok in H as (ps & Hd & Hreq & Hps & ->).
  rewrite andb_true_r.
  rewrite field_with_field_eq by exact Hd.
  rewrite field_with_field_ne by discriminate.
  destruct (strict_eq_true (field extension "required")).
  - destruct (Hreq eq_refl) as (rs & Ers).
    rewrite field_with_field_eq by (rewrite Ers; discriminate).
    reflexivity.
  - rewrite pushed_nil. reflexivity.
Qed.

Lemma restricted_callback_property (extension propKey schema defs k defs' : json) (K p : string) :
  restricted_callback extension propKey schema defs k = Ok defs' ->
  property_at K p defs' =
    if names K k && String.eqb (to_string propKey) p then Some schema
    else property_at K p defs.
Proof.
  intros H. unfold property_at.
  destruct (names K k) eqn:HK.
  2:{ rewrite (restricted_callback_other _ _ _ _ _ _ _ H HK). reflexivity. }
  apply names_spec in HK. subst K.
  apply restricted_callback_Ok in H as (ps & Hd & Hreq & Hps & ->).
  rewrite field_with_field_eq by exact Hd.
  rewrite field_with_field_eq by (rewrite Hps; discriminate).
  assert (Hps0 : field (field defs (to_string k)) "properties" = JObj ps).
  { destruct (strict_eq_true (field extension "required")); [|exact Hps].
    rewrite field_with_field_ne in Hps by discriminate. exact Hps. }
  rewrite Hps0. simpl.
  destruct (String.eqb (to_string propKey) p) eqn:Ep.
  - apply String.eqb_eq in Ep. subst p. apply obj_get_set_eq.
  - apply String.eqb_neq in Ep. apply obj_get_set_ne. exact Ep.
Qed.

(** ** Loops *)

Lemma forEach_app {S : Type} (body : S -> json -> outcome S) (s : S) (xs ys : list json) :
  forEach body s (xs ++ ys) = (let* s' := forEach body s xs in forEach body s' ys).
Proof.
  revert s. induction xs as [|x xs IH]; intros s; simpl; [reflexivity|].
  destruct (body s x); simpl; auto.
Qed.

Lemma forEach_Ok_inv {S : Type} (body : S -> json -> outcome S) (s s' : S)
    (xs : list json) (x : json) (ys : list json) :
  forEach body s (xs ++ x :: ys) = Ok s' ->
  exists s1 s2, forEach body s xs = Ok s1 /\ body s1 x = Ok s2 /\ forEach body s2 ys = Ok s'.
Proof.
  rewrite forEach_app. intros H.
  apply bind_Ok_inv in H as (s1 & H1 & H). simpl in H.
  apply bind_Ok_inv in H as (s2 & H2 & H). eauto.
Qed.

(** A loop that completes kept every invariant its body keeps. *)
Lemma forEach_invariant {S : Type} (body : S -> json -> outcome S) (I : S -> Prop) :
  (forall s x s', I s -> body s x = Ok s' -> I s') ->
  forall xs s s', I s -> forEach body s xs = Ok s' -> I s'.
Proof.
  intros Hbody. induction xs as [|x xs IH]; intros s s' Hs H; simpl in H.
  - inversion H; subst; exact Hs.
  - apply bind_Ok_inv in H as (s1 & H1 & H). eauto.
Qed.

(** The inner loop of one declaration, seen from definition [K]. *)
Lemma restricted_loop_required (extension propKey schema : json) (K : string)
    (ks : list json) (defs defs' : json) :
  forEach (restricted_callback extension propKey schema) defs ks = Ok defs' ->
  required_at K defs' =
    pushed (if strict_eq_true (field extension "required")
            then map (fun _ => propKey) (List.filter (names K) ks) else [])
           (required_at K defs).
Proof.
  revert defs. induction ks as [|k ks IH]; intros defs H; simpl in H.
  - inversion H; subst. simpl. destruct (strict_eq_true _); apply eq_sym, pushed_nil.
  - apply bind_Ok_inv in H as (defs1 & H1 & H).
    rewrite (IH _ H), (restricted_callback_required _ _ _ _ _ _ K H1), pushed_app.
    f_equal. simpl.
    destruct (strict_eq_true (field extension "required")); simpl; [|reflexivity].
    destruct (names K k); reflexivity.
Qed.

Lemma restricted_loop_property (extension propKey schema : json) (K p : string)
    (ks : list json) (defs defs' : json) :
  forEach (restricted_callback extension propKey schema) defs ks = Ok defs' ->
  property_at K p defs' =
    if existsb (names K) ks && String.eqb (to_string propKey) p then Some schema
    else property_at K p defs.
Proof.
  revert defs. induction ks as [|k ks IH]; intros defs H; simpl in H.
  - inversion H; subst. reflexivity.
  - apply bind_Ok_inv in H as (defs1 & H1 & H).
    rewrite (IH _ H), (restricted_callback_property _ _ _ _ _ _ K p H1). simpl.
    destruct (names K k), (existsb (names K) ks), (String.eqb (to_string propKey) p);
      reflexivity.
Qed.

(** What a completed run of the outer callback read from its declaration. *)
Lemma extension_callback_Ok (defs extension defs' : json) :
  extension_callback defs extension = Ok defs' ->
  nullish extension = false /\
  exists ks, field extension "restricted" = JArr ks /\
    forEach (restricted_callback extension (field extension "name")
                                 (field extension "schema")) defs ks = Ok defs'.
Proof.
  unfold extension_callback. intros H.
  apply bind_Ok_inv in H as (n & Hn & H). apply get_field_field in Hn as [-> Hnn].
  apply bind_Ok_inv in H as (s & Hs & H). apply get_field_field in Hs as [-> _].
  apply bind_Ok_inv in H as (r & Hr & H). apply get_field_field in Hr as [-> _].
  apply bind_Ok_inv in H as (ks & Hks & H).
  split; [exact Hnn|]. exists ks. split; [|exact H].
  destruct (field extension "restricted"); simpl in Hks; inversion Hks. reflexivity.
Qed.

Lemma extension_callback_required (defs extension defs' : json) (K : string) :
  extension_callback defs extension = Ok defs' ->
  required_at K defs' = pushed (pushes K extension) (required_at K defs).
Proof.
  intros H. apply extension_callback_Ok in H as (_ & ks & Eks & H).
  rewrite (restricted_loop_required _ _ _ K _ _ _ H).
  unfold pushes, restricted_keys. rewrite Eks. reflexivity.
Qed.

Lemma extension_callback_property (defs extension defs' : json) (K p : string) :
  extension_callback defs extension = Ok defs' ->
  property_at K p defs' =
    if injects K p extension then Some (field extension "schema")
    else property_at K p defs.
Proof.
  intros H. apply extension_callback_Ok in H as (_ & ks & Eks & H).
  rewrite (restricted_loop_property _ _ _ K p _ _ _ H).
  unfold injects, restricted_keys. rewrite Eks. reflexivity.
Qed.

Lemma extensions_loop_required (K : string) (es : list json) (defs defs' : json) :
  forEach extension_callback defs es = Ok defs' ->
  required_at K defs' = pushed (flat_map (pushes K) es) (required_at K defs).
Proof.
  revert defs. induction es as [|e es IH]; intros defs H; simpl in H.
  - inversion H; subst. simpl. symmetry. apply pushed_nil.
  - apply bind_Ok_inv in H as (defs1 & H1 & H).
    rewrite (IH _ H), (extension_callback_required _ _ _ K H1), pushed_app.
    reflexivity.
Qed.

Lemma last_injected_from (K p : string) (es : list json) (acc : option json) :
  fold_left (fun acc e => if injects K p e then Some (field e "schema") else acc) es acc =
  match last_injected K p es with Some s => Some s | None => acc end.
Proof.
  unfold last_injected. revert acc.
  induction es as [|e es IH]; intros acc; simpl; [reflexivity|].
  rewrite IH, (IH (if injects K p e then _ else None)).
  destruct (fold_left _ es None); [reflexivity|].
  destruct (injects K p e); reflexivity.
Qed.

Lemma extensions_loop_property (K p : string) (es : list json) (defs defs' : json) :
  forEach extension_callback defs es = Ok defs' ->
  property_at K p defs' =
    match last_injected K p es with Some s => Some s | None => property_at K p defs end.
Proof.
  revert defs. induction es as [|e es IH]; intros defs H; simpl in H.
  - inversion H; subst. reflexivity.
  - apply bind_Ok_inv in H as (defs1 & H1 & H).
    rewrite (IH _ H), (extension_callback_property _ _ _ K p H1).
    unfold last_injected at 2. simpl. rewrite last_injected_from.
    destruct (last_injected K p es); [reflexivity|].
    destruct (injects K p e); reflexivity.
Qed.

(** ** The whole of [applyExtensionsToMetaSchema] *)

Lemma extension_callback_keeps_undefined (defs extension defs' : json) :
  defs = JUndef -> extension_callback defs extension = Ok defs' -> defs' = JUndef.
Proof.
  intros -> H. apply extension_callback_Ok in H as (_ & ks & _ & H).
  destruct ks as [|k ks]; simpl in H; [inversion H; reflexivity | discriminate].
Qed.

Lemma applyExtensions_Ok (base document ms' : json) :
  applyExtensionsToMetaSchema base document = Ok ms' ->
  nullish base = false /\ nullish document = false /\
  ((field document "x-extensions" = JUndef /\ ms' = base) \/
   (exists es,
      field document "x-extensions" = JArr es /\
      forEach extension_callback (field base "definitions") es
        = Ok (field ms' "definitions"))).
Proof.
  unfold applyExtensionsToMetaSchema. intros H.
  apply bind_Ok_inv in H as (defs & Hd & H). apply get_field_field in Hd as [-> Hb].
  apply bind_Ok_inv in H as (xs & Hx & H). apply get_field_field in Hx as [-> Hdoc].
  split; [exact Hb|]. split; [exact Hdoc|].
  destruct (field document "x-extensions") eqn:Ex; simpl in H; try discriminate.
  - left. inversion H. auto.
  - right. exists es. split; [reflexivity|].
    destruct (forEach extension_callback (field base "definitions") es) as [defs'| |] eqn:El;
      simpl in H; try discriminate.
    inversion H; subst ms'; clear H. f_equal.
    assert (Hu : field base "definitions" = JUndef -> defs' = JUndef).
    { intros E. rewrite E in El.
      eapply (forEach_invariant _ (fun s => s = JUndef)); [|reflexivity|exact El].
      intros; eapply extension_callback_keeps_undefined; eauto. }
    destruct base as [| | | | | |fs]; simpl in *; auto.
    rewrite obj_get_replace_eq.
    destruct (obj_get "definitions" fs) eqn:Ed; simpl in *; auto.
Qed.


Lemma pushed_JArr_inv (xs : list json) (a : json) (rs : list json) :
  pushed xs a = JArr rs -> exists rs0, a = JArr rs0 /\ rs = rs0 ++ xs.
Proof. destruct a; simpl; intros H; inversion H. eauto. Qed.

Lemma reaches_throw (base document E k defs : json) (e : thrown) :
  reaches base document E k defs ->
  restricted_callback E (field E "name") (field E "schema") defs k = Throw e ->
  applyExtensionsToMetaSchema base document = Throw e.
Proof.
  intros (pre & post & kpre & kpost & defs1 & Hb & Hx & Hpre & HE & Hr & Hk) Hc.
  unfold applyExtensionsToMetaSchema.
  rewrite (get_field_nonnullish _ _ Hb). simpl.
  assert (Hdoc : nullish document = false).
  { destruct document; simpl in *; try discriminate; reflexivity. }
  rewrite (get_field_nonnullish _ _ Hdoc), Hx. simpl.
  rewrite forEach_app, Hpre. simpl.
  unfold extension_callback at 1.
  rewrite !(get_field_nonnullish _ _ HE), Hr. simpl.
  rewrite forEach_app, Hk. simpl. rewrite Hc. reflexivity.
Qed.

Lemma validation_schema_throw
    (JSON_stringify : list ErrorObject -> string)
    (ajv_validate : json -> json -> outcome (option (list ErrorObject)))
    (base document : json) (e : thrown) :
  applyExtensionsToMetaSchema base document = Throw e ->
  validateOpenRPCDocument base JSON_stringify ajv_validate document = ([], Throw e).
Proof.
  intros H. unfold validateOpenRPCDocument, validation_schema. rewrite H. reflexivity.
Qed.

(** The absence of a definition survives every completed callback. *)
Lemma restricted_callback_keeps_absent (extension propKey schema defs k defs' : json)
    (K : string) :
  field defs K = JUndef ->
  restricted_callback extension propKey schema defs k = Ok defs' ->
  field defs' K = JUndef.
Proof.
  intros HK H. destruct (names K k) eqn:E.
  - apply names_spec in E. subst K.
    apply restricted_callback_Ok in H as (ps & Hd & _). contradiction.
  - rewrite (restricted_callback_other _ _ _ _ _ _ _ H E). exact HK.
Qed.

Lemma extension_callback_keeps_absent (defs extension defs' : json) (K : string) :
  field defs K = JUndef ->
  extension_callback defs extension = Ok defs' ->
  field defs' K = JUndef.
Proof.
  intros HK H. apply extension_callback_Ok in H as (_ & ks & _ & H).
  eapply (forEach_invariant _ (fun s => field s K = JUndef)); [|exact HK|exact H].
  intros s x s' Hs Hb. eapply restricted_callback_keeps_absent; eauto.
Qed.


(** ** Documents on which the injection runs to completion *)








Lemma last_injected_app (K p : string) (xs ys : list json) :
  last_injected K p (xs ++ ys) =
    match last_injected K p ys with Some s => Some s | None => last_injected K p xs end.
Proof.
  unfold last_injected at 1. rewrite fold_left_app.
  rewrite last_injected_from. reflexivity.
Qed.








(** C10.  When processing comes to a restricted entry [k] of a declaration
    [E] and [defs[k]] is defined, nothing but that is checked: if [E] is
    required and the definition has no [required] array, the push throws the
    runtime's [TypeError], not the [Error] of the key check; and if the
    definition has no [properties], the assignment throws [TypeError] as
    well.  [validateOpenRPCDocument] then throws that [TypeError] without
    having called the engine. *)
Theorem required_array_assumed
    (JSON_stringify : list ErrorObject -> string)
    (ajv_validate : json -> json -> outcome (option (list ErrorObject)))
    (base document E k defs d : json) :
  reaches base document E k defs ->
  get_computed defs (to_string k) = Ok d ->
  d <> JUndef ->
  (field E "required" = JBool true ->
   (forall rs, field d "required" <> JArr rs) ->
   applyExtensionsToMetaSchema base document = Throw TypeError /\
   validateOpenRPCDocument base JSON_stringify ajv_validate document = ([], Throw TypeError))
  /\
  (field d "properties" = JUndef ->
   (field E "required" = JBool true -> exists rs, field d "required" = JArr rs) ->
   applyExtensionsToMetaSchema base document = Throw TypeError /\
   validateOpenRPCDocument base JSON_stringify ajv_validate document = ([], Throw TypeError)).
Proof.
  intros Hreach Hget Hd.
  assert (HE : nullish E = false).
  { destruct Hreach as (? & ? & ? & ? & ? & _ & _ & _ & HE & _). exact HE. }
  assert (Hu : is_undefined d = false) by (destruct d; simpl; congruence).
  assert (Hfin : forall e,
             restricted_callback E (field E "name") (field E "schema") defs k = Throw e ->
             applyExtensionsToMetaSchema base document = Throw e /\
             validateOpenRPCDocument base JSON_stringify ajv_validate document
               = ([], Throw e)).
  { intros e Hc. pose proof (reaches_throw _ _ _ _ _ _ Hreach Hc) as Hrun.
    split; [exact Hrun | apply validation_schema_throw; exact Hrun]. }
  split.
  - intros Hreq Hnoarr. apply Hfin.
    unfold restricted_callback. rewrite Hget. simpl. rewrite Hu.
    rewrite (get_field_nonnullish _ _ HE), Hreq. simpl.
    destruct d; simpl; try reflexivity; try congruence.
    destruct (obj_get "required" fs) as [r|] eqn:Er; simpl; [|reflexivity].
    specialize (Hnoarr (match r with JArr rs => rs | _ => [] end)).
    simpl in Hnoarr. rewrite Er in Hnoarr. simpl in Hnoarr.
    destruct r; simpl; try reflexivity. congruence.
  - intros Hnoprop Hreq. apply Hfin.
    unfold restricted_callback. rewrite Hget. simpl. rewrite Hu.
    rewrite (get_field_nonnullish _ _ HE). simpl.
    destruct (strict_eq_true (field E "required")) eqn:Et.
    + assert (Hreq' : field E "required" = JBool true).
      { destruct (field E "required") as [| |[|]| | | |]; simpl in Et; congruence. }
      destruct (Hreq Hreq') as (rs & Ers).
      destruct d; simpl in Ers; try discriminate.
      simpl in *. rewrite Ers. simpl.
      rewrite obj_get_replace_ne by discriminate.
      rewrite Hnoprop. reflexivity.
    + simpl. destruct d; simpl in *; try reflexivity; try congruence.
      rewrite Hnoprop. reflexivity.
Qed.

(** C10, a run: a required declaration restricted to "JSONSchema", a
    definition of the sample meta-schema that has no [required]. *)
Lemma required_array_assumed_witness :
  let E := Sample.extension "x-bar" Sample.fragment ["JSONSchema"] true in
  applyExtensionsToMetaSchema Sample.metaSchema (Sample.document [E]) = Throw TypeError.
Proof.
  intros E.
  assert (Hreach : reaches Sample.metaSchema (Sample.document [E]) E (JStr "JSONSchema")
                     (field Sample.metaSchema "definitions")).
  { exists [], [], [], [], (field Sample.metaSchema "definitions").
    repeat split; reflexivity. }
  destruct (required_array_assumed Sample.JSON_stringify Sample.ajv_validate
              Sample.metaSchema (Sample.document [E]) E (JStr "JSONSchema")
              (field Sample.metaSchema "definitions")
              (field (field Sample.metaSchema "definitions") "JSONSchema")
              Hreach eq_refl) as [Hpush _].
  - vm_compute. discriminate.
  - apply Hpush; [reflexivity|].
    intros rs H. vm_compute in H. discriminate.
Defined.

(** C7.  Sanitizing twice is sanitizing once, whether the sanitizer completes
    or throws.  When it completes, [$id] and [$schema] are gone from the root
    and from [definitions.JSONSchema], and nothing else of [S] is: every other
    member of the root, every other definition and every other member of
    [definitions.JSONSchema] is as it was in [S]. *)
Theorem sanitize_idempotent (S : json) :
  (let* S1 := cleanMetaSchemaForValidation S in cleanMetaSchemaForValidation S1)
    = cleanMetaSchemaForValidation S
  /\
  (forall S',
      cleanMetaSchemaForValidation S = Ok S' ->
      get_field S' "$id" = Ok JUndef /\
      get_field S' "$schema" = Ok JUndef /\
      (exists defs j,
        get_field S' "definitions" = Ok defs /\
        get_field defs "JSONSchema" = Ok j /\
        get_field j "$id" = Ok JUndef /\
        get_field j "$schema" = Ok JUndef) /\
      (forall k, k <> "$id" -> k <> "$schema" -> k <> "definitions" ->
                 field S' k = field S k) /\
      (forall K, K <> "JSONSchema" ->
                 field (field S' "definitions") K = field (field S "definitions") K) /\
      (forall f, f <> "$id" -> f <> "$schema" ->
                 field (field (field S' "definitions") "JSONSchema") f
                 = field (field (field S "definitions") "JSONSchema") f)).
Proof.
  split.
  - destruct (cleanMetaSchemaForValidation S) as [S1| |] eqn:E; simpl; [|reflexivity..].
    apply clean_fixed in E. exact E.
  - intros S' H. pose proof (clean_frame _ _ H) as Hframe.
    apply clean_Ok in H as (fs & ds & j & (-> & Hd & Hj & Hn) & ->).
    destruct (sanitized_sanitizable fs ds j Hd Hj Hn)
      as (fs' & E & (_ & Hd' & Hj' & Hn') & Hid & Hsch).
    rewrite E in Hframe |- *. clear E.
    split; [simpl; rewrite Hid; reflexivity|].
    split; [simpl; rewrite Hsch; reflexivity|].
    split; [|exact Hframe].
    exists (JObj (obj_replace "JSONSchema" (without "$schema" (without "$id" j)) ds)),
           (without "$schema" (without "$id" j)).
    split; [simpl; rewrite Hd'; reflexivity|].
    split; [simpl; rewrite Hj'; reflexivity|].
    destruct j; simpl in *; try discriminate; try (split; reflexivity).
    rewrite obj_get_delete_ne by discriminate.
    rewrite !obj_get_delete_eq. split; reflexivity.
Qed.

(** C7, a run on the sample meta-schema: [$id] is gone, the title and the
    definition MethodObject are kept. *)
Lemma sanitize_idempotent_witness :
  exists S',
    cleanMetaSchemaForValidation Sample.metaSchema = Ok S' /\
    cleanMetaSchemaForValidation S' = Ok S' /\
    get_field S' "$id" = Ok JUndef /\
    field S' "title" = JStr "openrpcDocument" /\
    field (field S' "definitions") "MethodObject"
      = field (field Sample.metaSchema "definitions") "MethodObject".
Proof.
  destruct (sanitize_idempotent Sample.metaSchema) as [Hidem Hgone].
  eexists. split; [reflexivity|]. split; [exact Hidem|].
  destruct (Hgone _ eq_refl) as (Hid & _ & _ & Htop & Hdef & _).
  split; [exact Hid|]. split.
  - apply (Htop "title"); discriminate.
  - apply (Hdef "MethodObject"). discriminate.
Defined.

(* ===================================================================== *)
(** * Validation and the pipeline *)
(* ===================================================================== *)

Lemma io_bind_not_Ok {A B : Type} (m : io A) (f : A -> io B) :
  (forall a, snd m <> Ok a) -> fst (io_bind m f) = fst m /\ forall b, snd (io_bind m f) <> Ok b.
Proof.
  destruct m as [l [a|e|]]; simpl; intros H.
  - exfalso. exact (H a eq_refl).
  - split; [reflexivity | discriminate].
  - split; [reflexivity | discriminate].
Qed.

Section PipelineFacts.
Variable base : json.
Variable JSON_stringify : list ErrorObject -> string.
Variable ajv_validate : json -> json -> outcome (option (list ErrorObject)).
Variable JSON_parse : string -> option json.
Variable isUrl : string -> bool.
Variable fetchUrlSchemaFile : string -> outcome json.
Variable pathExists : string -> bool.
Variable readSchemaFromFile : string -> outcome json.
Variable dereference : json -> string + json.

Let validate := validateOpenRPCDocument base JSON_stringify ajv_validate.
Let acquired := acquire JSON_parse isUrl fetchUrlSchemaFile pathExists readSchemaFromFile.
Let parse :=
  parseOpenRPCDocument base JSON_stringify ajv_validate JSON_parse isUrl
    fetchUrlSchemaFile pathExists readSchemaFromFile dereference.

Lemma validate_run (document schema : json) :
  validation_schema base document = Ok schema ->
  validate document =
    ([CallAjvValidate schema document],
     let* errors := ajv_validate schema document in
     Ok (match errors with
         | Some errs => Invalid (new_OpenRPCDocumentValidationError JSON_stringify errs)
         | None => Valid
         end)).
Proof.
  intros H. unfold validate, validateOpenRPCDocument. rewrite H. simpl.
  destruct (ajv_validate schema document) as [[errs|]| |]; reflexivity.
Qed.

Lemma validate_no_schema (document : json) :
  (forall schema, validation_schema base document <> Ok schema) ->
  fst (validate document) = [] /\ forall r, snd (validate document) <> Ok r.
Proof.
  intros H. unfold validate, validateOpenRPCDocument.
  destruct (validation_schema base document) as [s| |] eqn:E; simpl.
  - exfalso. exact (H s eq_refl).
  - split; [reflexivity | discriminate].
  - split; [reflexivity | discriminate].
Qed.

Lemma validate_calls (document : json) (c : call) :
  In c (fst (validate document)) -> exists schema, c = CallAjvValidate schema document.
Proof.
  destruct (validation_schema base document) as [s| |] eqn:E.
  - rewrite (validate_run _ _ E). simpl. intros [<-|[]]. eauto.
  - unfold validate, validateOpenRPCDocument. rewrite E. simpl. intros [].
  - unfold validate, validateOpenRPCDocument. rewrite E. simpl. intros [].
Qed.

Lemma acquire_calls (schema : json) (c : call) :
  In c (fst (acquired schema)) ->
  exists s, c = CallFetchUrl s \/ c = CallPathExists s \/ c = CallReadFile s.
Proof.
  unfold acquired, acquire.
  destruct schema; simpl; try (intros []).
  - destruct (isJson JSON_parse "./openrpc.json").
    + destruct (JSON_parse "./openrpc.json"); simpl; intros [].
    + destruct (isUrl "./openrpc.json"); simpl.
      * intros [<-|[]]; eauto.
      * destruct (readSchemaFromFile "./openrpc.json"); simpl;
          intros [<-|[<-|[]]]; eauto.
  - destruct (isJson JSON_parse s).
    + destruct (JSON_parse s); simpl; intros [].
    + destruct (isUrl s); simpl.
      * intros [<-|[]]; eauto.
      * destruct (readSchemaFromFile s); simpl; intros [<-|[<-|[]]]; eauto.
Qed.

Lemma parse_run (schema : json) (log : list call) (d : json) :
  acquired schema = (log, Ok d) ->
  parse schema =
    (log ++ fst (validate d) ++
       match snd (validate d) with Ok Valid => [CallDereference d] | _ => [] end,
     match snd (validate d) with
     | Ok Valid =>
         match dereference d with
         | inr resolved => Ok resolved
         | inl e_message =>
             Throw (DereferencingError
               ("The json schema provided cannot be dereferenced. Received Error: "
                +:+ nl +:+ " " +:+ e_message))
         end
     | Ok (Invalid e) => Throw (ValidationError e)
     | Throw e => Throw e
     | Unmodelled => Unmodelled
     end).
Proof.
  intros H. unfold parse, parseOpenRPCDocument. fold acquired. rewrite H.
  fold validate. simpl.
  destruct (validate d) as [l [[|e]|e|]]; simpl; rewrite ?app_nil_r; try reflexivity.
  destruct (dereference d); reflexivity.
Qed.

Lemma parse_not_acquired (schema : json) :
  (forall d, snd (acquired schema) <> Ok d) ->
  fst (parse schema) = fst (acquired schema) /\ forall r, snd (parse schema) <> Ok r.
Proof.
  intros H. unfold parse, parseOpenRPCDocument. fold acquired.
  apply io_bind_not_Ok. exact H.
Qed.

(** C4.  For every document, [validateOpenRPCDocument] returns [true]
    exactly when the engine, run on the sanitized augmented schema and the
    document, leaves [ajv.errors] at [null]; it returns an
    [OpenRPCDocumentValidationError] exactly when the engine reports
    violations, and the message of that error is the two heading lines
    followed by the serialization of the whole list of violations, in the
    engine's order.  The engine is called once, with that schema and that
    document. *)
Theorem validation_reflects_engine (document : json) :
  (snd (validate document) = Ok Valid <->
   exists schema,
     validation_schema base document = Ok schema /\
     ajv_validate schema document = Ok None) /\
  (forall e,
      snd (validate document) = Ok (Invalid e) <->
      exists schema errs,
        validation_schema base document = Ok schema /\
        ajv_validate schema document = Ok (Some errs) /\
        e = {| name := "OpenRPCDocumentDereferencingError";
               message :=
                 "Error validating OpenRPC Document against @open-rpc/meta-schema."
                 +:+ nl +:+ "The errors found are as follows:"
                 +:+ nl +:+ JSON_stringify errs |}) /\
  (forall schema,
      validation_schema base document = Ok schema ->
      fst (validate document) = [CallAjvValidate schema document]).
Proof.
  destruct (validation_schema base document) as [schema|e0|] eqn:Hs.
  - rewrite (validate_run _ _ Hs). simpl. split; [|split].
    + split.
      * intros H. exists schema. split; [reflexivity|].
        destruct (ajv_validate schema document) as [[errs|]| |]; simpl in H;
          try discriminate; reflexivity.
      * intros (schema' & E & H). inversion E; subst schema'. rewrite H. reflexivity.
    + intros e. split.
      * intros H. exists schema.
        destruct (ajv_validate schema document) as [[errs|]| |]; simpl in H;
          try discriminate.
        exists errs. split; [reflexivity|]. split; [reflexivity|].
        inversion H. reflexivity.
      * intros (schema' & errs & E & H & ->). inversion E; subst schema'.
        rewrite H. reflexivity.
    + intros schema' E. inversion E. reflexivity.
  - destruct (validate_no_schema document) as [_ Hno]; [rewrite Hs; discriminate|].
    split; [|split].
    + split; [intros H; exfalso; exact (Hno _ H) | intros (s' & E & _); discriminate].
    + intros e. split;
        [intros H; exfalso; exact (Hno _ H) | intros (s' & errs & E & _); discriminate].
    + intros s' E. discriminate.
  - destruct (validate_no_schema document) as [_ Hno]; [rewrite Hs; discriminate|].
    split; [|split].
    + split; [intros H; exfalso; exact (Hno _ H) | intros (s' & E & _); discriminate].
    + intros e. split;
        [intros H; exfalso; exact (Hno _ H) | intros (s' & errs & E & _); discriminate].
    + intros s' E. discriminate.
Qed.

(** C3.  When the acquired document does not pass validation,
    [parseOpenRPCDocument] rejects with the validation error and
    [refParser.dereference] is not called; and a call of
    [refParser.dereference] is always on the acquired document and after
    [validateOpenRPCDocument] has returned [true] for it. *)
Theorem validation_gate (schema : json) :
  (forall log d e,
      acquired schema = (log, Ok d) ->
      snd (validate d) = Ok (Invalid e) ->
      parse schema = (log ++ fst (validate d), Throw (ValidationError e)) /\
      forall d', ~ In (CallDereference d') (fst (parse schema)))
  /\
  (forall d',
      In (CallDereference d') (fst (parse schema)) ->
      exists log, acquired schema = (log, Ok d') /\ snd (validate d') = Ok Valid).
Proof.
  assert (Hno : forall l d d', l = fst (acquired schema) \/ l = fst (validate d) ->
                               ~ In (CallDereference d') l).
  { intros l d d' [-> | ->] Hin.
    - apply acquire_calls in Hin as (s & [E | [E | E]]); discriminate.
    - apply validate_calls in Hin as (s & E). discriminate. }
  split.
  - intros log d e Hacq Hval.
    pose proof (parse_run schema log d Hacq) as Hrun.
    fold parse validate in Hrun. rewrite Hval, app_nil_r in Hrun.
    split; [exact Hrun|].
    intros d' Hin. rewrite Hrun in Hin. simpl in Hin.
    apply in_app_or in Hin as [Hin | Hin].
    + apply (Hno log d d'); [left; rewrite ?Hacq; reflexivity | exact Hin].
    + apply (Hno (fst (validate d)) d d'); [right; reflexivity | exact Hin].
  - intros d' Hin.
    destruct (acquired schema) as [log [d| |]] eqn:Hacq.
    + pose proof (parse_run schema log d Hacq) as Hrun.
      fold parse validate in Hrun. rewrite Hrun in Hin. simpl in Hin.
      apply in_app_or in Hin as [Hin | Hin].
      { exfalso. apply (Hno log d d'); [left; rewrite ?Hacq; reflexivity | exact Hin]. }
      apply in_app_or in Hin as [Hin | Hin].
      { exfalso. apply (Hno (fst (validate d)) d d'); [right; reflexivity | exact Hin]. }
      destruct (snd (validate d)) as [[|e]| |] eqn:Hv; simpl in Hin; try contradiction.
      destruct Hin as [E | []]. inversion E; subst d'. exists log. auto.
    + exfalso.
      destruct (parse_not_acquired schema)
        as [Hlog _].
      { fold acquired. rewrite Hacq. discriminate. }
      fold parse acquired in Hlog. rewrite Hlog, Hacq in Hin.
      apply (Hno log JUndef d'); [left; rewrite ?Hacq; reflexivity | exact Hin].
    + exfalso.
      destruct (parse_not_acquired schema)
        as [Hlog _].
      { fold acquired. rewrite Hacq. discriminate. }
      fold parse acquired in Hlog. rewrite Hlog, Hacq in Hin.
      apply (Hno log JUndef d'); [left; rewrite ?Hacq; reflexivity | exact Hin].
Qed.

(** C5.  How [parseOpenRPCDocument] comes by the document: an argument that
    is not a string is the document; a string that [JSON.parse] accepts is
    parsed; any other string that [isUrl] accepts goes to
    [fetchUrlSchemaFile]; every other string goes to [pathExists] and then to
    [readSchemaFromFile]; and an argument left out stands for
    "./openrpc.json".  The answer of the collaborator, a document or a
    rejection, is passed on as it is. *)
Theorem acquisition_precedence :
  (forall v, v <> JUndef -> (forall s, v <> JStr s) -> acquired v = ([], Ok v)) /\
  (forall s d, JSON_parse s = Some d -> acquired (JStr s) = ([], Ok d)) /\
  (forall s, JSON_parse s = None -> isUrl s = true ->
             acquired (JStr s) = ([CallFetchUrl s], fetchUrlSchemaFile s)) /\
  (forall s, JSON_parse s = None -> isUrl s = false ->
             acquired (JStr s) = ([CallPathExists s; CallReadFile s], readSchemaFromFile s)) /\
  acquired JUndef = acquired (JStr "./openrpc.json") /\
  parse JUndef = parse (JStr "./openrpc.json").
Proof.
  unfold acquired, acquire, isJson. repeat split.
  - intros v Hu Hs. destruct v; try reflexivity; [congruence | exfalso; eapply Hs; eauto].
  - intros s d ->. reflexivity.
  - intros s -> ->. reflexivity.
  - intros s -> ->. simpl. destruct (readSchemaFromFile s); reflexivity.
Qed.

(** C6.  When the acquired document passes validation,
    [parseOpenRPCDocument] calls [refParser.dereference] on it; if that
    fails, the promise is rejected with an
    [OpenRPCDocumentDereferencingError] whose message ends with the message of
    the failure; if it succeeds, the resolved document is the result. *)
Theorem dereferencing_outcome (schema : json) (log : list call) (d : json) :
  acquired schema = (log, Ok d) ->
  snd (validate d) = Ok Valid ->
  fst (parse schema) = log ++ fst (validate d) ++ [CallDereference d] /\
  (forall e_message,
      dereference d = inl e_message ->
      snd (parse schema) =
        Throw (DereferencingError
                 ("The json schema provided cannot be dereferenced. Received Error: "
                  +:+ nl +:+ " " +:+ e_message))) /\
  (forall resolved,
      dereference d = inr resolved -> snd (parse schema) = Ok resolved).
Proof.
  intros Hacq Hval.
  pose proof (parse_run schema log d Hacq) as Hrun.
  fold parse validate in Hrun. rewrite Hval in Hrun. rewrite Hrun. simpl.
  split; [reflexivity|]. split.
  - intros m ->. reflexivity.
  - intros r ->. reflexivity.
Qed.

End PipelineFacts.

(** C4, a run: the empty document lacks [info]. *)
Lemma validation_reflects_engine_witness :
  exists e,
    snd (validateOpenRPCDocument Sample.metaSchema Sample.JSON_stringify
           Sample.ajv_validate (JObj [])) = Ok (Invalid e) /\
    message e =
      "Error validating OpenRPC Document against @open-rpc/meta-schema." +:+ nl +:+
      "The errors found are as follows:" +:+ nl +:+
      Sample.JSON_stringify [Sample.missing_info].
Proof.
  destruct (validation_reflects_engine Sample.metaSchema Sample.JSON_stringify
              Sample.ajv_validate (JObj [])) as (_ & H & _).
  eexists. split.
  - apply H. eexists _, [Sample.missing_info].
    split; [reflexivity|]. split; reflexivity.
  - reflexivity.
Defined.

(** C3, a run: the empty document is rejected and nothing is dereferenced. *)
Lemma validation_gate_witness :
  parseOpenRPCDocument Sample.metaSchema Sample.JSON_stringify
    Sample.ajv_validate Sample.JSON_parse Sample.isUrl
    Sample.fetchUrlSchemaFile Sample.pathExists Sample.readSchemaFromFile
    Sample.dereference (JObj [])
  = ([] ++ fst (validateOpenRPCDocument Sample.metaSchema Sample.JSON_stringify
                  Sample.ajv_validate (JObj [])),
     Throw (ValidationError
              (new_OpenRPCDocumentValidationError Sample.JSON_stringify
                 [Sample.missing_info])))
  /\
  forall d',
    ~ In (CallDereference d')
         (fst (parseOpenRPCDocument Sample.metaSchema Sample.JSON_stringify
                 Sample.ajv_validate Sample.JSON_parse Sample.isUrl
                 Sample.fetchUrlSchemaFile Sample.pathExists Sample.readSchemaFromFile
                 Sample.dereference (JObj []))).
Proof.
  destruct (validation_gate Sample.metaSchema Sample.JSON_stringify
              Sample.ajv_validate Sample.JSON_parse Sample.isUrl
              Sample.fetchUrlSchemaFile Sample.pathExists Sample.readSchemaFromFile
              Sample.dereference (JObj [])) as [H _].
  apply (H [] (JObj []) (new_OpenRPCDocumentValidationError Sample.JSON_stringify
                           [Sample.missing_info])); reflexivity.
Defined.

(** C5, a run: with no argument the file "./openrpc.json" is read. *)
Lemma acquisition_precedence_witness :
  acquire Sample.JSON_parse Sample.isUrl Sample.fetchUrlSchemaFile Sample.pathExists
          Sample.readSchemaFromFile JUndef
  = ([CallPathExists "./openrpc.json"; CallReadFile "./openrpc.json"],
     Sample.readSchemaFromFile "./openrpc.json").
Proof.
  destruct (acquisition_precedence Sample.metaSchema Sample.JSON_stringify
              Sample.ajv_validate Sample.JSON_parse Sample.isUrl
              Sample.fetchUrlSchemaFile Sample.pathExists Sample.readSchemaFromFile
              Sample.dereference) as (_ & _ & _ & Hfile & Hdefault & _).
  rewrite Hdefault. apply Hfile; reflexivity.
Defined.

(** C6, a run: a valid document whose [$ref] cannot be resolved. *)
Lemma dereferencing_outcome_witness :
  let d := JObj [("info", JObj []); ("$ref", JStr "#/nowhere")] in
  snd (parseOpenRPCDocument Sample.metaSchema Sample.JSON_stringify
         Sample.ajv_validate Sample.JSON_parse Sample.isUrl
         Sample.fetchUrlSchemaFile Sample.pathExists Sample.readSchemaFromFile
         Sample.dereference d)
  = Throw (DereferencingError
             ("The json schema provided cannot be dereferenced. Received Error: "
              +:+ nl +:+ " " +:+ "Error resolving $ref pointer")).
Proof.
  intros d.
  destruct (dereferencing_outcome Sample.metaSchema Sample.JSON_stringify
              Sample.ajv_validate Sample.JSON_parse Sample.isUrl
              Sample.fetchUrlSchemaFile Sample.pathExists Sample.readSchemaFromFile
              Sample.dereference d [] d eq_refl eq_refl) as (_ & Hfail & _).
  apply Hfail. reflexivity.
Defined.

(** C9, at the empty document: the error [validateOpenRPCDocument] returns
    for a document that fails validation carries the name
    "OpenRPCDocumentDereferencingError". *)
Theorem validation_error_name :
  exists log e,
    validateOpenRPCDocument Sample.metaSchema Sample.JSON_stringify
      Sample.ajv_validate (JObj []) = (log, Ok (Invalid e)) /\
    name e = "OpenRPCDocumentDereferencingError" /\
    name e <> "OpenRPCDocumentValidationError".
Proof.
  eexists _, _. split; [reflexivity|]. split; [reflexivity|discriminate].
Qed.

(* ===================================================================== *)
(** * What a call writes to *)
(* ===================================================================== *)

Module StoreFacts.
Import Store.
Local Open Scope store_scope.

Lemma alloc_tree_JArr (es : list json) (h : heap) :
  alloc_tree (JArr es) h =
    let (h1, vs) := alloc_list es h in (h1 ++ [CArr vs], VRef (length h1)).
Proof. reflexivity. Qed.

Lemma alloc_tree_JObj (fs : list (string * json)) (h : heap) :
  alloc_tree (JObj fs) h =
    let (h1, vs) := alloc_fields fs h in (h1 ++ [CObj vs], VRef (length h1)).
Proof. reflexivity. Qed.

(** Induction on JSON text, with the hypothesis for every element and for
    every property value. *)
Lemma json_nested_ind (P : json -> Prop) :
  P JUndef -> P JNull -> (forall b, P (JBool b)) -> (forall r, P (JNum r)) ->
  (forall s, P (JStr s)) ->
  (forall es, Forall P es -> P (JArr es)) ->
  (forall fs, Forall (fun kv => P (snd kv)) fs -> P (JObj fs)) ->
  forall t, P t.
Proof.
  intros Hu Hn Hb Hr Hs Ha Ho. fix IH 1.
  intros [| |b|r|s|es|fs]; [exact Hu | exact Hn | apply Hb | apply Hr | apply Hs | | ].
  - apply Ha. induction es as [|x es IHes]; constructor; [apply IH | exact IHes].
  - apply Ho. induction fs as [|[k x] fs IHfs]; constructor; [apply IH | exact IHfs].
Qed.

(** ** Allocation lays out a forest *)

Lemma alloc_ok_none (h : heap) (vs : list value) :
  (forall r, ~ In (VRef r) vs) -> alloc_ok h h vs.
Proof.
  intros Hvs. split; [exists []; rewrite app_nil_r; reflexivity|].
  split; [|split].
  - intros l c x Hl Hc. apply lookup_lt_Some in Hc. lia.
  - intros l l' c c' x Hl _ Hc. apply lookup_lt_Some in Hc. lia.
  - intros r Hr. exfalso. exact (Hvs r Hr).
Qed.

Lemma alloc_ok_seq (h h1 h2 : heap) (rs1 rs2 : list value) :
  alloc_ok h h1 rs1 -> alloc_ok h1 h2 rs2 -> alloc_ok h h2 (rs1 ++ rs2).
Proof.
  intros ((e1 & ->) & Hc1 & Hd1 & Hr1) ((e2 & ->) & Hc2 & Hd2 & Hr2).
  assert (Hold : forall l c, l < length (h ++ e1) ->
                   ((h ++ e1) ++ e2) !! l = Some c -> (h ++ e1) !! l = Some c).
  { intros l c Hl Hc. rewrite lookup_app_l in Hc by exact Hl. exact Hc. }
  assert (Hlen : length h <= length (h ++ e1)) by (rewrite length_app; lia).
  split; [exists (e1 ++ e2); rewrite app_assoc; reflexivity|].
  split; [|split].
  - intros l c x Hl Hc Hx.
    destruct (Nat.lt_ge_cases l (length (h ++ e1))) as [Hlt|Hge].
    + eapply Hc1; eauto.
    + destruct (Hc2 l c x Hge Hc Hx). lia.
  - intros l l' c c' x Hl Hl' Hc Hc' Hx Hx'.
    destruct (Nat.lt_ge_cases l (length (h ++ e1))) as [Hlt|Hge];
      destruct (Nat.lt_ge_cases l' (length (h ++ e1))) as [Hlt'|Hge'].
    + eapply Hd1; eauto.
    + destruct (Hc1 l c x Hl (Hold _ _ Hlt Hc) Hx).
      destruct (Hc2 l' c' x Hge' Hc' Hx'). lia.
    + destruct (Hc1 l' c' x Hl' (Hold _ _ Hlt' Hc') Hx').
      destruct (Hc2 l c x Hge Hc Hx). lia.
    + eapply Hd2; eauto.
  - intros r Hr. apply in_app_or in Hr as [Hr|Hr].
    + destruct (Hr1 r Hr) as (Ha & Hb & Hn).
      split; [exact Ha|]. split; [rewrite length_app; lia|].
      intros l c Hl Hc Hx.
      destruct (Nat.lt_ge_cases l (length (h ++ e1))) as [Hlt|Hge].
      * eapply Hn; eauto.
      * destruct (Hc2 l c r Hge Hc Hx). lia.
    + destruct (Hr2 r Hr) as (Ha & Hb & Hn).
      split; [lia|]. split; [exact Hb|].
      intros l c Hl Hc Hx.
      destruct (Nat.lt_ge_cases l (length (h ++ e1))) as [Hlt|Hge].
      * destruct (Hc1 l c r Hl (Hold _ _ Hlt Hc) Hx). lia.
      * eapply Hn; eauto.
Qed.

Lemma alloc_ok_cell (h h1 : heap) (rs : list value) (c : cell) :
  alloc_ok h h1 rs ->
  (forall x, In (VRef x) (cell_values c) -> In (VRef x) rs) ->
  alloc_ok h (h1 ++ [c]) [VRef (length h1)].
Proof.
  intros ((e1 & ->) & Hc1 & Hd1 & Hr1) Hsub.
  assert (Hlen : length h <= length (h ++ e1)) by (rewrite length_app; lia).
  assert (Hcases : forall l c0, ((h ++ e1) ++ [c]) !! l = Some c0 ->
             (l < length (h ++ e1) /\ (h ++ e1) !! l = Some c0) \/
             (l = length (h ++ e1) /\ c0 = c)).
  { intros l c0 Hc. destruct (Nat.lt_ge_cases l (length (h ++ e1))) as [Hlt|Hge].
    - left. rewrite lookup_app_l in Hc by exact Hlt. auto.
    - right. pose proof (lookup_lt_Some _ _ _ Hc) as Hb.
      rewrite length_app in Hb. simpl in Hb.
      assert (l = length (h ++ e1)) by lia. subst l.
      rewrite list_lookup_middle in Hc by reflexivity. inversion Hc. auto. }
  assert (Hc' : forall l c0 x, length h <= l -> ((h ++ e1) ++ [c]) !! l = Some c0 ->
                  In (VRef x) (cell_values c0) -> length h <= x /\ x < l).
  { intros l c0 x Hl Hc Hx. destruct (Hcases _ _ Hc) as [[Hlt Hc0]|[-> ->]].
    - eapply Hc1; eauto.
    - destruct (Hr1 x (Hsub x Hx)) as (Ha & Hb & _). lia. }
  split; [exists (e1 ++ [c]); rewrite app_assoc; reflexivity|].
  split; [exact Hc'|]. split.
  - intros l l' c0 c0' x Hl Hl' Hc Hc0' Hx Hx'.
    destruct (Hcases _ _ Hc) as [[Hlt Hc0]|[-> ->]];
      destruct (Hcases _ _ Hc0') as [[Hlt' Hc00]|[-> ->]].
    + eapply Hd1; eauto.
    + exfalso. destruct (Hr1 x (Hsub x Hx')) as (_ & _ & Hn).
      exact (Hn l c0 Hl Hc0 Hx).
    + exfalso. destruct (Hr1 x (Hsub x Hx)) as (_ & _ & Hn).
      exact (Hn l' c0' Hl' Hc00 Hx').
    + reflexivity.
  - intros r [Hr|[]]. inversion Hr; subst r.
    split; [exact Hlen|]. split; [rewrite (length_app (h ++ e1)); simpl; lia|].
    intros l c0 Hl Hc Hx.
    destruct (Hc' l c0 _ Hl Hc Hx) as [_ Hlt].
    apply lookup_lt_Some in Hc. rewrite length_app in Hc. simpl in Hc. lia.
Qed.

Lemma alloc_list_ok (es : list json) :
  Forall (fun t => forall h h' v, alloc_tree t h = (h', v) -> alloc_ok h h' [v]) es ->
  forall h h' vs, alloc_list es h = (h', vs) -> alloc_ok h h' vs.
Proof.
  induction 1 as [|x es Hx _ IH]; intros h h' vs H; simpl in H.
  - inversion H; subst. apply alloc_ok_none. intros r [].
  - destruct (alloc_tree x h) as [h1 v] eqn:E1.
    destruct (alloc_list es h1) as [h2 vs'] eqn:E2.
    inversion H; subst. change (v :: vs') with ([v] ++ vs').
    eapply alloc_ok_seq; eauto.
Qed.

Lemma alloc_fields_ok (fs : list (string * json)) :
  Forall (fun kv => forall h h' v, alloc_tree (snd kv) h = (h', v) -> alloc_ok h h' [v]) fs ->
  forall h h' vs, alloc_fields fs h = (h', vs) -> alloc_ok h h' (map snd vs).
Proof.
  induction 1 as [|[k x] fs Hx _ IH]; intros h h' vs H; simpl in H.
  - inversion H; subst. apply alloc_ok_none. intros r [].
  - destruct (alloc_tree x h) as [h1 v] eqn:E1.
    destruct (alloc_fields fs h1) as [h2 vs'] eqn:E2.
    inversion H; subst. simpl. change (v :: map snd vs') with ([v] ++ map snd vs').
    eapply alloc_ok_seq; eauto.
Qed.

Lemma alloc_tree_ok (t : json) (h h' : heap) (v : value) :
  alloc_tree t h = (h', v) -> alloc_ok h h' [v].
Proof.
  revert h h' v. induction t using json_nested_ind; intros h h' v E;
    try (simpl in E; inversion E; subst; apply alloc_ok_none;
         intros l [Hl|[]]; discriminate).
  - rewrite alloc_tree_JArr in E.
    destruct (alloc_list es h) as [h1 vs] eqn:El. inversion E; subst.
    eapply alloc_ok_cell; [eapply alloc_list_ok; eauto|]. auto.
  - rewrite alloc_tree_JObj in E.
    destruct (alloc_fields fs h) as [h1 vs] eqn:El. inversion E; subst.
    eapply alloc_ok_cell; [eapply alloc_fields_ok; eauto|]. auto.
Qed.

(** ** A new object graph spells out the text it was built from *)

Lemma alloc_list_readback (es : list json) :
  Forall (fun t => forall h h' v, alloc_tree t h = (h', v) ->
                   forall fuel ext, json_height t <= fuel ->
                                    readback fuel (h' ++ ext) v = t) es ->
  forall h h' vs, alloc_list es h = (h', vs) ->
  forall fuel ext, list_max (map json_height es) <= fuel ->
                   map (readback fuel (h' ++ ext)) vs = es.
Proof.
  induction 1 as [|x es Hx _ IH]; intros h h' vs H fuel ext Hf; simpl in H.
  - inversion H; subst. reflexivity.
  - destruct (alloc_tree x h) as [h1 v] eqn:E1.
    destruct (alloc_list es h1) as [h2 vs'] eqn:E2.
    inversion H; subst. simpl.
    assert (Hf' : json_height x <= fuel /\ list_max (map json_height es) <= fuel).
    { change (list_max (json_height x :: map json_height es) <= fuel) in Hf.
      apply list_max_le in Hf. inversion Hf; subst. split; [assumption|].
      apply list_max_le. assumption. }
    destruct Hf' as [Hfx Hfes].
    destruct (alloc_list_ok es) with (h := h1) (h' := h') (vs := vs')
      as ((e2 & ->) & _); [|exact E2|].
    { apply Forall_forall. intros t _ h0 h0' v0. apply alloc_tree_ok. }
    f_equal.
    + rewrite <- app_assoc. eapply Hx; eauto.
    + eapply IH; eauto.
Qed.

Lemma alloc_fields_readback (fs : list (string * json)) :
  Forall (fun kv => forall h h' v, alloc_tree (snd kv) h = (h', v) ->
                    forall fuel ext, json_height (snd kv) <= fuel ->
                                     readback fuel (h' ++ ext) v = snd kv) fs ->
  forall h h' vs, alloc_fields fs h = (h', vs) ->
  forall fuel ext, list_max (map (fun kv => json_height (snd kv)) fs) <= fuel ->
                   map (fun kv => (fst kv, readback fuel (h' ++ ext) (snd kv))) vs = fs.
Proof.
  induction 1 as [|[k x] fs Hx _ IH]; intros h h' vs H fuel ext Hf; simpl in H.
  - inversion H; subst. reflexivity.
  - destruct (alloc_tree x h) as [h1 v] eqn:E1.
    destruct (alloc_fields fs h1) as [h2 vs'] eqn:E2.
    inversion H; subst. simpl.
    assert (Hf' : json_height x <= fuel /\
                  list_max (map (fun kv => json_height (snd kv)) fs) <= fuel).
    { change (list_max (json_height x :: map (fun kv => json_height (snd kv)) fs) <= fuel)
        in Hf.
      apply list_max_le in Hf. inversion Hf; subst. split; [assumption|].
      apply list_max_le. assumption. }
    destruct Hf' as [Hfx Hffs].
    destruct (alloc_fields_ok fs) with (h := h1) (h' := h') (vs := vs')
      as ((e2 & ->) & _); [|exact E2|].
    { apply Forall_forall. intros t _ h0 h0' v0. apply alloc_tree_ok. }
    f_equal.
    + f_equal. rewrite <- app_assoc. eapply (Hx h h1 v); eauto.
    + eapply IH; eauto.
Qed.

Lemma alloc_tree_readback (t : json) (h h' : heap) (v : value) :
  alloc_tree t h = (h', v) ->
  forall fuel ext, json_height t <= fuel -> readback fuel (h' ++ ext) v = t.
Proof.
  revert h h' v. induction t using json_nested_ind; intros h h' v E fuel ext Hf;
    try (simpl in E; inversion E; subst; destruct fuel; reflexivity).
  - rewrite alloc_tree_JArr in E.
    destruct (alloc_list es h) as [h1 vs] eqn:El. inversion E; subst.
    simpl in Hf. destruct fuel as [|fuel]; [lia|]. simpl.
    rewrite <- app_assoc. simpl. rewrite list_lookup_middle by reflexivity.
    f_equal. eapply alloc_list_readback; eauto. lia.
  - rewrite alloc_tree_JObj in E.
    destruct (alloc_fields fs h) as [h1 vs] eqn:El. inversion E; subst.
    simpl in Hf. destruct fuel as [|fuel]; [lia|]. simpl.
    rewrite <- app_assoc. simpl. rewrite list_lookup_middle by reflexivity.
    f_equal. eapply alloc_fields_readback; eauto. lia.
Qed.

(** ** Steps that keep an invariant *)

Lemma triple_ret {A : Type} (I : heap -> Prop) (a : A) (Q : A -> Prop) :
  Q a -> triple I (ret a) Q.
Proof. intros HQ h h' r HI E. inversion E; subst. split; [exact HI|]. intros a' Ea. congruence. Qed.

Lemma triple_throw {A : Type} (I : heap -> Prop) (e : thrown) (Q : A -> Prop) :
  triple I (throw e) Q.
Proof. intros h h' r HI E. inversion E; subst. split; [exact HI|]. discriminate. Qed.

Lemma triple_bind {A B : Type} (I : heap -> Prop) (m : M A) (f : A -> M B)
    (Q : A -> Prop) (Q' : B -> Prop) :
  triple I m Q -> (forall a, Q a -> triple I (f a) Q') -> triple I (mbind m f) Q'.
Proof.
  intros Hm Hf h h' r HI E. unfold mbind in E.
  destruct (m h) as [h1 [a|e|]] eqn:Em.
  - destruct (Hm _ _ _ HI Em) as [HI1 HQ]. eapply Hf; eauto.
  - inversion E; subst. destruct (Hm _ _ _ HI Em) as [HI1 _].
    split; [exact HI1 | discriminate].
  - inversion E; subst. destruct (Hm _ _ _ HI Em) as [HI1 _].
    split; [exact HI1 | discriminate].
Qed.

Lemma triple_if {A : Type} (I : heap -> Prop) (b : bool) (m1 m2 : M A) (Q : A -> Prop) :
  triple I m1 Q -> triple I m2 Q -> triple I (if b then m1 else m2) Q.
Proof. destruct b; auto. Qed.

(** Reads leave the store as it is. *)
Lemma get_field_pure (v : value) (k : string) (h : heap) : fst (get_field v k h) = h.
Proof.
  unfold get_field. destruct v; try reflexivity.
  destruct (h !! l) as [[fs|es]|]; reflexivity.
Qed.

Lemma get_computed_pure (v : value) (k : string) (h : heap) : fst (get_computed v k h) = h.
Proof.
  unfold get_computed. destruct v; try reflexivity.
  destruct (h !! l) as [[fs|es]|]; try reflexivity.
  destruct (Object_prototype_member k); reflexivity.
Qed.

Lemma triple_pure {A : Type} (I : heap -> Prop) (m : M A) :
  (forall h, fst (m h) = h) -> triple I m (fun _ => True).
Proof.
  intros Hp h h' r HI E. pose proof (Hp h) as Hh. rewrite E in Hh. simpl in Hh.
  subst h'. auto.
Qed.

Lemma triple_to_string (I : heap -> Prop) (v : value) :
  triple I (to_string v) (fun _ => True).
Proof. apply triple_pure. reflexivity. Qed.

Lemma triple_forEach_from (I : heap -> Prop) (body : value -> M unit) (l : loc) :
  (forall x, triple I (body x) (fun _ => True)) ->
  forall count i, triple I (forEach_from body l i count) (fun _ => True).
Proof.
  intros Hbody. induction count as [|count IH]; intros i; simpl.
  - apply triple_ret. exact Logic.I.
  - intros h h' r HI E. cbv beta in E.
    destruct (h !! l) as [[fs|es]|] eqn:El.
    + eapply (IH (S i)); eauto.
    + destruct (es !! i) as [x|].
      * eapply (triple_bind I (body x) (fun _ => forEach_from body l (S i) count)
                  (fun _ => True) (fun _ => True)); eauto.
      * eapply (IH (S i)); eauto.
    + eapply (IH (S i)); eauto.
Qed.

Lemma triple_forEach (I : heap -> Prop) (a : value) (body : value -> M unit) :
  (forall x, triple I (body x) (fun _ => True)) ->
  triple I (forEach a body) (fun _ => True).
Proof.
  intros Hbody h h' r HI E. unfold forEach in E.
  destruct a; try (inversion E; subst; split; [exact HI | discriminate]).
  destruct (h !! l) as [[fs|es]|];
    try (inversion E; subst; split; [exact HI | discriminate]).
  eapply triple_forEach_from; eauto.
Qed.

Lemma obj_get_In {V : Type} (k : string) (fs : list (string * V)) (v : V) :
  obj_get k fs = Some v -> In v (map snd fs).
Proof.
  induction fs as [|[k' v'] fs IH]; simpl; [discriminate|].
  destruct (String.eqb k k'); intros H; [inversion H; auto | auto].
Qed.

(** ** The working copy, layer by layer *)

Section Frame.
Variables (h0 h1 : heap) (root : value).
Hypothesis Halloc : alloc_ok h0 h1 [root].

Lemma at_depth_range (k : nat) (l : loc) :
  at_depth h1 root k l -> length h0 <= l /\ l < length h1.
Proof.
  destruct Halloc as (_ & Hc & _ & Hr).
  revert l. induction k as [|k IH]; simpl; intros l H.
  - destruct (Hr l) as (Ha & Hb & _); [left; auto|]. auto.
  - destruct H as (p & Hp & c & Hpc & Hin).
    destruct (IH _ Hp) as [Hp0 Hp1].
    destruct (Hc _ _ _ Hp0 Hpc Hin). lia.
Qed.

Lemma at_depth_unique (i j : nat) (l : loc) :
  at_depth h1 root i l -> at_depth h1 root j l -> i = j.
Proof.
  destruct Halloc as (_ & Hc & Hd & Hr).
  assert (Hroot : forall k l, root = VRef l -> ~ at_depth h1 root (S k) l).
  { intros k l0 E (p & Hp & c & Hpc & Hin).
    destruct (Hr l0) as (_ & _ & Hn); [left; auto|].
    apply (Hn p c); auto. apply (at_depth_range _ _ Hp). }
  revert j l. induction i as [|i IH]; intros [|j] l Hi Hj; try reflexivity.
  - exfalso. eapply Hroot; eauto.
  - exfalso. eapply Hroot; eauto.
  - f_equal. simpl in Hi, Hj.
    destruct Hi as (p & Hp & c & Hpc & Hin). destruct Hj as (p' & Hp' & c' & Hpc' & Hin').
    assert (p = p').
    { eapply Hd; eauto; [apply (at_depth_range _ _ Hp) | apply (at_depth_range _ _ Hp')]. }
    subst p'. eapply IH; eauto.
Qed.

Let n0 := length h0.

Lemma kept_start (D : nat) : kept n0 h1 root D h1.
Proof. split; auto. Qed.

Lemma kept_mono (D D' : nat) (h : heap) :
  D' <= D -> kept n0 h1 root D h -> kept n0 h1 root D' h.
Proof.
  intros Hle [Hlen Hk]. split; [exact Hlen|].
  intros l [Hl|(k & Hk' & Hd)]; apply Hk; [left; auto | right; exists k; split; [lia|auto]].
Qed.

(** A write at depth [D] leaves everything less deep, and everything old, as
    it was. *)
Lemma kept_write (D : nat) (h : heap) (l : loc) (c : cell) :
  kept n0 h1 root D h -> at_depth h1 root D l -> kept n0 h1 root D (<[l := c]> h).
Proof.
  intros [Hlen Hk] Hl. split; [rewrite length_insert; exact Hlen|].
  intros l' Hl'. rewrite list_lookup_insert_ne; [apply Hk; exact Hl'|].
  intros ->. destruct Hl' as [Hlt|(k & Hk' & Hd)].
  - destruct (at_depth_range _ _ Hl). unfold n0 in Hlt. lia.
  - pose proof (at_depth_unique _ _ _ Hl Hd). lia.
Qed.

Lemma kept_read (D k : nat) (h : heap) (l : loc) :
  kept n0 h1 root D h -> k < D -> at_depth h1 root k l -> h !! l = h1 !! l.
Proof. intros [_ Hk] Hlt Hd. apply Hk. right. eauto. Qed.

Lemma triple_get_field (D k : nat) (v : value) (key : string) :
  k < D -> deep h1 root k v ->
  triple (kept n0 h1 root D) (get_field v key) (deep h1 root (S k)).
Proof.
  intros Hlt Hv h h' r HI E.
  pose proof (get_field_pure v key h) as Hp. rewrite E in Hp. simpl in Hp. subst h'.
  split; [exact HI|]. intros a ->. intros l' ->.
  unfold get_field in E. destruct v; try (inversion E; fail).
  pose proof (kept_read _ _ _ _ HI Hlt (Hv l eq_refl)) as Hread.
  destruct (h !! l) as [[fs|es]|] eqn:Ec; inversion E as [E'].
  destruct (obj_get key fs) as [x|] eqn:Eg; simpl in E'; [|discriminate]. subst x.
  simpl. exists l. split; [apply Hv; reflexivity|].
  exists (CObj fs). split; [congruence|]. simpl. eapply obj_get_In; eauto.
Qed.

Lemma triple_get_computed (D k : nat) (v : value) (key : string) :
  k < D -> deep h1 root k v ->
  triple (kept n0 h1 root D) (get_computed v key) (deep h1 root (S k)).
Proof.
  intros Hlt Hv h h' r HI E.
  pose proof (get_computed_pure v key h) as Hp. rewrite E in Hp. simpl in Hp. subst h'.
  split; [exact HI|]. intros a ->. intros l' ->.
  unfold get_computed in E. destruct v; try (inversion E; fail).
  pose proof (kept_read _ _ _ _ HI Hlt (Hv l eq_refl)) as Hread.
  destruct (h !! l) as [[fs|es]|] eqn:Ec; try (inversion E; fail).
  destruct (Object_prototype_member key); inversion E as [E'].
  destruct (obj_get key fs) as [x|] eqn:Eg; simpl in E'; [|discriminate]. subst x.
  simpl. exists l. split; [apply Hv; reflexivity|].
  exists (CObj fs). split; [congruence|]. simpl. eapply obj_get_In; eauto.
Qed.

Lemma triple_push (D : nat) (a x : value) :
  deep h1 root D a -> triple (kept n0 h1 root D) (push a x) (fun _ => True).
Proof.
  intros Ha h h' r HI E. unfold push in E.
  destruct a; try (inversion E; subst; auto; fail).
  destruct (h !! l) as [[fs|es]|]; inversion E; subst; auto.
  split; [|auto]. apply kept_write; auto.
Qed.

Lemma triple_assign_computed (D : nat) (o : value) (k : string) (v : value) :
  deep h1 root D o -> triple (kept n0 h1 root D) (assign_computed o k v) (fun _ => True).
Proof.
  intros Ho h h' r HI E. unfold assign_computed in E.
  destruct o; try (inversion E; subst; auto; fail).
  destruct (h !! l) as [[fs|es]|]; try (inversion E; subst; auto; fail).
  destruct (String.eqb k "__proto__"); inversion E; subst; auto.
  split; [|auto]. apply kept_write; auto.
Qed.

Lemma triple_delete_field (D : nat) (o : value) (k : string) :
  deep h1 root D o -> triple (kept n0 h1 root D) (delete_field o k) (fun _ => True).
Proof.
  intros Ho h h' r HI E. unfold delete_field in E.
  destruct o; try (inversion E; subst; auto; fail).
  destruct (h !! l) as [[fs|es]|]; inversion E; subst; auto.
  split; [|auto]. apply kept_write; auto.
Qed.

(** The inner callback writes to [required] and [properties] of a
    definition: three references away from the working copy. *)
Lemma triple_restricted_callback (defs extension propKey schema metaSchemaKey : value) :
  deep h1 root 1 defs ->
  triple (kept n0 h1 root 3)
         (restricted_callback defs extension propKey schema metaSchemaKey)
         (fun _ => True).
Proof.
  intros Hdefs. unfold restricted_callback.
  eapply triple_bind; [apply triple_to_string|]. intros key _.
  eapply triple_bind; [apply (triple_get_computed 3 1); [lia|exact Hdefs]|].
  intros d Hd. apply triple_if.
  - eapply triple_bind; [apply triple_to_string|]. intros k _.
    eapply triple_bind; [apply triple_to_string|]. intros p _.
    apply triple_throw.
  - eapply triple_bind; [apply triple_pure; apply get_field_pure|]. intros required _.
    eapply (triple_bind _ _ _ (fun _ => True)).
    + apply triple_if; [|apply triple_ret; exact Logic.I].
      eapply triple_bind; [apply triple_to_string|]. intros key' _.
      eapply triple_bind; [apply (triple_get_computed 3 1); [lia|exact Hdefs]|].
      intros d' Hd'. apply triple_if; [apply triple_ret; exact Logic.I|].
      eapply triple_bind; [apply (triple_get_field 3 2); [lia|exact Hd']|].
      intros r Hr. apply triple_push. exact Hr.
    + intros _ _.
      eapply triple_bind; [apply triple_to_string|]. intros key' _.
      eapply triple_bind; [apply (triple_get_computed 3 1); [lia|exact Hdefs]|].
      intros d' Hd'.
      eapply triple_bind; [apply (triple_get_field 3 2); [lia|exact Hd']|].
      intros p Hp.
      eapply triple_bind; [apply triple_to_string|]. intros pk _.
      apply triple_assign_computed. exact Hp.
Qed.

Lemma triple_extension_callback (defs extension : value) :
  deep h1 root 1 defs ->
  triple (kept n0 h1 root 3) (extension_callback defs extension) (fun _ => True).
Proof.
  intros Hdefs. unfold extension_callback.
  eapply triple_bind; [apply triple_pure; apply get_field_pure|]. intros propKey _.
  eapply triple_bind; [apply triple_pure; apply get_field_pure|]. intros schema _.
  eapply triple_bind; [apply triple_pure; apply get_field_pure|]. intros restricted _.
  apply triple_forEach. intros x. apply triple_restricted_callback. exact Hdefs.
Qed.

Lemma deep_root : deep h1 root 0 root.
Proof. intros l E. exact E. Qed.

(** [applyExtensionsToMetaSchema] from the point where it holds its working
    copy. *)
Lemma triple_injection (document : value) :
  triple (kept n0 h1 root 3)
    (let* defs := get_field root "definitions" in
     let* xs := get_field document "x-extensions" in
     if is_undefined xs then ret root
     else
       let* _ := forEach xs (extension_callback defs) in
       ret root)
    (fun ms => ms = root).
Proof.
  eapply triple_bind; [apply (triple_get_field 3 0); [lia|apply deep_root]|].
  intros defs Hdefs.
  eapply triple_bind; [apply triple_pure; apply get_field_pure|]. intros xs _.
  apply triple_if; [apply triple_ret; reflexivity|].
  eapply triple_bind;
    [apply triple_forEach; intros x; apply triple_extension_callback; exact Hdefs|].
  intros _ _. apply triple_ret. reflexivity.
Qed.

Lemma triple_delete_in_JSONSchema (k : string) :
  triple (kept n0 h1 root 2) (delete_in_JSONSchema root k) (fun _ => True).
Proof.
  unfold delete_in_JSONSchema.
  eapply triple_bind; [apply (triple_get_field 2 0); [lia|apply deep_root]|].
  intros defs Hdefs.
  eapply triple_bind; [apply (triple_get_field 2 1); [lia|exact Hdefs]|].
  intros j Hj. apply triple_delete_field. exact Hj.
Qed.

End Frame.

Lemma hoare_bind {A B : Type} (P P1 P' : heap -> Prop) (m : M A) (f : A -> M B)
    (Q : A -> Prop) (Q' : B -> Prop) :
  hoare P m P1 Q -> (forall h, P1 h -> P' h) ->
  (forall a, Q a -> hoare P1 (f a) P' Q') ->
  hoare P (mbind m f) P' Q'.
Proof.
  intros Hm Hw Hf h h' r HP E. unfold mbind in E.
  destruct (m h) as [h2 [a|e|]] eqn:Em.
  - destruct (Hm _ _ _ HP Em) as [HP1 HQ]. eapply Hf; eauto.
  - inversion E; subst. destruct (Hm _ _ _ HP Em) as [HP1 _].
    split; [auto | discriminate].
  - inversion E; subst. destruct (Hm _ _ _ HP Em) as [HP1 _].
    split; [auto | discriminate].
Qed.

Section Calls.
Variable metaSchema : json.
Variable ajv_validate : heap -> value -> value -> outcome (option (list ErrorObject)).
Variable JSON_stringify : list ErrorObject -> string.

(** A call of [applyExtensionsToMetaSchema] allocates its working copy and
    then writes three references away from it, nowhere else. *)
Lemma store_applyExtensions_run (document : value) (h h' : heap) (r : outcome value) :
  applyExtensionsToMetaSchema metaSchema document h = (h', r) ->
  exists h1 root,
    alloc_tree metaSchema h = (h1, root) /\
    kept (length h) h1 root 3 h' /\
    forall ms, r = Ok ms -> ms = root.
Proof.
  intros E. unfold applyExtensionsToMetaSchema, getMetaSchemaWithExtensionSchema in E.
  unfold mbind at 1 in E.
  destruct (alloc_tree metaSchema h) as [h1 root] eqn:Ea.
  exists h1, root. split; [reflexivity|].
  pose proof (alloc_tree_ok _ _ _ _ Ea) as Hok.
  exact (triple_injection h h1 root Hok document h1 h' r (kept_start h h1 root 3) E).
Qed.

(** And a call of [validateOpenRPCDocument] then writes to the working copy
    and to its [definitions.JSONSchema]. *)
Lemma store_validate_run (document : value) (h h' : heap) (r : outcome validation_result) :
  validateOpenRPCDocument metaSchema ajv_validate JSON_stringify document h = (h', r) ->
  exists h1 root,
    alloc_tree metaSchema h = (h1, root) /\ kept (length h) h1 root 0 h'.
Proof.
  intros E. unfold validateOpenRPCDocument in E. unfold mbind at 1 in E.
  destruct (applyExtensionsToMetaSchema metaSchema document h) as [h2 r2] eqn:Ea.
  apply store_applyExtensions_run in Ea as (h1 & root & Hal & Hk & Hms).
  exists h1, root. split; [exact Hal|].
  pose proof (alloc_tree_ok _ _ _ _ Hal) as Hok.
  destruct r2 as [ms| |];
    try (inversion E; subst; eapply kept_mono; [|exact Hk]; lia).
  rewrite (Hms ms eq_refl) in E. clear Hms ms.
  apply (kept_mono h h1 root 3 2) in Hk; [|lia].
  assert (H0 : forall (h3 : heap),
             kept (length h) h1 root 2 h3 -> kept (length h) h1 root 0 h3).
  { intros h3 H3. eapply kept_mono; [|exact H3]. lia. }
  assert (Hroot : triple (kept (length h) h1 root 0)
            (let* _ := delete_field root "$schema" in
             let* _ := delete_field root "$id" in
             let* errors := (fun h => (h, ajv_validate h root document)) in
             match errors with
             | Some errs => ret (Invalid (new_OpenRPCDocumentValidationError JSON_stringify errs))
             | None => ret Valid
             end)
            (fun _ => True)).
  { eapply triple_bind;
      [apply (triple_delete_field h h1 root Hok); apply deep_root|]. intros _ _.
    eapply triple_bind;
      [apply (triple_delete_field h h1 root Hok); apply deep_root|]. intros _ _.
    eapply triple_bind; [apply triple_pure; reflexivity|]. intros errors _.
    destruct errors; apply triple_ret; exact Logic.I. }
  assert (Hrest : hoare (kept (length h) h1 root 2)
            (let* _ := delete_in_JSONSchema root "$id" in
             let* _ := delete_in_JSONSchema root "$schema" in
             let* _ := delete_field root "$schema" in
             let* _ := delete_field root "$id" in
             let* errors := (fun h => (h, ajv_validate h root document)) in
             match errors with
             | Some errs => ret (Invalid (new_OpenRPCDocumentValidationError JSON_stringify errs))
             | None => ret Valid
             end)
            (kept (length h) h1 root 0) (fun _ => True)).
  { eapply hoare_bind;
      [apply (triple_delete_in_JSONSchema h h1 root Hok) | exact H0 |].
    intros _ _.
    eapply hoare_bind;
      [apply (triple_delete_in_JSONSchema h h1 root Hok) | exact H0 |].
    intros _ _ h3 h4 r4 H3 E4. exact (Hroot h3 h4 r4 (H0 h3 H3) E4). }
  exact (proj1 (Hrest h2 h' r Hk E)).
Qed.

End Calls.

End StoreFacts.

(** The two embeddings of [applyExtensionsToMetaSchema] agree on the sample
    documents: one that is augmented, one that stops at the [TypeError] of a
    missing [required], one that stops at the unknown key. *)
Example store_agrees_on_injection :
  Store.observe 8
    (Store.on_document (Sample.document [Sample.x_foo])
       (Store.applyExtensionsToMetaSchema Sample.metaSchema))
  = applyExtensionsToMetaSchema Sample.metaSchema (Sample.document [Sample.x_foo]).
Proof. vm_compute. reflexivity. Qed.

Example store_agrees_on_type_error :
  let document :=
    Sample.document [Sample.extension "x-bar" Sample.fragment ["JSONSchema"] true] in
  Store.observe 8
    (Store.on_document document (Store.applyExtensionsToMetaSchema Sample.metaSchema))
  = applyExtensionsToMetaSchema Sample.metaSchema document.
Proof. vm_compute. reflexivity. Qed.

Example store_agrees_on_unknown_key :
  let document :=
    Sample.document [Sample.extension "x-foo" Sample.fragment ["NoSuchDef"] false] in
  Store.observe 8
    (Store.on_document document (Store.applyExtensionsToMetaSchema Sample.metaSchema))
  = applyExtensionsToMetaSchema Sample.metaSchema document.
Proof. vm_compute. reflexivity. Qed.

(** C8.  With [getMetaSchemaWithExtensionSchema] building a new object graph
    at each call, a call of [validateOpenRPCDocument], whether it returns or
    throws, leaves every object that existed before it as it was: the
    document, the shared base meta-schema, the working copies of other
    calls.  The augmented schema of the call is an object that did not exist
    before it, building it wrote to no earlier object either, and the working
    copy it starts from spells out the base meta-schema whatever the store
    held. *)
Theorem validation_writes_nothing_shared (metaSchema : json)
    (ajv_validate : Store.heap -> Store.value -> Store.value
                    -> outcome (option (list ErrorObject)))
    (JSON_stringify : list ErrorObject -> string)
    (document : Store.value) (h h' : Store.heap) (r : outcome validation_result) :
  Store.validateOpenRPCDocument metaSchema ajv_validate JSON_stringify document h = (h', r) ->
  (forall l c, h !! l = Some c -> h' !! l = Some c) /\
  (forall h2 r2,
      Store.applyExtensionsToMetaSchema metaSchema document h = (h2, r2) ->
      (forall l c, h !! l = Some c -> h2 !! l = Some c) /\
      (forall l, r2 = Ok (Store.VRef l) -> length h <= l /\ l < length h2)) /\
  (forall h1 root,
      Store.getMetaSchemaWithExtensionSchema metaSchema h = (h1, Ok root) ->
      Store.readback (Store.json_height metaSchema) h1 root = metaSchema).
Proof.
  assert (Hold : forall h1 root D h3,
             Store.alloc_ok h h1 [root] -> Store.kept (length h) h1 root D h3 ->
             forall l c, h !! l = Some c -> h3 !! l = Some c).
  { intros h1 root D h3 ((ext & ->) & _) [_ Hk] l c Hc.
    pose proof (lookup_lt_Some _ _ _ Hc) as Hlt.
    rewrite Hk by (left; exact Hlt). rewrite lookup_app_l by exact Hlt. exact Hc. }
  intros E. split; [|split].
  - apply StoreFacts.store_validate_run in E as (h1 & root & Hal & Hk).
    eapply Hold; [eapply StoreFacts.alloc_tree_ok; eauto | exact Hk].
  - intros h2 r2 Ea.
    apply StoreFacts.store_applyExtensions_run in Ea as (h1 & root & Hal & Hk & Hms).
    pose proof (StoreFacts.alloc_tree_ok _ _ _ _ Hal) as Hok. split.
    + eapply Hold; eauto.
    + intros l ->. rewrite <- (Hms _ eq_refl) in Hok.
      destruct Hok as (_ & _ & _ & Hr).
      destruct (Hr l) as (Ha & Hb & _); [left; reflexivity|].
      destruct Hk as [Hlen _]. rewrite Hlen. auto.
  - intros h1 root Hg. unfold Store.getMetaSchemaWithExtensionSchema in Hg.
    destruct (Store.alloc_tree metaSchema h) as [h1' root'] eqn:Hal.
    inversion Hg; subst h1' root'.
    rewrite <- (app_nil_r h1).
    eapply StoreFacts.alloc_tree_readback; [exact Hal | apply Nat.le_refl].
Qed.

(** C8, a run: the document with the declaration "x-foo" is laid out in an
    empty store and validated there. *)
Lemma validation_writes_nothing_shared_witness :
  let h := fst (Store.alloc_tree (Sample.document [Sample.x_foo]) []) in
  let document := snd (Store.alloc_tree (Sample.document [Sample.x_foo]) []) in
  let run := Store.validateOpenRPCDocument Sample.metaSchema Sample.store_ajv_validate
               Sample.JSON_stringify document h in
  snd run = Ok Valid /\ forall l c, h !! l = Some c -> fst run !! l = Some c.
Proof.
  intros h document run. split; [vm_compute; reflexivity|].
  apply (validation_writes_nothing_shared Sample.metaSchema Sample.store_ajv_validate
           Sample.JSON_stringify document h (fst run) (snd run)).
  apply surjective_pairing.
Defined.

(* ===================================================================== *)
(** * Further properties of the injection *)
(* ===================================================================== *)

Lemma obj_replace_absent {V : Type} (k : string) (v : V) (fs : list (string * V)) :
  obj_get k fs = None -> obj_replace k v fs = fs.
Proof.
  induction fs as [|[k' v'] fs IH]; simpl; [reflexivity|].
  destruct (String.eqb k k') eqn:E; intros H; [discriminate|].
  rewrite IH; auto.
Qed.

Lemma with_field_same (o : json) (k : string) : with_field o k (field o k) = o.
Proof.
  destruct o; try reflexivity. simpl.
  destruct (obj_get k fs) as [v|] eqn:E; simpl.
  - rewrite obj_replace_same; auto.
  - rewrite obj_replace_absent; auto.
Qed.

Lemma idle_nonnullish (e : json) : idle e = true -> nullish e = false.
Proof. destruct e; simpl; intros H; try discriminate; reflexivity. Qed.

Lemma idle_restricted (e : json) : idle e = true -> field e "restricted" = JArr [].
Proof.
  unfold idle. destruct (field e "restricted") as [| | | | |[|x es]|]; intros H;
    try discriminate; reflexivity.
Qed.

Lemma extensions_loop_idle (es : list json) (defs : json) :
  forallb idle es = true -> forEach extension_callback defs es = Ok defs.
Proof.
  induction es as [|e es IH]; simpl; [reflexivity|].
  intros H. apply andb_true_iff in H as [He Hes].
  unfold extension_callback at 1.
  rewrite !(get_field_nonnullish _ _ (idle_nonnullish _ He)), (idle_restricted _ He).
  simpl. exact (IH Hes).
Qed.

(** A document that declares nothing, or only declarations that restrict
    nothing, gets the base meta-schema back. *)
Lemma idle_run (base document : json) :
  nullish base = false -> nullish document = false ->
  field document "x-extensions" = JUndef \/
    (exists es, field document "x-extensions" = JArr es /\ forallb idle es = true) ->
  applyExtensionsToMetaSchema base document = Ok base.
Proof.
  intros Hb Hd H. unfold applyExtensionsToMetaSchema.
  rewrite (get_field_nonnullish _ _ Hb), (get_field_nonnullish _ _ Hd). simpl.
  destruct H as [-> | (es & -> & Hes)]; simpl; [reflexivity|].
  rewrite (extensions_loop_idle _ _ Hes). simpl. rewrite with_field_same. reflexivity.
Qed.

(** X1.  When the document has no [x-extensions], or an [x-extensions] array
    whose declarations all have an empty [restricted] array (the empty array
    of declarations among them), [applyExtensionsToMetaSchema] returns the
    base meta-schema as it is, and the schema [validateOpenRPCDocument] hands
    to the engine is the sanitized base. *)
Theorem nothing_restricted_identity (base document : json) :
  nullish base = false -> nullish document = false ->
  field document "x-extensions" = JUndef \/
    (exists es, field document "x-extensions" = JArr es /\ forallb idle es = true) ->
  applyExtensionsToMetaSchema base document = Ok base /\
  validation_schema base document = cleanMetaSchemaForValidation base.
Proof.
  intros Hb Hd H. pose proof (idle_run base document Hb Hd H) as Hrun.
  split; [exact Hrun|]. unfold validation_schema. rewrite Hrun. reflexivity.
Qed.

(** X1, two runs on the sample meta-schema: a document without
    [x-extensions], and one whose only declaration restricts nothing. *)
Lemma nothing_restricted_identity_witness :
  applyExtensionsToMetaSchema Sample.metaSchema (JObj []) = Ok Sample.metaSchema /\
  applyExtensionsToMetaSchema Sample.metaSchema
    (Sample.document [Sample.extension "x-foo" Sample.fragment [] true])
  = Ok Sample.metaSchema.
Proof.
  split.
  - apply (nothing_restricted_identity Sample.metaSchema (JObj []) eq_refl eq_refl).
    left. reflexivity.
  - apply (nothing_restricted_identity Sample.metaSchema
             (Sample.document [Sample.extension "x-foo" Sample.fragment [] true])
             eq_refl eq_refl).
    right. eexists. split; reflexivity.
Defined.

(** The loop that [applyExtensionsToMetaSchema] ran, when it returns. *)
Lemma applyExtensions_loop (base document ms' : json) :
  applyExtensionsToMetaSchema base document = Ok ms' ->
  forEach extension_callback (field base "definitions") (declarations document)
    = Ok (field ms' "definitions").
Proof.
  intros H. unfold declarations.
  apply applyExtensions_Ok in H as (_ & _ & [[-> ->] | (es & -> & Hl)]).
  - reflexivity.
  - exact Hl.
Qed.

Lemma applyExtensions_shape (base document ms' : json) :
  applyExtensionsToMetaSchema base document = Ok ms' ->
  ms' = base \/ exists defs', ms' = with_field base "definitions" defs'.
Proof.
  unfold applyExtensionsToMetaSchema. intros H.
  apply bind_Ok_inv in H as (defs & _ & H).
  apply bind_Ok_inv in H as (xs & _ & H).
  destruct (is_undefined xs); [inversion H; auto|].
  apply bind_Ok_inv in H as (es & _ & H).
  apply bind_Ok_inv in H as (defs' & _ & H).
  inversion H. eauto.
Qed.

Lemma restricted_callback_field (extension propKey schema defs k defs' : json)
    (K f : string) :
  restricted_callback extension propKey schema defs k = Ok defs' ->
  f <> "required" -> f <> "properties" ->
  field (field defs' K) f = field (field defs K) f.
Proof.
  intros H Hr Hp. destruct (names K k) eqn:HK.
  2:{ rewrite (restricted_callback_other _ _ _ _ _ _ _ H HK). reflexivity. }
  apply names_spec in HK. subst K.
  apply restricted_callback_Ok in H as (ps & Hd & _ & _ & ->).
  rewrite field_with_field_eq by exact Hd.
  rewrite field_with_field_ne by (intros E; apply Hp; symmetry; exact E).
  destruct (strict_eq_true (field extension "required")); [|reflexivity].
  apply field_with_field_ne. intros E; apply Hr; symmetry; exact E.
Qed.

Lemma extension_callback_field (defs extension defs' : json) (K f : string) :
  extension_callback defs extension = Ok defs' ->
  f <> "required" -> f <> "properties" ->
  field (field defs' K) f = field (field defs K) f.
Proof.
  intros H Hr Hp. apply extension_callback_Ok in H as (_ & ks & _ & H).
  eapply (forEach_invariant _ (fun s => field (field s K) f = field (field defs K) f));
    [|reflexivity|exact H].
  intros s x s' Hs Hb. rewrite <- Hs. eapply restricted_callback_field; eauto.
Qed.

Lemma restricted_loop_other (extension propKey schema : json) (K : string)
    (ks : list json) :
  forall defs defs',
    forEach (restricted_callback extension propKey schema) defs ks = Ok defs' ->
    existsb (names K) ks = false -> field defs' K = field defs K.
Proof.
  induction ks as [|k ks IH]; intros defs defs' H Hn; simpl in *.
  - inversion H. reflexivity.
  - apply bind_Ok_inv in H as (d1 & H1 & H).
    apply orb_false_iff in Hn as [Hk Hks].
    rewrite (IH _ _ H Hks). eapply restricted_callback_other; eauto.
Qed.

Lemma extension_callback_untargeted (defs extension defs' : json) (K : string) :
  extension_callback defs extension = Ok defs' ->
  targets K extension = false -> field defs' K = field defs K.
Proof.
  intros H Ht. apply extension_callback_Ok in H as (_ & ks & Eks & H).
  unfold targets, restricted_keys in Ht. rewrite Eks in Ht.
  eapply restricted_loop_other; eauto.
Qed.

Lemma extensions_loop_untargeted (K : string) (es : list json) :
  forall defs defs',
    forEach extension_callback defs es = Ok defs' ->
    existsb (targets K) es = false -> field defs' K = field defs K.
Proof.
  induction es as [|e es IH]; intros defs defs' H Hn; simpl in *.
  - inversion H. reflexivity.
  - apply bind_Ok_inv in H as (d1 & H1 & H).
    apply orb_false_iff in Hn as [He Hes].
    rewrite (IH _ _ H Hes). eapply extension_callback_untargeted; eauto.
Qed.

(** X2.  What the injection leaves alone.  In the schema that
    [applyExtensionsToMetaSchema] returns, every top-level member other than
    [definitions] is the base's; a definition that no declaration is
    restricted to is the base's; and in every definition each member other
    than [required] and [properties] is the base's. *)
Theorem injection_frame (base document ms' : json) :
  applyExtensionsToMetaSchema base document = Ok ms' ->
  (forall k, k <> "definitions" -> field ms' k = field base k) /\
  (forall K, existsb (targets K) (declarations document) = false ->
             field (field ms' "definitions") K = field (field base "definitions") K) /\
  (forall K f, f <> "required" -> f <> "properties" ->
               field (field (field ms' "definitions") K) f
               = field (field (field base "definitions") K) f).
Proof.
  intros H. pose proof (applyExtensions_loop _ _ _ H) as Hl. split; [|split].
  - intros k Hk. apply applyExtensions_shape in H as [-> | (defs' & ->)]; [reflexivity|].
    apply field_with_field_ne. intros E. apply Hk. symmetry. exact E.
  - intros K HK. eapply extensions_loop_untargeted; eauto.
  - intros K f Hr Hp.
    eapply (forEach_invariant _
              (fun s => field (field s K) f = field (field (field base "definitions") K) f));
      [|reflexivity|exact Hl].
    intros s x s' Hs Hb. rewrite <- Hs. eapply extension_callback_field; eauto.
Qed.

(** X2, a run: the declaration "x-foo" for MethodObject leaves the title of
    the meta-schema, the definition JSONSchema and the type of MethodObject
    as they were. *)
Lemma injection_frame_witness :
  exists ms',
    applyExtensionsToMetaSchema Sample.metaSchema (Sample.document [Sample.x_foo]) = Ok ms' /\
    field ms' "title" = JStr "openrpcDocument" /\
    field (field ms' "definitions") "JSONSchema"
      = field (field Sample.metaSchema "definitions") "JSONSchema" /\
    field (field (field ms' "definitions") "MethodObject") "type" = JStr "object".
Proof.
  eexists. split; [reflexivity|].
  destruct (injection_frame Sample.metaSchema (Sample.document [Sample.x_foo]) _ eq_refl)
    as (Htop & Hdef & Hmem).
  split; [|split].
  - apply (Htop "title"). discriminate.
  - apply (Hdef "JSONSchema"). reflexivity.
  - apply (Hmem "MethodObject" "type"); discriminate.
Defined.

(** X3.  The augmented meta-schema, on a document whose declarations all
    write to plain objects under plain keys: none is named "__proto__", and
    each is restricted to definitions that have an object under
    [properties].  Whenever [applyExtensionsToMetaSchema] returns on such a
    document, for every definition [K] and every property name [p]:
    [definitions.K.required] is the base's sequence followed by the names
    pushed by the declarations, in the order of the document and with
    repetitions; [definitions.K.properties.p] is the schema of the last
    declaration that assigns it, or else what the base had. *)
Theorem injection_outcome (base document ms' : json) (K p : string) :
  applyExtensionsToMetaSchema base document = Ok ms' ->
  forallb (plain (field base "definitions")) (declarations document) = true ->
  required_at K (field ms' "definitions")
    = pushed (flat_map (pushes K) (declarations document))
             (required_at K (field base "definitions")) /\
  property_at K p (field ms' "definitions")
    = match last_injected K p (declarations document) with
      | Some s => Some s
      | None => property_at K p (field base "definitions")
      end.
Proof.
  intros H _. apply applyExtensions_loop in H. split.
  - apply extensions_loop_required. exact H.
  - apply extensions_loop_property. exact H.
Qed.

(** X3, a run: two required declarations for MethodObject, the second one
    restricted to it twice. *)
Lemma injection_outcome_witness :
  let x_bar := Sample.extension "x-bar" Sample.other_fragment
                 ["MethodObject"; "MethodObject"] true in
  exists ms',
    applyExtensionsToMetaSchema Sample.metaSchema (Sample.document [Sample.x_foo; x_bar])
      = Ok ms' /\
    required_at "MethodObject" (field ms' "definitions")
      = JArr [JStr "name"; JStr "params"; JStr "x-foo"; JStr "x-bar"; JStr "x-bar"] /\
    property_at "MethodObject" "x-bar" (field ms' "definitions") = Some Sample.other_fragment /\
    property_at "MethodObject" "name" (field ms' "definitions")
      = Some (JObj [("type", JStr "string")]).
Proof.
  intros x_bar. eexists. split; [reflexivity|].
  split; [|split].
  - apply (injection_outcome Sample.metaSchema (Sample.document [Sample.x_foo; x_bar]) _
             "MethodObject" "x-bar" eq_refl eq_refl).
  - apply (injection_outcome Sample.metaSchema (Sample.document [Sample.x_foo; x_bar]) _
             "MethodObject" "x-bar" eq_refl eq_refl).
  - apply (injection_outcome Sample.metaSchema (Sample.document [Sample.x_foo; x_bar]) _
             "MethodObject" "name" eq_refl eq_refl).
Defined.

Lemma pushes_none (K : string) (es : list json) :
  forallb (fun e => negb (strict_eq_true (field e "required"))) es = true ->
  flat_map (pushes K) es = [].
Proof.
  induction es as [|e es IH]; simpl; [reflexivity|].
  intros H. apply andb_true_iff in H as [He Hes]. apply negb_true_iff in He.
  unfold pushes at 1. rewrite He. simpl. exact (IH Hes).
Qed.

(** X4.  Only [required === true] pushes.  When no declaration of the
    document has [required] strictly equal to [true] (it may be absent,
    [false], the string "true", the number 1), every [required] array of the
    returned schema is the base's.  The properties are injected all the same:
    when the declarations write to plain objects under plain keys (none is
    named "__proto__", each is restricted to definitions that have an object
    under [properties]), [definitions.K.properties.p] is the schema of the
    last declaration that assigns it, or else what the base had. *)
Theorem required_only_on_true (base document ms' : json) :
  applyExtensionsToMetaSchema base document = Ok ms' ->
  forallb (fun e => negb (strict_eq_true (field e "required"))) (declarations document)
    = true ->
  (forall K,
      required_at K (field ms' "definitions") = required_at K (field base "definitions")) /\
  (forallb (plain (field base "definitions")) (declarations document) = true ->
   forall K p,
     property_at K p (field ms' "definitions")
     = match last_injected K p (declarations document) with
       | Some s => Some s
       | None => property_at K p (field base "definitions")
       end).
Proof.
  intros H Hno. apply applyExtensions_loop in H. split.
  - intros K. rewrite (extensions_loop_required K _ _ _ H), (pushes_none K _ Hno).
    apply pushed_nil.
  - intros _ K p. apply extensions_loop_property. exact H.
Qed.

(** X4, a run: a declaration whose [required] is the string "true". *)
Lemma required_only_on_true_witness :
  let truthy :=
    JObj [ ("name", JStr "x-foo"); ("schema", Sample.fragment);
           ("restricted", JArr [JStr "MethodObject"]); ("required", JStr "true") ] in
  exists ms',
    applyExtensionsToMetaSchema Sample.metaSchema (Sample.document [truthy]) = Ok ms' /\
    required_at "MethodObject" (field ms' "definitions")
      = JArr [JStr "name"; JStr "params"] /\
    property_at "MethodObject" "x-foo" (field ms' "definitions") = Some Sample.fragment.
Proof.
  intros truthy. eexists. split; [reflexivity|].
  destruct (required_only_on_true Sample.metaSchema (Sample.document [truthy]) _
              eq_refl eq_refl) as [Hreq Hprop].
  split.
  - apply (Hreq "MethodObject").
  - apply (Hprop eq_refl "MethodObject" "x-foo").
Defined.

Lemma json_eq_undef (v : json) : v = JUndef \/ v <> JUndef.
Proof. destruct v; [left; reflexivity | right; discriminate ..]. Qed.

Lemma restricted_callback_keeps_defined (extension propKey schema defs k defs' : json)
    (K : string) :
  field defs K <> JUndef ->
  restricted_callback extension propKey schema defs k = Ok defs' ->
  field defs' K <> JUndef.
Proof.
  intros HK H. destruct (names K k) eqn:E.
  2:{ rewrite (restricted_callback_other _ _ _ _ _ _ _ H E). exact HK. }
  apply names_spec in E. subst K.
  apply restricted_callback_Ok in H as (ps & Hd & _ & Hps & ->).
  rewrite field_with_field_eq by exact Hd.
  destruct (field_defined _ "properties" ltac:(rewrite Hps; discriminate)) as (fs & -> & _).
  discriminate.
Qed.

Lemma extension_callback_keeps_defined (defs extension defs' : json) (K : string) :
  field defs K <> JUndef ->
  extension_callback defs extension = Ok defs' ->
  field defs' K <> JUndef.
Proof.
  intros HK H. apply extension_callback_Ok in H as (_ & ks & _ & H).
  eapply (forEach_invariant _ (fun s => field s K <> JUndef)); [|exact HK|exact H].
  intros s x s' Hs Hb. eapply restricted_callback_keeps_defined; eauto.
Qed.

(** X5.  The injection neither adds nor removes a definition, and removes no
    property: in the returned schema [definitions.K] is [undefined] exactly
    when it is in the base, and every property a definition of the base has,
    the definition of the returned schema has too. *)
Theorem definitions_kept (base document ms' : json) (K : string) :
  applyExtensionsToMetaSchema base document = Ok ms' ->
  (field (field ms' "definitions") K = JUndef <->
   field (field base "definitions") K = JUndef) /\
  (forall p, property_at K p (field base "definitions") <> None ->
             property_at K p (field ms' "definitions") <> None).
Proof.
  intros H. pose proof (applyExtensions_loop _ _ _ H) as Hl. split; [split|].
  - intros Hu.
    destruct (json_eq_undef (field (field base "definitions") K)) as [E|E]; [exact E|].
    exfalso.
    eapply (forEach_invariant _ (fun s => field s K <> JUndef)); [|exact E|exact Hl|exact Hu].
    intros s x s' Hs Hb. eapply extension_callback_keeps_defined; eauto.
  - intros Hu.
    eapply (forEach_invariant _ (fun s => field s K = JUndef)); [|exact Hu|exact Hl].
    intros s x s' Hs Hb. eapply extension_callback_keeps_absent; eauto.
  - intros p Hp. rewrite (extensions_loop_property K p _ _ _ Hl).
    destruct (last_injected K p (declarations document)); [discriminate|exact Hp].
Qed.

(** X5, a run: after the declaration "x-foo" for MethodObject, MethodObject
    still has its property "name", and there is still no definition
    "NoSuchDef". *)
Lemma definitions_kept_witness :
  exists ms',
    applyExtensionsToMetaSchema Sample.metaSchema (Sample.document [Sample.x_foo]) = Ok ms' /\
    field (field ms' "definitions") "NoSuchDef" = JUndef /\
    property_at "MethodObject" "name" (field ms' "definitions") <> None.
Proof.
  eexists. split; [reflexivity|].
  split.
  - apply (definitions_kept Sample.metaSchema (Sample.document [Sample.x_foo]) _
             "NoSuchDef" eq_refl). reflexivity.
  - apply (definitions_kept Sample.metaSchema (Sample.document [Sample.x_foo]) _
             "MethodObject" eq_refl). discriminate.
Defined.

Lemma last_injected_some (K p : string) (E : json) (es : list json) :
  In E es -> injects K p E = true -> exists s, last_injected K p es = Some s.
Proof.
  intros Hin Hinj. apply in_split in Hin as (pre & post & ->).
  rewrite last_injected_app.
  destruct (last_injected K p (E :: post)) as [s|] eqn:El; [eauto|].
  exfalso. change (E :: post) with ([E] ++ post) in El.
  rewrite last_injected_app in El.
  destruct (last_injected K p post); [discriminate|].
  unfold last_injected in El. simpl in El. rewrite Hinj in El. discriminate.
Qed.

(** A push that ran found an array, which was an array from the start. *)
Lemma pushed_on_array (K : string) (E : json) (es : list json) (defs defs' : json) :
  forEach extension_callback defs es = Ok defs' ->
  In E es -> strict_eq_true (field E "required") = true -> targets K E = true ->
  exists rs0, required_at K defs = JArr rs0.
Proof.
  intros H Hin Hreq Ht. apply in_split in Hin as (pre & post & ->).
  apply forEach_Ok_inv in H as (defs1 & defs2 & Hpre & HE & _).
  pose proof (extensions_loop_required K _ _ _ Hpre) as Hr1.
  apply extension_callback_Ok in HE as (_ & ks & Eks & Hks).
  unfold targets, restricted_keys in Ht. rewrite Eks in Ht.
  apply existsb_exists in Ht as (k & Hk & HKk).
  apply in_split in Hk as (kpre & kpost & ->).
  apply forEach_Ok_inv in Hks as (d1 & d2 & Hkpre & Hck & _).
  pose proof (restricted_loop_required _ _ _ K _ _ _ Hkpre) as Hr2.
  apply restricted_callback_Ok in Hck as (ps & _ & Harr & _).
  destruct (Harr Hreq) as (rs & Ers).
  apply names_spec in HKk. rewrite HKk in Ers.
  change (required_at K d1 = JArr rs) in Ers.
  rewrite Hr2 in Ers. apply pushed_JArr_inv in Ers as (rs1 & Ers1 & _).
  rewrite Hr1 in Ers1. apply pushed_JArr_inv in Ers1 as (rs0 & Ers0 & _).
  eauto.
Qed.

(** X6.  A declaration is applied whatever its name is, "__proto__" apart.
    Let [E] be a declaration of the document whose name is not "__proto__"
    and whose definitions have an object under [properties].  When
    [applyExtensionsToMetaSchema] returns, each definition [K] that [E] is
    restricted to has a property under the key [ToString(E.name)], and when
    [E.required] is [true] the value of [E.name] itself, not its string, is
    an element of [K.required].  A declaration without a name thus yields a
    property "undefined" and an element [undefined]. *)
Theorem every_declaration_applied (base document ms' E : json) (K : string) :
  applyExtensionsToMetaSchema base document = Ok ms' ->
  In E (declarations document) -> targets K E = true ->
  plain (field base "definitions") E = true ->
  (exists s, property_at K (to_string (field E "name")) (field ms' "definitions") = Some s) /\
  (field E "required" = JBool true ->
   exists rs, required_at K (field ms' "definitions") = JArr rs /\ In (field E "name") rs).
Proof.
  intros H Hin Ht _. apply applyExtensions_loop in H. split.
  - rewrite (extensions_loop_property K _ _ _ _ H).
    destruct (last_injected_some K (to_string (field E "name")) E _ Hin) as (s & ->);
      [|eauto].
    unfold injects. unfold targets in Ht. rewrite Ht, String.eqb_refl. reflexivity.
  - intros Hreq.
    assert (Hst : strict_eq_true (field E "required") = true) by (rewrite Hreq; reflexivity).
    destruct (pushed_on_array K E _ _ _ H Hin Hst Ht) as (rs0 & Ers0).
    rewrite (extensions_loop_required K _ _ _ H), Ers0. simpl.
    eexists. split; [reflexivity|].
    apply in_or_app. right. apply in_flat_map. exists E. split; [exact Hin|].
    unfold pushes. rewrite Hst.
    unfold targets in Ht. apply existsb_exists in Ht as (k & Hk & HKk).
    apply in_map_iff. exists k. split; [reflexivity|].
    apply filter_In. auto.
Qed.

(** X6, a run: a required declaration without a name. *)
Lemma every_declaration_applied_witness :
  let nameless :=
    JObj [ ("schema", Sample.fragment); ("restricted", JArr [JStr "MethodObject"]);
           ("required", JBool true) ] in
  exists ms',
    applyExtensionsToMetaSchema Sample.metaSchema (Sample.document [nameless]) = Ok ms' /\
    (exists s, property_at "MethodObject" "undefined" (field ms' "definitions") = Some s) /\
    (exists rs, required_at "MethodObject" (field ms' "definitions") = JArr rs /\
                In JUndef rs).
Proof.
  intros nameless. eexists. split; [reflexivity|].
  destruct (every_declaration_applied Sample.metaSchema (Sample.document [nameless]) _
              nameless "MethodObject" eq_refl (or_introl eq_refl) eq_refl eq_refl)
    as [Hp Hr].
  split; [exact Hp | exact (Hr eq_refl)].
Defined.

(** X7.  An [x-extensions] that is there and is not an array ([null], an
    object, a string, a number) ends [applyExtensionsToMetaSchema] with a
    [TypeError]; [validateOpenRPCDocument] throws it and the engine is not
    called. *)
Theorem extensions_not_an_array (base document : json)
    (JSON_stringify : list ErrorObject -> string)
    (ajv_validate : json -> json -> outcome (option (list ErrorObject))) :
  nullish base = false -> nullish document = false ->
  field document "x-extensions" <> JUndef ->
  (forall es, field document "x-extensions" <> JArr es) ->
  applyExtensionsToMetaSchema base document = Throw TypeError /\
  validateOpenRPCDocument base JSON_stringify ajv_validate document = ([], Throw TypeError).
Proof.
  intros Hb Hd Hu Ha.
  assert (Hrun : applyExtensionsToMetaSchema base document = Throw TypeError).
  { unfold applyExtensionsToMetaSchema.
    rewrite (get_field_nonnullish _ _ Hb), (get_field_nonnullish _ _ Hd). simpl.
    destruct (field document "x-extensions") as [| | | | |es|]; try reflexivity.
    - congruence.
    - exfalso. exact (Ha es eq_refl). }
  split; [exact Hrun|]. apply validation_schema_throw. exact Hrun.
Qed.

(** X7, a run: [x-extensions] is [null]. *)
Lemma extensions_not_an_array_witness :
  validateOpenRPCDocument Sample.metaSchema Sample.JSON_stringify Sample.ajv_validate
    (JObj [("info", JObj []); ("x-extensions", JNull)])
  = ([], Throw TypeError).
Proof.
  apply (extensions_not_an_array Sample.metaSchema
           (JObj [("info", JObj []); ("x-extensions", JNull)])
           Sample.JSON_stringify Sample.ajv_validate eq_refl eq_refl);
    [discriminate | intros es; discriminate].
Defined.

(** X8.  A declaration whose [restricted] is not an array (absent among
    them), or that is itself [null] or a primitive, ends
    [applyExtensionsToMetaSchema] with a [TypeError] once the declarations
    before it have been applied, whatever the declarations after it. *)
Theorem declaration_without_restricted (base document E : json) (pre post : list json)
    (defs1 : json) :
  nullish base = false ->
  field document "x-extensions" = JArr (pre ++ E :: post) ->
  forEach extension_callback (field base "definitions") pre = Ok defs1 ->
  (forall ks, field E "restricted" <> JArr ks) ->
  applyExtensionsToMetaSchema base document = Throw TypeError.
Proof.
  intros Hb Hx Hpre Hr. unfold applyExtensionsToMetaSchema.
  assert (Hd : nullish document = false) by (destruct document; simpl in *; congruence).
  rewrite (get_field_nonnullish _ _ Hb), (get_field_nonnullish _ _ Hd), Hx. simpl.
  rewrite forEach_app, Hpre. simpl.
  assert (HE : extension_callback defs1 E = Throw TypeError).
  { unfold extension_callback. destruct (nullish E) eqn:En.
    - destruct E; try discriminate; reflexivity.
    - rewrite !(get_field_nonnullish _ _ En). simpl.
      destruct (field E "restricted") as [| | | | |ks|]; try reflexivity.
      exfalso. exact (Hr ks eq_refl). }
  rewrite HE. reflexivity.
Qed.

(** X8, a run: the second declaration has a name and a schema only. *)
Lemma declaration_without_restricted_witness :
  applyExtensionsToMetaSchema Sample.metaSchema
    (Sample.document [Sample.x_foo;
                      JObj [("name", JStr "x-bar"); ("schema", Sample.fragment)]])
  = Throw TypeError.
Proof.
  apply (declaration_without_restricted Sample.metaSchema
           (Sample.document [Sample.x_foo;
                             JObj [("name", JStr "x-bar"); ("schema", Sample.fragment)]])
           (JObj [("name", JStr "x-bar"); ("schema", Sample.fragment)])
           [Sample.x_foo] []
           (JObj [ ("MethodObject",
                    JObj [ ("type", JStr "object");
                           ("required", JArr [JStr "name"; JStr "params"; JStr "x-foo"]);
                           ("properties",
                             JObj [ ("name", JObj [("type", JStr "string")]);
                                    ("x-foo", Sample.fragment) ]) ]);
                   ("JSONSchema",
                    JObj [ ("$id", JStr "https://meta.json-schema.tools/");
                           ("$schema", JStr "https://meta.json-schema.tools/");
                           ("title", JStr "JSONSchema") ]) ])
           eq_refl eq_refl eq_refl).
  intros ks. discriminate.
Defined.

Lemma nullish_with_field (o : json) (k : string) (v : json) :
  nullish (with_field o k v) = nullish o.
Proof. destruct o; reflexivity. Qed.

Lemma with_field_twice (o : json) (k : string) (v v' : json) :
  with_field (with_field o k v) k v' = with_field o k v'.
Proof. destruct o; try reflexivity. simpl. rewrite obj_replace_replace. reflexivity. Qed.

Lemma extensions_loop_definitions (base : json) (es : list json) (defs' : json) :
  forEach extension_callback (field base "definitions") es = Ok defs' ->
  field (with_field base "definitions" defs') "definitions" = defs'.
Proof.
  intros H. destruct (json_eq_undef (field base "definitions")) as [E|E].
  - assert (Hu : defs' = JUndef).
    { rewrite E in H.
      eapply (forEach_invariant _ (fun s => s = JUndef)); [|reflexivity|exact H].
      intros; eapply extension_callback_keeps_undefined; eauto. }
    subst defs'. rewrite <- E at 1. rewrite with_field_same. exact E.
  - apply field_with_field_eq. exact E.
Qed.

(** X9.  Declarations can be applied in batches.  Injecting the
    declarations of one document after those of another gives what injecting
    them all at once gives: the same schema, or the same exception. *)
Theorem injection_in_batches (base d1 d2 d12 : json) (es1 es2 : list json) :
  nullish base = false ->
  field d1 "x-extensions" = JArr es1 ->
  field d2 "x-extensions" = JArr es2 ->
  field d12 "x-extensions" = JArr (es1 ++ es2) ->
  applyExtensionsToMetaSchema base d12
  = (let* ms1 := applyExtensionsToMetaSchema base d1 in applyExtensionsToMetaSchema ms1 d2).
Proof.
  intros Hb H1 H2 H12.
  assert (Hn : forall d es, field d "x-extensions" = JArr es -> nullish d = false).
  { intros d es H. destruct d; simpl in *; congruence. }
  unfold applyExtensionsToMetaSchema at 1 2.
  rewrite !(get_field_nonnullish _ _ Hb).
  rewrite (get_field_nonnullish _ _ (Hn _ _ H1)), (get_field_nonnullish _ _ (Hn _ _ H12)).
  rewrite H1, H12. simpl. rewrite forEach_app.
  destruct (forEach extension_callback (field base "definitions") es1) as [defs1| |] eqn:E1;
    simpl; [|reflexivity ..].
  unfold applyExtensionsToMetaSchema.
  rewrite (get_field_nonnullish (with_field base "definitions" defs1))
    by (rewrite nullish_with_field; exact Hb).
  rewrite (get_field_nonnullish _ _ (Hn _ _ H2)), H2. simpl.
  rewrite (extensions_loop_definitions _ _ _ E1).
  destruct (forEach extension_callback defs1 es2) as [defs2| |]; simpl; [|reflexivity ..].
  rewrite with_field_twice. reflexivity.
Qed.

(** X9, a run: "x-foo" and then "x-bar" for MethodObject. *)
Lemma injection_in_batches_witness :
  let x_bar := Sample.extension "x-bar" Sample.other_fragment ["MethodObject"] true in
  applyExtensionsToMetaSchema Sample.metaSchema (Sample.document [Sample.x_foo; x_bar])
  = (let* ms1 := applyExtensionsToMetaSchema Sample.metaSchema
                   (Sample.document [Sample.x_foo]) in
     applyExtensionsToMetaSchema ms1 (Sample.document [x_bar])).
Proof.
  intros x_bar.
  apply (injection_in_batches Sample.metaSchema (Sample.document [Sample.x_foo])
           (Sample.document [x_bar]) (Sample.document [Sample.x_foo; x_bar])
           [Sample.x_foo] [x_bar]); reflexivity.
Defined.

(** ** The exceptions of the injection *)

Lemma bind_Throw_inv {A B : Type} (m : outcome A) (f : A -> outcome B) (e : thrown) :
  bind m f = Throw e -> m = Throw e \/ exists a, m = Ok a /\ f a = Throw e.
Proof.
  destruct m as [a|e0|]; simpl; intros H; [right; exists a; auto | left; inversion H; reflexivity | discriminate].
Qed.

Lemma get_field_throws (v : json) (k : string) (e : thrown) :
  get_field v k = Throw e -> e = TypeError.
Proof. destruct v; simpl; intros H; inversion H; reflexivity. Qed.

Lemma get_computed_throws (v : json) (k : string) (e : thrown) :
  get_computed v k = Throw e -> e = TypeError.
Proof.
  destruct v; simpl; intros H; try (inversion H; reflexivity).
  destruct (Object_prototype_member k); discriminate.
Qed.

Lemma assign_computed_throws (o : json) (k : string) (v : json) (e : thrown) :
  assign_computed o k v = Throw e -> e = TypeError.
Proof.
  destruct o; simpl; intros H; try (inversion H; reflexivity).
  destruct (String.eqb k "__proto__"); discriminate.
Qed.

Lemma push_throws (a x : json) (e : thrown) : push a x = Throw e -> e = TypeError.
Proof. destruct a; simpl; intros H; inversion H; reflexivity. Qed.

Lemma elements_throws (a : json) (e : thrown) : elements a = Throw e -> e = TypeError.
Proof. destruct a; simpl; intros H; inversion H; reflexivity. Qed.

Lemma forEach_Throw_inv {S : Type} (body : S -> json -> outcome S) (e : thrown)
    (xs : list json) :
  forall s, forEach body s xs = Throw e ->
  exists pre x post s1,
    xs = pre ++ x :: post /\ forEach body s pre = Ok s1 /\ body s1 x = Throw e.
Proof.
  induction xs as [|x xs IH]; intros s H; simpl in H; [discriminate|].
  apply bind_Throw_inv in H as [H | (s1 & H1 & H)].
  - exists [], x, xs, s. auto.
  - destruct (IH _ H) as (pre & y & post & s2 & -> & Hpre & Hy).
    exists (x :: pre), y, post, s2. simpl. rewrite H1. auto.
Qed.

Lemma restricted_callback_throws (extension propKey schema defs k : json) (e : thrown) :
  restricted_callback extension propKey schema defs k = Throw e ->
  e = TypeError \/
  (e = Error (invalid_key_message k propKey) /\ field defs (to_string k) = JUndef).
Proof.
  unfold restricted_callback. intros H.
  apply bind_Throw_inv in H as [H | (d & Hd & H)];
    [left; eapply get_computed_throws; eauto|].
  apply get_computed_Ok in Hd as (fs & -> & _ & ->).
  destruct (is_undefined (field (JObj fs) (to_string k))) eqn:Eu.
  - right. inversion H. split; [reflexivity|].
    destruct (field (JObj fs) (to_string k)); try discriminate. reflexivity.
  - left.
    apply bind_Throw_inv in H as [H | (req & _ & H)]; [eapply get_field_throws; eauto|].
    apply bind_Throw_inv in H as [H | (d1 & _ & H)].
    + destruct (strict_eq_true req); [|discriminate].
      destruct (field (JObj fs) (to_string k)); try discriminate;
        (apply bind_Throw_inv in H as [H | (r & _ & H)]; [eapply get_field_throws; eauto|];
         apply bind_Throw_inv in H as [H | (r' & _ & H)]; [eapply push_throws; eauto|];
         discriminate).
    + apply bind_Throw_inv in H as [H | (p0 & _ & H)]; [eapply get_field_throws; eauto|].
      apply bind_Throw_inv in H as [H | (p' & _ & H)];
        [eapply assign_computed_throws; eauto | discriminate].
Qed.

Lemma extension_callback_throws (defs extension : json) (e : thrown) :
  extension_callback defs extension = Throw e ->
  e = TypeError \/
  exists k defs1,
    In k (restricted_keys extension) /\
    e = Error (invalid_key_message k (field extension "name")) /\
    field defs1 (to_string k) = JUndef /\
    (forall K, field defs K <> JUndef -> field defs1 K <> JUndef).
Proof.
  unfold extension_callback. intros H.
  apply bind_Throw_inv in H as [H | (n & Hn & H)]; [left; eapply get_field_throws; eauto|].
  apply get_field_field in Hn as [-> _].
  apply bind_Throw_inv in H as [H | (sc & Hs & H)]; [left; eapply get_field_throws; eauto|].
  apply bind_Throw_inv in H as [H | (r & Hr & H)]; [left; eapply get_field_throws; eauto|].
  apply get_field_field in Hr as [-> _].
  apply bind_Throw_inv in H as [H | (ks & Hks & H)]; [left; eapply elements_throws; eauto|].
  assert (Eks : restricted_keys extension = ks).
  { unfold restricted_keys. destruct (field extension "restricted"); simpl in Hks;
      inversion Hks. reflexivity. }
  apply forEach_Throw_inv in H as (pre & k & post & defs1 & -> & Hpre & Hk).
  apply restricted_callback_throws in Hk as [-> | [-> Hu]]; [left; reflexivity|].
  right. exists k, defs1. rewrite Eks.
  split; [apply in_or_app; right; left; reflexivity|].
  split; [reflexivity|]. split; [exact Hu|].
  intros K HK.
  eapply (forEach_invariant _ (fun s => field s K <> JUndef)); [|exact HK|exact Hpre].
  intros s x s' Hs' Hb. eapply restricted_callback_keeps_defined; eauto.
Qed.

Lemma applyExtensions_throws (base document : json) (e : thrown) :
  applyExtensionsToMetaSchema base document = Throw e ->
  e = TypeError \/
  exists E k,
    In E (declarations document) /\ In k (restricted_keys E) /\
    field (field base "definitions") (to_string k) = JUndef /\
    e = Error ("Invalid meta schema key: " +:+ to_string k +:+
               " for openrpc extension " +:+ to_string (field E "name")).
Proof.
  unfold applyExtensionsToMetaSchema. intros H.
  apply bind_Throw_inv in H as [H | (defs & Hd & H)]; [left; eapply get_field_throws; eauto|].
  apply get_field_field in Hd as [-> _].
  apply bind_Throw_inv in H as [H | (xs & Hx & H)]; [left; eapply get_field_throws; eauto|].
  apply get_field_field in Hx as [-> _].
  destruct (is_undefined (field document "x-extensions")); [discriminate|].
  apply bind_Throw_inv in H as [H | (es & Hes & H)]; [left; eapply elements_throws; eauto|].
  assert (Ees : declarations document = es).
  { unfold declarations. destruct (field document "x-extensions"); simpl in Hes;
      inversion Hes. reflexivity. }
  apply bind_Throw_inv in H as [H | (defs' & _ & H)]; [|discriminate].
  apply forEach_Throw_inv in H as (pre & E & post & defs1 & -> & Hpre & HE).
  apply extension_callback_throws in HE as [-> | (k & defs2 & Hk & -> & Hu & Hkeep)];
    [left; reflexivity|].
  right. exists E, k. rewrite Ees.
  split; [apply in_or_app; right; left; reflexivity|].
  split; [exact Hk|]. split; [|reflexivity].
  destruct (json_eq_undef (field (field base "definitions") (to_string k))) as [Eu|Eu];
    [exact Eu|].
  exfalso. apply (Hkeep (to_string k)); [|exact Hu].
  eapply (forEach_invariant _ (fun s => field s (to_string k) <> JUndef));
    [|exact Eu|exact Hpre].
  intros s x s' Hs' Hb. eapply extension_callback_keeps_defined; eauto.
Qed.

(** X10.  The exceptions of [applyExtensionsToMetaSchema] are a [TypeError]
    and the [Error] of an invalid key, nothing else; and the [Error] is
    thrown only for a restricted entry of a declaration of the document that
    names no definition of the base meta-schema, with the entry and the name
    of that declaration in its message. *)
Theorem injection_exceptions (base document : json) (e : thrown) :
  applyExtensionsToMetaSchema base document = Throw e ->
  e = TypeError \/
  exists E k,
    In E (declarations document) /\ In k (restricted_keys E) /\
    field (field base "definitions") (to_string k) = JUndef /\
    e = Error ("Invalid meta schema key: " +:+ to_string k +:+
               " for openrpc extension " +:+ to_string (field E "name")).
Proof. exact (applyExtensions_throws base document e). Qed.

(** X10, a run: a declaration for MethodObject and for a definition the
    sample meta-schema does not have. *)
Lemma injection_exceptions_witness :
  let stray := Sample.extension "x-bar" Sample.fragment ["MethodObject"; "NoSuchDef"] false in
  let e := Error "Invalid meta schema key: NoSuchDef for openrpc extension x-bar" in
  applyExtensionsToMetaSchema Sample.metaSchema (Sample.document [stray]) = Throw e /\
  (e = TypeError \/
   exists E k,
     In E (declarations (Sample.document [stray])) /\ In k (restricted_keys E) /\
     field (field Sample.metaSchema "definitions") (to_string k) = JUndef /\
     e = Error ("Invalid meta schema key: " +:+ to_string k +:+
                " for openrpc extension " +:+ to_string (field E "name"))).
Proof.
  intros stray e. split; [reflexivity|].
  apply (injection_exceptions Sample.metaSchema (Sample.document [stray]) e eq_refl).
Defined.

(* ===================================================================== *)
(** * Further properties of the sanitizer and of validation *)
(* ===================================================================== *)

(** X11.  What the sanitizer leaves alone.  When
    [cleanMetaSchemaForValidation] returns, every top-level member other than
    [$id], [$schema] and [definitions] is as it was, every definition other
    than [JSONSchema] is as it was, and so is every member of
    [definitions.JSONSchema] other than [$id] and [$schema]. *)
Theorem sanitize_frame (m m' : json) :
  cleanMetaSchemaForValidation m = Ok m' ->
  (forall k, k <> "$id" -> k <> "$schema" -> k <> "definitions" -> field m' k = field m k) /\
  (forall K, K <> "JSONSchema" ->
             field (field m' "definitions") K = field (field m "definitions") K) /\
  (forall f, f <> "$id" -> f <> "$schema" ->
             field (field (field m' "definitions") "JSONSchema") f
             = field (field (field m "definitions") "JSONSchema") f).
Proof. exact (clean_frame m m'). Qed.

(** X11, a run on the sample meta-schema: the title of the root, the
    definition MethodObject and the title of JSONSchema stay. *)
Lemma sanitize_frame_witness :
  exists m',
    cleanMetaSchemaForValidation Sample.metaSchema = Ok m' /\
    field m' "title" = JStr "openrpcDocument" /\
    field (field m' "definitions") "MethodObject"
      = field (field Sample.metaSchema "definitions") "MethodObject" /\
    field (field (field m' "definitions") "JSONSchema") "title" = JStr "JSONSchema".
Proof.
  eexists. split; [reflexivity|].
  destruct (sanitize_frame Sample.metaSchema _ eq_refl) as (Htop & Hdef & Hmem).
  split; [|split].
  - apply (Htop "title"); discriminate.
  - apply (Hdef "MethodObject"). discriminate.
  - apply (Hmem "title"); discriminate.
Defined.

(** X12.  The sanitizer returns exactly on the meta-schemas whose
    [definitions.JSONSchema] is neither [undefined] nor [null]; on every
    other value (a meta-schema without [definitions], without
    [definitions.JSONSchema], [null], a primitive) it throws a [TypeError]. *)
Theorem sanitize_outcomes (m : json) :
  (nullish (field (field m "definitions") "JSONSchema") = false ->
   exists m', cleanMetaSchemaForValidation m = Ok m') /\
  (nullish (field (field m "definitions") "JSONSchema") = true ->
   cleanMetaSchemaForValidation m = Throw TypeError).
Proof.
  destruct m as [| | | | | |fs]; try (split; [discriminate | reflexivity]).
  simpl. destruct (obj_get "definitions" fs) as [d|] eqn:Ed; simpl;
    [|split; [discriminate|];
      intros _; unfold cleanMetaSchemaForValidation, delete_in_JSONSchema; simpl;
      rewrite Ed; reflexivity].
  destruct d as [| | | | | |ds];
    try (split; [discriminate|];
         intros _; unfold cleanMetaSchemaForValidation, delete_in_JSONSchema; simpl;
         rewrite Ed; reflexivity).
  simpl. destruct (obj_get "JSONSchema" ds) as [j|] eqn:Ej; simpl;
    [|split; [discriminate|];
      intros _; unfold cleanMetaSchemaForValidation, delete_in_JSONSchema; simpl;
      rewrite Ed; simpl; rewrite Ej; reflexivity].
  split.
  - intros Hn. exists (sanitized fs ds j). apply clean_sanitizable.
    repeat split; auto.
  - intros Hn. unfold cleanMetaSchemaForValidation, delete_in_JSONSchema. simpl.
    rewrite Ed. simpl. rewrite Ej. simpl.
    destruct j; try discriminate; reflexivity.
Qed.

Lemma validation_schema_composed (base document : json) :
  validation_schema base document
  = (let* ms := applyExtensionsToMetaSchema base document in
     cleanMetaSchemaForValidation ms).
Proof. reflexivity. Qed.

(** The sanitizer touches neither [required] nor [properties] of any
    definition. *)
Lemma clean_keeps_injections (m m' : json) (K p : string) :
  cleanMetaSchemaForValidation m = Ok m' ->
  required_at K (field m' "definitions") = required_at K (field m "definitions") /\
  property_at K p (field m' "definitions") = property_at K p (field m "definitions").
Proof.
  intros H. destruct (clean_frame _ _ H) as (_ & Hdef & Hmem).
  unfold required_at, property_at.
  destruct (String.eqb K "JSONSchema") eqn:E.
  - apply String.eqb_eq in E. subst K.
    rewrite !Hmem by discriminate. auto.
  - apply String.eqb_neq in E. rewrite (Hdef K E). auto.
Qed.

(** X13.  What the engine is given.  Whenever [validateOpenRPCDocument] calls
    the engine, it calls it once, on the document and on a schema that has
    neither [$id] nor [$schema], at the top or in [definitions.JSONSchema],
    and in which every definition has the [required] and the [properties]
    that [applyExtensionsToMetaSchema] returned: sanitizing undoes no
    injection. *)
Theorem engine_schema (base : json) (JSON_stringify : list ErrorObject -> string)
    (ajv_validate : json -> json -> outcome (option (list ErrorObject)))
    (document : json) (c : call) :
  In c (fst (validateOpenRPCDocument base JSON_stringify ajv_validate document)) ->
  exists ms' schema,
    applyExtensionsToMetaSchema base document = Ok ms' /\
    c = CallAjvValidate schema document /\
    fst (validateOpenRPCDocument base JSON_stringify ajv_validate document) = [c] /\
    field schema "$id" = JUndef /\ field schema "$schema" = JUndef /\
    field (field (field schema "definitions") "JSONSchema") "$id" = JUndef /\
    field (field (field schema "definitions") "JSONSchema") "$schema" = JUndef /\
    forall K p,
      required_at K (field schema "definitions") = required_at K (field ms' "definitions") /\
      property_at K p (field schema "definitions") = property_at K p (field ms' "definitions").
Proof.
  intros Hin.
  destruct (validation_schema base document) as [schema|e|] eqn:Hs.
  2,3: unfold validateOpenRPCDocument in Hin; rewrite Hs in Hin; simpl in Hin; contradiction.
  rewrite (validate_run base JSON_stringify ajv_validate _ _ Hs) in Hin |- *.
  simpl in Hin. destruct Hin as [<-|[]].
  rewrite validation_schema_composed in Hs.
  apply bind_Ok_inv in Hs as (ms' & Hms & Hclean).
  exists ms', schema. split; [exact Hms|]. split; [reflexivity|]. split; [reflexivity|].
  pose proof Hclean as Hc.
  apply clean_Ok in Hc as (fs & ds & j & (Em & Hd & Hj & Hn) & ->).
  destruct (sanitized_sanitizable fs ds j Hd Hj Hn) as (fs' & E & _ & Hid & Hsch).
  split; [rewrite E; simpl; rewrite Hid; reflexivity|].
  split; [rewrite E; simpl; rewrite Hsch; reflexivity|].
  rewrite (sanitized_definitions _ _ _ Hd). simpl.
  rewrite obj_get_replace_eq, Hj. simpl.
  split; [|split].
  - destruct j; simpl in *; try reflexivity.
    rewrite obj_get_delete_ne by discriminate. rewrite obj_get_delete_eq. reflexivity.
  - destruct j; simpl in *; try reflexivity.
    rewrite obj_get_delete_eq. reflexivity.
  - intros K p. rewrite <- (sanitized_definitions _ _ _ Hd).
    apply (clean_keeps_injections _ _ K p Hclean).
Qed.

(** X13, a run: the document with the declaration "x-foo"; the engine gets a
    schema without [$id] that has the injected property. *)
Lemma engine_schema_witness :
  exists schema,
    fst (validateOpenRPCDocument Sample.metaSchema Sample.JSON_stringify Sample.ajv_validate
           (Sample.document [Sample.x_foo]))
    = [CallAjvValidate schema (Sample.document [Sample.x_foo])] /\
    field schema "$id" = JUndef /\
    property_at "MethodObject" "x-foo" (field schema "definitions") = Some Sample.fragment.
Proof.
  destruct (engine_schema Sample.metaSchema Sample.JSON_stringify Sample.ajv_validate
              (Sample.document [Sample.x_foo])
              (CallAjvValidate _ (Sample.document [Sample.x_foo]))
              (or_introl eq_refl))
    as (ms' & schema & Hms & Hc & Hlog & Hid & _ & _ & _ & Hinj).
  exists schema. split; [rewrite Hlog, Hc; reflexivity|]. split; [exact Hid|].
  rewrite (proj2 (Hinj "MethodObject" "x-foo")).
  vm_compute in Hms. inversion Hms. reflexivity.
Defined.

Lemma delete_field_throws (o : json) (k : string) (e : thrown) :
  delete_field o k = Throw e -> e = TypeError.
Proof. destruct o; simpl; intros H; inversion H; reflexivity. Qed.

Lemma delete_in_JSONSchema_throws (m : json) (k : string) (e : thrown) :
  delete_in_JSONSchema m k = Throw e -> e = TypeError.
Proof.
  unfold delete_in_JSONSchema. intros H.
  apply bind_Throw_inv in H as [H | (defs & _ & H)]; [eapply get_field_throws; eauto|].
  apply bind_Throw_inv in H as [H | (j & _ & H)]; [eapply get_field_throws; eauto|].
  apply bind_Throw_inv in H as [H | (j' & _ & H)];
    [eapply delete_field_throws; eauto | discriminate].
Qed.

Lemma clean_throws (m : json) (e : thrown) :
  cleanMetaSchemaForValidation m = Throw e -> e = TypeError.
Proof.
  unfold cleanMetaSchemaForValidation. intros H.
  apply bind_Throw_inv in H as [H | (m1 & _ & H)];
    [eapply delete_in_JSONSchema_throws; eauto|].
  apply bind_Throw_inv in H as [H | (m2 & _ & H)];
    [eapply delete_in_JSONSchema_throws; eauto|].
  apply bind_Throw_inv in H as [H | (m3 & _ & H)]; [eapply delete_field_throws; eauto|].
  apply bind_Throw_inv in H as [H | (m4 & _ & H)];
    [eapply delete_field_throws; eauto | discriminate].
Qed.

(** X14.  Where an exception of [validateOpenRPCDocument] comes from.  Either
    it is thrown before the engine is called, and then it is a [TypeError] or
    the [Error] of a restricted entry that names no definition of the base
    meta-schema; or it is what the call of the engine threw.  A validation
    error is returned, the function itself never throws one. *)
Theorem validation_exceptions (base : json) (JSON_stringify : list ErrorObject -> string)
    (ajv_validate : json -> json -> outcome (option (list ErrorObject)))
    (document : json) (e : thrown) :
  snd (validateOpenRPCDocument base JSON_stringify ajv_validate document) = Throw e ->
  (fst (validateOpenRPCDocument base JSON_stringify ajv_validate document) = [] /\
   (e = TypeError \/
    exists E k,
      In E (declarations document) /\ In k (restricted_keys E) /\
      field (field base "definitions") (to_string k) = JUndef /\
      e = Error ("Invalid meta schema key: " +:+ to_string k +:+
                 " for openrpc extension " +:+ to_string (field E "name")))) \/
  (exists schema,
      fst (validateOpenRPCDocument base JSON_stringify ajv_validate document)
        = [CallAjvValidate schema document] /\
      ajv_validate schema document = Throw e).
Proof.
  intros H.
  destruct (validation_schema base document) as [schema|e0|] eqn:Hs.
  - right. exists schema.
    rewrite (validate_run base JSON_stringify ajv_validate _ _ Hs) in H |- *.
    split; [reflexivity|]. simpl in H.
    destruct (ajv_validate schema document) as [[errs|]|e1|]; simpl in H;
      try discriminate. inversion H. reflexivity.
  - left. unfold validateOpenRPCDocument in H |- *. rewrite Hs in H |- *. simpl in H |- *.
    inversion H; subst e0. split; [reflexivity|].
    rewrite validation_schema_composed in Hs.
    apply bind_Throw_inv in Hs as [Hs | (ms & _ & Hs)].
    + apply applyExtensions_throws. exact Hs.
    + left. eapply clean_throws; eauto.
  - unfold validateOpenRPCDocument in H. rewrite Hs in H. discriminate.
Qed.

(** X14, a run: the declaration for a definition that is not there. *)
Lemma validation_exceptions_witness :
  let stray := Sample.extension "x-bar" Sample.fragment ["NoSuchDef"] false in
  let run := validateOpenRPCDocument Sample.metaSchema Sample.JSON_stringify
               Sample.ajv_validate (Sample.document [stray]) in
  let e := Error "Invalid meta schema key: NoSuchDef for openrpc extension x-bar" in
  (fst run = [] /\
   (e = TypeError \/
    exists E k,
      In E (declarations (Sample.document [stray])) /\ In k (restricted_keys E) /\
      field (field Sample.metaSchema "definitions") (to_string k) = JUndef /\
      e = Error ("Invalid meta schema key: " +:+ to_string k +:+
                 " for openrpc extension " +:+ to_string (field E "name")))) \/
  (exists schema,
      fst run = [CallAjvValidate schema (Sample.document [stray])] /\
      Sample.ajv_validate schema (Sample.document [stray]) = Throw e).
Proof.
  intros stray run e.
  exact (validation_exceptions Sample.metaSchema Sample.JSON_stringify Sample.ajv_validate
           (Sample.document [stray]) e eq_refl).
Defined.

(* ===================================================================== *)
(** * Further properties of the pipeline *)
(* ===================================================================== *)

Section PipelineMore.
Variable base : json.
Variable JSON_stringify : list ErrorObject -> string.
Variable ajv_validate : json -> json -> outcome (option (list ErrorObject)).
Variable JSON_parse : string -> option json.
Variable isUrl : string -> bool.
Variable fetchUrlSchemaFile : string -> outcome json.
Variable pathExists : string -> bool.
Variable readSchemaFromFile : string -> outcome json.
Variable dereference : json -> string + json.

Let validate := validateOpenRPCDocument base JSON_stringify ajv_validate.
Let acquired := acquire JSON_parse isUrl fetchUrlSchemaFile pathExists readSchemaFromFile.
Let parse :=
  parseOpenRPCDocument base JSON_stringify ajv_validate JSON_parse isUrl
    fetchUrlSchemaFile pathExists readSchemaFromFile dereference.

Lemma parse_acquired (schema : json) (log : list call) (d : json) :
  acquired schema = (log, Ok d) ->
  parse schema =
    (log ++ fst (validate d) ++
       match snd (validate d) with Ok Valid => [CallDereference d] | _ => [] end,
     match snd (validate d) with
     | Ok Valid =>
         match dereference d with
         | inr resolved => Ok resolved
         | inl e_message => Throw (new_OpenRPCDocumentDereferencingError e_message)
         end
     | Ok (Invalid e) => Throw (ValidationError e)
     | Throw e => Throw e
     | Unmodelled => Unmodelled
     end).
Proof.
  intros H.
  exact (parse_run base JSON_stringify ajv_validate JSON_parse isUrl fetchUrlSchemaFile
           pathExists readSchemaFromFile dereference schema log d H).
Qed.

Lemma parse_failed_acquisition (schema : json) (log : list call) :
  (forall e, acquired schema = (log, Throw e) -> parse schema = (log, Throw e)) /\
  (acquired schema = (log, Unmodelled) -> parse schema = (log, Unmodelled)).
Proof.
  unfold parse, parseOpenRPCDocument. fold acquired.
  split; [intros e H | intros H]; rewrite H; reflexivity.
Qed.

(** X15.  A document that [parseOpenRPCDocument] resolves with has been
    through every stage: it is what [refParser.dereference] gave for the
    acquired document, [validateOpenRPCDocument] returned [true] for that
    document, and the calls made are those of the acquisition, the call of the
    engine, and the call of [refParser.dereference], which is the last. *)
Theorem parse_result_is_dereferenced (schema r : json) :
  snd (parse schema) = Ok r ->
  exists log d,
    acquired schema = (log, Ok d) /\
    snd (validate d) = Ok Valid /\
    dereference d = inr r /\
    fst (parse schema) = log ++ fst (validate d) ++ [CallDereference d].
Proof.
  intros H. destruct (acquired schema) as [log [d|e|]] eqn:Ha.
  - rewrite (parse_acquired _ _ _ Ha) in H |- *. simpl in H |- *.
    exists log, d. split; [reflexivity|].
    destruct (snd (validate d)) as [[|ve]|e|]; try discriminate.
    destruct (dereference d) as [m|r']; [discriminate|].
    inversion H. auto.
  - rewrite (proj1 (parse_failed_acquisition schema log) e Ha) in H. discriminate.
  - rewrite (proj2 (parse_failed_acquisition schema log) Ha) in H. discriminate.
Qed.

(** X16.  Every rejection of [parseOpenRPCDocument] is one of four: the
    rejection of the acquisition, passed on as it is and before anything else
    is called; an exception thrown by [validateOpenRPCDocument], passed on as
    it is and without a call of [refParser.dereference]; the validation error
    that [validateOpenRPCDocument] returned; or the wrapped failure of
    [refParser.dereference] on a document that passed validation. *)
Theorem parse_rejections (schema : json) (e : thrown) :
  snd (parse schema) = Throw e ->
  (snd (acquired schema) = Throw e /\ fst (parse schema) = fst (acquired schema)) \/
  exists log d,
    acquired schema = (log, Ok d) /\
    ((snd (validate d) = Throw e /\ fst (parse schema) = log ++ fst (validate d)) \/
     (exists ve, snd (validate d) = Ok (Invalid ve) /\ e = ValidationError ve /\
                 fst (parse schema) = log ++ fst (validate d)) \/
     (exists m, snd (validate d) = Ok Valid /\ dereference d = inl m /\
                e = new_OpenRPCDocumentDereferencingError m)).
Proof.
  intros H. destruct (acquired schema) as [log [d|e0|]] eqn:Ha.
  - right. exists log, d. split; [reflexivity|].
    rewrite (parse_acquired _ _ _ Ha) in H |- *. simpl in H |- *.
    destruct (snd (validate d)) as [[|ve]|e1|]; try discriminate.
    + right. right. destruct (dereference d) as [m|r']; [|discriminate].
      inversion H. eauto.
    + right. left. exists ve. inversion H. rewrite app_nil_r. auto.
    + left. inversion H. rewrite app_nil_r. auto.
  - left. rewrite (proj1 (parse_failed_acquisition schema log) e0 Ha) in H |- *.
    simpl in *. inversion H. auto.
  - rewrite (proj2 (parse_failed_acquisition schema log) Ha) in H. discriminate.
Qed.

(** X17.  The three ways to hand over a document say the same.  For a
    document [d] that is not itself a string: the call with a JSON text that
    parses to [d] is the call with [d]; the call with a URL behind which
    [fetchUrlSchemaFile] finds [d], and the call with a path at which
    [readSchemaFromFile] finds [d], end as the call with [d] does, after the
    calls of the acquisition. *)
Theorem parse_shapes_agree (s : string) (d : json) :
  d <> JUndef -> (forall s', d <> JStr s') ->
  (JSON_parse s = Some d -> parse (JStr s) = parse d) /\
  (JSON_parse s = None -> isUrl s = true -> fetchUrlSchemaFile s = Ok d ->
   parse (JStr s) = (CallFetchUrl s :: fst (parse d), snd (parse d))) /\
  (JSON_parse s = None -> isUrl s = false -> readSchemaFromFile s = Ok d ->
   parse (JStr s) = (CallPathExists s :: CallReadFile s :: fst (parse d), snd (parse d))).
Proof.
  intros Hu Hs.
  assert (Hd : acquired d = ([], Ok d)).
  { unfold acquired, acquire. destruct d; try reflexivity; [congruence|].
    exfalso. eapply Hs; eauto. }
  pose proof (parse_acquired _ _ _ Hd) as Hpd.
  split; [|split].
  - intros Hp.
    assert (Ha : acquired (JStr s) = ([], Ok d)).
    { unfold acquired, acquire, isJson. rewrite Hp. reflexivity. }
    rewrite (parse_acquired _ _ _ Ha), Hpd. reflexivity.
  - intros Hp Hurl Hf.
    assert (Ha : acquired (JStr s) = ([CallFetchUrl s], Ok d)).
    { unfold acquired, acquire, isJson. rewrite Hp, Hurl, Hf. reflexivity. }
    rewrite (parse_acquired _ _ _ Ha), Hpd. reflexivity.
  - intros Hp Hurl Hf.
    assert (Ha : acquired (JStr s) = ([CallPathExists s; CallReadFile s], Ok d)).
    { unfold acquired, acquire, isJson. rewrite Hp, Hurl. simpl. rewrite Hf. reflexivity. }
    rewrite (parse_acquired _ _ _ Ha), Hpd. reflexivity.
Qed.

End PipelineMore.

(** X15, a run: the sample document, read from the file "openrpc.json". *)
Lemma parse_result_is_dereferenced_witness :
  exists log d,
    acquire Sample.JSON_parse Sample.isUrl Sample.fetchUrlSchemaFile Sample.pathExists
      Sample.readSchemaFromFile (JStr "openrpc.json") = (log, Ok d) /\
    Sample.dereference d = inr (Sample.document []).
Proof.
  destruct (parse_result_is_dereferenced Sample.metaSchema Sample.JSON_stringify
              Sample.ajv_validate Sample.JSON_parse Sample.isUrl
              Sample.fetchUrlSchemaFile Sample.pathExists Sample.readSchemaFromFile
              Sample.dereference (JStr "openrpc.json") (Sample.document []) eq_refl)
    as (log & d & Ha & _ & Hd & _).
  exists log, d. split; [exact Ha | exact Hd].
Defined.

(** X16, a run: the empty document ends in the validation error. *)
Lemma parse_rejections_witness :
  let e := ValidationError
             (new_OpenRPCDocumentValidationError Sample.JSON_stringify [Sample.missing_info]) in
  (snd (acquire Sample.JSON_parse Sample.isUrl Sample.fetchUrlSchemaFile Sample.pathExists
          Sample.readSchemaFromFile (JObj [])) = Throw e /\
   fst (parseOpenRPCDocument Sample.metaSchema Sample.JSON_stringify
          Sample.ajv_validate Sample.JSON_parse Sample.isUrl
          Sample.fetchUrlSchemaFile Sample.pathExists Sample.readSchemaFromFile
          Sample.dereference (JObj []))
   = fst (acquire Sample.JSON_parse Sample.isUrl Sample.fetchUrlSchemaFile Sample.pathExists
            Sample.readSchemaFromFile (JObj []))) \/
  exists log d,
    acquire Sample.JSON_parse Sample.isUrl Sample.fetchUrlSchemaFile Sample.pathExists
      Sample.readSchemaFromFile (JObj []) = (log, Ok d) /\
    ((snd (validateOpenRPCDocument Sample.metaSchema Sample.JSON_stringify
             Sample.ajv_validate d) = Throw e /\
      fst (parseOpenRPCDocument Sample.metaSchema Sample.JSON_stringify
             Sample.ajv_validate Sample.JSON_parse Sample.isUrl
             Sample.fetchUrlSchemaFile Sample.pathExists Sample.readSchemaFromFile
             Sample.dereference (JObj []))
      = log ++ fst (validateOpenRPCDocument Sample.metaSchema Sample.JSON_stringify
                      Sample.ajv_validate d)) \/
     (exists ve,
         snd (validateOpenRPCDocument Sample.metaSchema Sample.JSON_stringify
                Sample.ajv_validate d) = Ok (Invalid ve) /\
         e = ValidationError ve /\
         fst (parseOpenRPCDocument Sample.metaSchema Sample.JSON_stringify
                Sample.ajv_validate Sample.JSON_parse Sample.isUrl
                Sample.fetchUrlSchemaFile Sample.pathExists Sample.readSchemaFromFile
                Sample.dereference (JObj []))
         = log ++ fst (validateOpenRPCDocument Sample.metaSchema Sample.JSON_stringify
                         Sample.ajv_validate d)) \/
     (exists m,
         snd (validateOpenRPCDocument Sample.metaSchema Sample.JSON_stringify
                Sample.ajv_validate d) = Ok Valid /\
         Sample.dereference d = inl m /\
         e = new_OpenRPCDocumentDereferencingError m)).
Proof.
  intros e.
  exact (parse_rejections Sample.metaSchema Sample.JSON_stringify
           Sample.ajv_validate Sample.JSON_parse Sample.isUrl
           Sample.fetchUrlSchemaFile Sample.pathExists Sample.readSchemaFromFile
           Sample.dereference (JObj []) e eq_refl).
Defined.

(** X17, a run: the text of an empty object, and the empty object. *)
Lemma parse_shapes_agree_witness :
  parseOpenRPCDocument Sample.metaSchema Sample.JSON_stringify
    Sample.ajv_validate Sample.JSON_parse Sample.isUrl
    Sample.fetchUrlSchemaFile Sample.pathExists Sample.readSchemaFromFile
    Sample.dereference (JStr "{}")
  = parseOpenRPCDocument Sample.metaSchema Sample.JSON_stringify
      Sample.ajv_validate Sample.JSON_parse Sample.isUrl
      Sample.fetchUrlSchemaFile Sample.pathExists Sample.readSchemaFromFile
      Sample.dereference (JObj []).
Proof.
  destruct (parse_shapes_agree Sample.metaSchema Sample.JSON_stringify
              Sample.ajv_validate Sample.JSON_parse Sample.isUrl
              Sample.fetchUrlSchemaFile Sample.pathExists Sample.readSchemaFromFile
              Sample.dereference "{}" (JObj []))
    as (Htext & _ & _); [discriminate | intros s'; discriminate |].
  apply Htext. reflexivity.
Defined.

(** X18.  The answer of [pathExists] is never used: with any two existence
    checks, [parseOpenRPCDocument] makes the same calls and ends the same
    way.  A path that does not exist is found out by [readSchemaFromFile]. *)
Theorem existence_check_unused (base : json)
    (JSON_stringify : list ErrorObject -> string)
    (ajv_validate : json -> json -> outcome (option (list ErrorObject)))
    (JSON_parse : string -> option json) (isUrl : string -> bool)
    (fetchUrlSchemaFile : string -> outcome json)
    (pathExists pathExists' : string -> bool)
    (readSchemaFromFile : string -> outcome json)
    (dereference : json -> string + json) (schema : json) :
  parseOpenRPCDocument base JSON_stringify ajv_validate JSON_parse isUrl
    fetchUrlSchemaFile pathExists readSchemaFromFile dereference schema
  = parseOpenRPCDocument base JSON_stringify ajv_validate JSON_parse isUrl
      fetchUrlSchemaFile pathExists' readSchemaFromFile dereference schema.
Proof.
  unfold parseOpenRPCDocument.
  assert (Ha : acquire JSON_parse isUrl fetchUrlSchemaFile pathExists readSchemaFromFile schema
               = acquire JSON_parse isUrl fetchUrlSchemaFile pathExists' readSchemaFromFile
                   schema).
  { unfold acquire. destruct schema; reflexivity. }
  rewrite Ha. reflexivity.
Qed.

(* ===================================================================== *)
(** * The earlier version of [validateOpenRPCDocument] *)
(* ===================================================================== *)

Lemma earlier_run (base : json) (JSON_stringify : list ErrorObject -> string)
    (ajv_validate : json -> json -> outcome (option (list ErrorObject)))
    (document : json) :
  Earlier.validateOpenRPCDocument base JSON_stringify ajv_validate document =
  match cleanMetaSchemaForValidation base with
  | Ok schema =>
      match ajv_validate schema document with
      | Ok (Some errs) =>
          ([Earlier.AjvValidate schema document; Earlier.ConsoleLog document;
            Earlier.ConsoleInfo errs],
           Ok (Invalid (new_OpenRPCDocumentValidationError JSON_stringify errs)))
      | Ok None => ([Earlier.AjvValidate schema document], Ok Valid)
      | Throw e => ([Earlier.AjvValidate schema document], Throw e)
      | Unmodelled => ([Earlier.AjvValidate schema document], Unmodelled)
      end
  | Throw e => ([], Throw e)
  | Unmodelled => ([], Unmodelled)
  end.
Proof. reflexivity. Qed.

(** X19.  On a document that declares nothing (no [x-extensions], or only
    declarations with an empty [restricted]), the earlier version of
    [validateOpenRPCDocument] and the current one, given the same meta-schema
    by their getters, end the same way and call the engine with the same
    schema and document. *)
Theorem earlier_version_agrees (base : json) (JSON_stringify : list ErrorObject -> string)
    (ajv_validate : json -> json -> outcome (option (list ErrorObject)))
    (document : json) :
  nullish document = false ->
  field document "x-extensions" = JUndef \/
    (exists es, field document "x-extensions" = JArr es /\ forallb idle es = true) ->
  snd (Earlier.validateOpenRPCDocument base JSON_stringify ajv_validate document)
  = snd (validateOpenRPCDocument base JSON_stringify ajv_validate document) /\
  Earlier.engine_calls
    (fst (Earlier.validateOpenRPCDocument base JSON_stringify ajv_validate document))
  = fst (validateOpenRPCDocument base JSON_stringify ajv_validate document).
Proof.
  intros Hd H. destruct (nullish base) eqn:Hb.
  - destruct base; try discriminate; split; reflexivity.
  - rewrite earlier_run. unfold validateOpenRPCDocument.
    rewrite validation_schema_composed, (idle_run base document Hb Hd H). simpl.
    destruct (cleanMetaSchemaForValidation base) as [schema|e|]; simpl;
      [|split; reflexivity ..].
    destruct (ajv_validate schema document) as [[errs|]|e|]; split; reflexivity.
Qed.

(** X19, a run: the empty document under both versions. *)
Lemma earlier_version_agrees_witness :
  snd (Earlier.validateOpenRPCDocument Sample.metaSchema Sample.JSON_stringify
         Sample.ajv_validate (JObj []))
  = Ok (Invalid (new_OpenRPCDocumentValidationError Sample.JSON_stringify
                   [Sample.missing_info])) /\
  snd (validateOpenRPCDocument Sample.metaSchema Sample.JSON_stringify
         Sample.ajv_validate (JObj []))
  = Ok (Invalid (new_OpenRPCDocumentValidationError Sample.JSON_stringify
                   [Sample.missing_info])).
Proof.
  destruct (earlier_version_agrees Sample.metaSchema Sample.JSON_stringify
              Sample.ajv_validate (JObj []) eq_refl (or_introl eq_refl)) as [Hsame _].
  split; [reflexivity|]. rewrite <- Hsame. reflexivity.
Defined.

(** X20.  The earlier version of [validateOpenRPCDocument] never reads the
    document: the schema it hands to the engine is the sanitized meta-schema
    of its getter, whatever the document is ([null], a document with a
    declaration for an unknown definition).  It prints exactly when it
    returns an error: then the document and the violations, in that order,
    after the call of the engine; otherwise it prints nothing. *)
Theorem earlier_version_effects (base : json) (JSON_stringify : list ErrorObject -> string)
    (ajv_validate : json -> json -> outcome (option (list ErrorObject)))
    (document : json) :
  let run := Earlier.validateOpenRPCDocument base JSON_stringify ajv_validate document in
  (forall schema d,
      In (Earlier.AjvValidate schema d) (fst run) ->
      cleanMetaSchemaForValidation base = Ok schema /\ d = document) /\
  (forall e,
      snd run = Ok (Invalid e) <->
      exists schema errs,
        fst run = [Earlier.AjvValidate schema document; Earlier.ConsoleLog document;
                   Earlier.ConsoleInfo errs] /\
        e = new_OpenRPCDocumentValidationError JSON_stringify errs) /\
  ((forall e, snd run <> Ok (Invalid e)) ->
   forall x, In x (fst run) -> exists schema, x = Earlier.AjvValidate schema document).
Proof.
  cbv zeta. rewrite earlier_run.
  destruct (cleanMetaSchemaForValidation base) as [schema|e0|]; simpl.
  2,3: split; [intros s d [] | split; [|intros _ x []]];
       intros e; split; [discriminate | intros (s & errs & Hl & _); discriminate].
  destruct (ajv_validate schema document) as [[errs|]|e0|]; simpl.
  - split; [|split].
    + intros s d [E|[E|[E|[]]]]; inversion E; auto.
    + intros e. split.
      * intros E. inversion E. eauto.
      * intros (s & errs' & Hl & ->). inversion Hl. reflexivity.
    + intros Hno. exfalso. eapply Hno. reflexivity.
  - split; [|split].
    + intros s d [E|[]]; inversion E; auto.
    + intros e. split; [discriminate | intros (s & errs' & Hl & _); discriminate].
    + intros _ x [<-|[]]. eauto.
  - split; [|split].
    + intros s d [E|[]]; inversion E; auto.
    + intros e. split; [discriminate | intros (s & errs' & Hl & _); discriminate].
    + intros _ x [<-|[]]. eauto.
  - split; [|split].
    + intros s d [E|[]]; inversion E; auto.
    + intros e. split; [discriminate | intros (s & errs' & Hl & _); discriminate].
    + intros _ x [<-|[]]. eauto.
Qed.

(* ===================================================================== *)
(** * Further properties over the object store *)
(* ===================================================================== *)

(** X21.  Where the injection writes.  With
    [getMetaSchemaWithExtensionSchema] building a new object graph, a call of
    [applyExtensionsToMetaSchema], whether it returns or throws, allocates
    nothing after its working copy and leaves the root of the copy, its
    [definitions] object and every definition object as they were built (the
    writes go to the [required] arrays and the [properties] objects, one
    reference further); and what it returns is the root of the copy. *)
Theorem injection_writes_below_definitions (metaSchema : json)
    (document : Store.value) (h h' : Store.heap) (r : outcome Store.value) :
  Store.applyExtensionsToMetaSchema metaSchema document h = (h', r) ->
  exists h1 root,
    Store.getMetaSchemaWithExtensionSchema metaSchema h = (h1, Ok root) /\
    length h' = length h1 /\
    (forall ms, r = Ok ms -> ms = root) /\
    (forall k l, k < 3 -> Store.at_depth h1 root k l -> h' !! l = h1 !! l).
Proof.
  intros E.
  apply StoreFacts.store_applyExtensions_run in E as (h1 & root & Hal & [Hlen Hk] & Hms).
  exists h1, root. split; [|split; [exact Hlen|split; [exact Hms|]]].
  - unfold Store.getMetaSchemaWithExtensionSchema. rewrite Hal. reflexivity.
  - intros k l Hlt Hd. apply Hk. right. eauto.
Qed.

(** X21, a run: the document with the declaration "x-foo", laid out in an
    empty store; the root of the working copy is as it was built. *)
Lemma injection_writes_below_definitions_witness :
  let h := fst (Store.alloc_tree (Sample.document [Sample.x_foo]) []) in
  let document := snd (Store.alloc_tree (Sample.document [Sample.x_foo]) []) in
  let run := Store.applyExtensionsToMetaSchema Sample.metaSchema document h in
  exists h1 l,
    Store.getMetaSchemaWithExtensionSchema Sample.metaSchema h = (h1, Ok (Store.VRef l)) /\
    snd run = Ok (Store.VRef l) /\
    fst run !! l = h1 !! l.
Proof.
  intros h document run.
  destruct (injection_writes_below_definitions Sample.metaSchema document h
              (fst run) (snd run) (surjective_pairing _))
    as (h1 & root & Hg & _ & Hms & Hk).
  vm_compute in Hg. inversion Hg; subst h1 root. clear Hg.
  eexists _, _. split; [vm_compute; reflexivity|]. split; [vm_compute; reflexivity|].
  apply (Hk 0); [lia | reflexivity].
Defined.
